(** * Customer OTP authentication: sendOtp, verifyOtp, logout

    A shallow embedding of [src/controllers/customer/auth.controller.js].

    The controller talks to four relational tables through drizzle, to the
    [jsonwebtoken] library, to [node:crypto] and to the process environment.
    Tables are lists of rows and every query the controller issues is a
    function on such lists; a database transaction commits when its callback
    returns and rolls back when it throws, and a rollback restores the
    tables but not the id sequence.  The hash function and the token
    library are parameters of the development.  Random draws and the clock
    are explicit inputs of the handlers.

    Strings are [String.string]; a character stands for one code unit below
    256, which covers every literal the controller compares against. *)

From Stdlib Require Import ZArith List String Ascii Bool Lia PeanoNat.
Import ListNotations.
Open Scope string_scope.

(** ** JavaScript string primitives used by the controller *)

Module JsString.

(** White space and line terminators below 256, as [String.prototype.trim]
    strips them: TAB, LF, VT, FF, CR, SP and NBSP. *)
Definition is_space (c : ascii) : bool :=
  match nat_of_ascii c with
  | 9 | 10 | 11 | 12 | 13 | 32 | 160 => true
  | _ => false
  end.

Fixpoint trimStart (s : string) : string :=
  match s with
  | EmptyString => EmptyString
  | String c r => if is_space c then trimStart r else s
  end.

Fixpoint trimEnd (s : string) : string :=
  match s with
  | EmptyString => EmptyString
  | String c r =>
      match trimEnd r with
      | EmptyString => if is_space c then EmptyString else String c EmptyString
      | r' => String c r'
      end
  end.

Definition trim (s : string) : string := trimEnd (trimStart s).

(** [s.split(sep)] for a one-character separator: the pieces between
    consecutive separators, empty pieces included; never empty. *)
Fixpoint split (sep : ascii) (s : string) : list string :=
  match s with
  | EmptyString => [EmptyString]
  | String c r =>
      if Ascii.eqb c sep then EmptyString :: split sep r
      else match split sep r with
           | piece :: rest => String c piece :: rest
           | [] => [String c EmptyString]
           end
  end.

(** [parts.join(sep)], the inverse reading of [split]. *)
Fixpoint join (sep : ascii) (parts : list string) : string :=
  match parts with
  | [] => EmptyString
  | [p] => p
  | p :: rest => p ++ String sep (join sep rest)
  end.

Fixpoint contains (c : ascii) (s : string) : bool :=
  match s with
  | EmptyString => false
  | String d r => Ascii.eqb d c || contains c r
  end.

(** [s.slice(-n)]: the last [n] characters, the whole string when it is
    shorter. *)
Definition sliceLast (n : nat) (s : string) : string :=
  substring (String.length s - n) n s.

(** Truthiness of a string value. *)
Definition truthy (s : string) : bool := negb (s =? "").

(** [s.toLowerCase()] on code units below 256: the letters A to Z and the
    capital letters of the Latin-1 block (192 to 222, the multiplication
    sign 215 excepted) move up by 32, every other unit stays. *)
Definition toLowerChar (c : ascii) : ascii :=
  let n := nat_of_ascii c in
  if ((65 <=? n) && (n <=? 90)
      || (192 <=? n) && (n <=? 222) && negb (n =? 215))%nat
  then ascii_of_nat (n + 32)
  else c.

Fixpoint toLowerCase (s : string) : string :=
  match s with
  | EmptyString => EmptyString
  | String c r => String (toLowerChar c) (toLowerCase r)
  end.

(** [s.startsWith(p)] *)
Definition startsWith (p s : string) : bool := String.prefix p s.

(** [s.slice(n)] for an index [n] that is not negative. *)
Definition sliceFrom (n : nat) (s : string) : string :=
  substring n (String.length s - n) s.

(** [Array.from(new Set(items))]: the items in the order of their first
    occurrence. *)
Definition fromSet (items : list string) : list string :=
  fold_left
    (fun seen x =>
       if existsb (String.eqb x) seen then seen else (seen ++ [x])%list)
    items [].

End JsString.

(** ** Values that cross the module boundary *)

(** What a call either returns or throws. *)
Inductive completion (A : Type) : Type :=
| Return (a : A)
| Throw (message : string).
Arguments Return {A} a.
Arguments Throw {A} message.

(** [process.env], the variables the controller reads at call time. *)
Record ProcessEnv := {
  CUSTOMER_JWT_SECRET : option string;
  NODE_ENV : option string
}.

(** [value || fallback] on an environment variable: unset and empty are
    both falsy. *)
Definition or_default (value : option string) (fallback : string) : string :=
  match value with
  | Some s => if JsString.truthy s then s else fallback
  | None => fallback
  end.

(** The payload handed to [jwt.sign]. *)
Record JwtPayload := {
  sub : Z;
  jwt_phone : string;
  jti : string;
  typ : string
}.

(** The fields the controller reads from a decoded or verified payload.
    [None] stands for a field that is absent or not of the expected type. *)
Record JwtClaims := {
  claim_typ : option string;
  claim_exp : option Z
}.

(** The [jsonwebtoken] functions the controller calls. [verify] reads the
    clock, passed as its last argument (seconds are the library's business,
    the clock is in milliseconds as [Date.now()]). *)
Record JwtLib := {
  jwt_sign : JwtPayload -> string -> string -> Z -> completion string;
  jwt_decode : string -> option JwtClaims;
  jwt_verify : string -> string -> Z -> completion JwtClaims
}.

(** ** Tables *)

Module OtpRow.
(** Modelled from the spec: the table declaration in [db/schema.js] is not
    among the sources.  An OTP record is keyed by phone and holds the hash
    of the code, the expiry and the used flag; the controller guards
    against an expiry that is absent. *)
Record t := {
  phone : string;
  otpHash : string;
  expiresAt : option Z;
  used : bool
}.
End OtpRow.

Module Customer.
(** Modelled from the spec: the table declaration in [db/schema.js] is not
    among the sources.  A customer has an id, a display name, a phone, an
    optional email and a creation time. *)
Record t := {
  id : Z;
  name : string;
  phone : string;
  email : option string;
  createdAt : Z
}.
End Customer.

Module Session.
(** Modelled from the spec: the table declaration in [db/schema.js] is not
    among the sources.  A session records the owning customer, the hash of
    the token and the expiry of the token. *)
Record t := {
  customerId : Z;
  tokenHash : string;
  expiresAt : Z
}.
End Session.

(** Modelled from the spec: [utils/customerOtp.js] is not among the
    sources; [customerOtp(phone, otp)] hands the raw code over for delivery
    out of band and is not awaited, so a call is recorded as one more entry
    of [dispatched].  The other fields are the four tables and the id
    sequence of the customers table. *)
Record World := {
  phoneWhitelist : list string;
  customerOtps : list OtpRow.t;
  customers : list Customer.t;
  customers_next_id : Z;
  customerSessions : list Session.t;
  dispatched : list (string * string)
}.

Definition with_customerOtps (rows : list OtpRow.t) (w : World) : World :=
  {| phoneWhitelist := phoneWhitelist w;
     customerOtps := rows;
     customers := customers w;
     customers_next_id := customers_next_id w;
     customerSessions := customerSessions w;
     dispatched := dispatched w |}.

Definition with_customerSessions (rows : list Session.t) (w : World) : World :=
  {| phoneWhitelist := phoneWhitelist w;
     customerOtps := customerOtps w;
     customers := customers w;
     customers_next_id := customers_next_id w;
     customerSessions := rows;
     dispatched := dispatched w |}.

Definition with_dispatched (log : list (string * string)) (w : World) : World :=
  {| phoneWhitelist := phoneWhitelist w;
     customerOtps := customerOtps w;
     customers := customers w;
     customers_next_id := customers_next_id w;
     customerSessions := customerSessions w;
     dispatched := log |}.

(** ** Queries *)

Module Query.

(** [select phone from phone_whitelist where phone = p limit 1] *)
Definition whitelist_by_phone (p : string) (w : World) : list string :=
  firstn 1 (filter (fun row => row =? p) (phoneWhitelist w)).

(** [select ... from customer_otps where phone = p limit 1] *)
Definition otps_by_phone (p : string) (w : World) : list OtpRow.t :=
  firstn 1 (filter (fun row => OtpRow.phone row =? p) (customerOtps w)).

(** [insert into customer_otps values row
     on conflict (phone) do update set otp_hash, expires_at, used] *)
Definition upsert_otp (row : OtpRow.t) (w : World) : World :=
  let hit r := OtpRow.phone r =? OtpRow.phone row in
  if existsb hit (customerOtps w)
  then with_customerOtps
         (map (fun r =>
                 if hit r
                 then {| OtpRow.phone := OtpRow.phone r;
                         OtpRow.otpHash := OtpRow.otpHash row;
                         OtpRow.expiresAt := OtpRow.expiresAt row;
                         OtpRow.used := OtpRow.used row |}
                 else r)
              (customerOtps w)) w
  else with_customerOtps (customerOtps w ++ [row]) w.

(** [delete from customer_otps where phone = p] *)
Definition delete_otps (p : string) (w : World) : World :=
  with_customerOtps
    (filter (fun r => negb (OtpRow.phone r =? p)) (customerOtps w)) w.

(** [update customer_otps set used = true
     where phone = p and used = false returning phone] *)
Definition mark_used (p : string) (w : World) : list string * World :=
  let hit r := (OtpRow.phone r =? p) && Bool.eqb (OtpRow.used r) false in
  (map OtpRow.phone (filter hit (customerOtps w)),
   with_customerOtps
     (map (fun r =>
             if hit r
             then {| OtpRow.phone := OtpRow.phone r;
                     OtpRow.otpHash := OtpRow.otpHash r;
                     OtpRow.expiresAt := OtpRow.expiresAt r;
                     OtpRow.used := true |}
             else r)
          (customerOtps w)) w).

(** [select ... from customers where phone = p limit 1] *)
Definition customers_by_phone (p : string) (w : World) : list Customer.t :=
  firstn 1 (filter (fun c => Customer.phone c =? p) (customers w)).

(** [insert into customers (name, phone, email) values ... returning ...]:
    the store assigns the id from its sequence and the creation time. *)
Definition insert_customer (nm ph : string) (em : option string) (now : Z)
    (w : World) : list Customer.t * World :=
  let row := {| Customer.id := customers_next_id w; Customer.name := nm;
                Customer.phone := ph; Customer.email := em;
                Customer.createdAt := now |} in
  ([row],
   {| phoneWhitelist := phoneWhitelist w;
      customerOtps := customerOtps w;
      customers := customers w ++ [row];
      customers_next_id := customers_next_id w + 1;
      customerSessions := customerSessions w;
      dispatched := dispatched w |}).

(** [insert into customer_sessions values row
     on conflict (token_hash) do nothing] *)
Definition insert_session (row : Session.t) (w : World) : World :=
  if existsb (fun s => Session.tokenHash s =? Session.tokenHash row)
       (customerSessions w)
  then w
  else with_customerSessions (customerSessions w ++ [row]) w.

(** [delete from customer_sessions where token_hash = h] *)
Definition delete_sessions (h : string) (w : World) : World :=
  with_customerSessions
    (filter (fun s => negb (Session.tokenHash s =? h)) (customerSessions w)) w.

(** The store after a rollback: the tables are those the transaction
    started from; an id drawn from the customers sequence is not given
    back, and what was handed over for delivery stays handed over. *)
Definition rolled_back (before reached : World) : World :=
  {| phoneWhitelist := phoneWhitelist before;
     customerOtps := customerOtps before;
     customers := customers before;
     customers_next_id := customers_next_id reached;
     customerSessions := customerSessions before;
     dispatched := dispatched reached |}.

(** [db.transaction(callback)]: the callback runs on the store and ends,
    by returning or by throwing, in the store it reached; what it did is
    committed when it returns and rolled back when it throws. *)
Definition transaction {A : Type} (callback : World -> completion A * World)
    (w : World) : completion A * World :=
  match callback w with
  | (Return a, w') => (Return a, w')
  | (Throw e, w') => (Throw e, rolled_back w w')
  end.

End Query.

(** ** HTTP outcomes *)

Inductive Body :=
| JsonError (error : string)
| JsonOk
| JsonLogin (token : string) (customer : Customer.t)
| NoBody.

Inductive Outcome :=
| Responded (status : Z) (body : Body)
| Next (err : string).

Record Request := {
  body_phone : option string;
  body_otp : option string;
  authorization : option string
}.

(** The tagged results of the verification transaction. *)
Inductive TxResult :=
| otp_invalid
| otp_expired
| failed
| token_failed
| ok (token : string) (customer : Customer.t).

(** ** A concrete instance of the parameters

    Stand-ins for the hash and the token library, used to run the handlers
    on concrete requests: the hash is the identity, a token is the text
    [typ:jti], and every token decodes with a seven-day expiry. *)

Module Mock.

Definition sha256_hex (s : string) : string := s.

Definition sign (p : JwtPayload) (secret ttl : string) (now : Z)
    : completion string :=
  Return (typ p ++ ":" ++ jti p).

Definition decode (token : string) : option JwtClaims :=
  Some {| claim_typ := nth_error (JsString.split ":" token) 0;
          claim_exp := Some 604800%Z |}.

Definition verify (token secret : string) (now : Z) : completion JwtClaims :=
  if JsString.contains ":" token
  then match decode token with
       | Some c => Return c
       | None => Throw "jwt malformed"
       end
  else Throw "jwt malformed".

Definition jwt : JwtLib :=
  {| jwt_sign := sign; jwt_decode := decode; jwt_verify := verify |}.

(** A token library whose decoded payload carries no expiry. *)
Definition jwt_without_exp : JwtLib :=
  {| jwt_sign := sign;
     jwt_decode := fun _ => Some {| claim_typ := Some "customer";
                                    claim_exp := None |};
     jwt_verify := verify |}.

Definition development : ProcessEnv :=
  {| CUSTOMER_JWT_SECRET := None; NODE_ENV := None |}.

Definition empty (whitelist : list string) : World :=
  {| phoneWhitelist := whitelist;
     customerOtps := [];
     customers := [];
     customers_next_id := 1;
     customerSessions := [];
     dispatched := [] |}.

Definition post (phone otp : string) : Request :=
  {| body_phone := Some phone; body_otp := Some otp; authorization := None |}.

Definition bearer (header : string) : Request :=
  {| body_phone := None; body_otp := None; authorization := Some header |}.

(** A whitelisted phone, the code sent to it at time 1000 with a time to
    live of 300000 ms, and the store after that [sendOtp]. *)
Definition phone : string := "+919876543210".
Definition code : string := "482913".

Definition issued_row : OtpRow.t :=
  {| OtpRow.phone := phone;
     OtpRow.otpHash := "+919876543210:482913";
     OtpRow.expiresAt := Some 301000%Z;
     OtpRow.used := false |}.

Definition issued : World :=
  {| phoneWhitelist := [phone];
     customerOtps := [issued_row];
     customers := [];
     customers_next_id := 1;
     customerSessions := [];
     dispatched := [(phone, code)] |}.

(** The customer created by the first verification at time 2000, and the
    store after it. *)
Definition customer : Customer.t :=
  {| Customer.id := 1;
     Customer.name := "Customer 3210";
     Customer.phone := phone;
     Customer.email := None;
     Customer.createdAt := 2000 |}.

Definition logged_in : World :=
  {| phoneWhitelist := [phone];
     customerOtps :=
       [ {| OtpRow.phone := phone;
            OtpRow.otpHash := "+919876543210:482913";
            OtpRow.expiresAt := Some 301000%Z;
            OtpRow.used := true |} ];
     customers := [customer];
     customers_next_id := 2;
     customerSessions :=
       [ {| Session.customerId := 1;
            Session.tokenHash := "customer:uuid-1";
            Session.expiresAt := 604800000 |} ];
     dispatched := [(phone, code)] |}.

Definition production_with_empty_secret : ProcessEnv :=
  {| CUSTOMER_JWT_SECRET := Some ""; NODE_ENV := Some "production" |}.

(** Production with the signing secret left unset. *)
Definition production_without_secret : ProcessEnv :=
  {| CUSTOMER_JWT_SECRET := None; NODE_ENV := Some "production" |}.

End Mock.

(** ** Product categories

    The module of the canonical product categories
    ([utils/productCategories.js]). A value that is [undefined] or [null]
    is [None]; any other value is the text [String(value)]. *)

Module ProductCategories.

Definition PRODUCT_CATEGORIES : list string :=
  [ "Beauty"; "Electronics"; "Kids"; "Kitchen"; "Snacks"; "Drinks";
    "Household"; "Pharma"; "others" ].

Definition normalizeProductCategory (value : option string) : option string :=
  match value with
  | None => None
  | Some v =>
      let raw := JsString.trim v in
      if negb (JsString.truthy raw) then None
      else find (fun c => JsString.toLowerCase c =? JsString.toLowerCase raw)
             PRODUCT_CATEGORIES
  end.

Definition normalizeProductCategories (value : option string)
    : option (list string) :=
  match value with
  | None => None
  | Some v =>
      let raw := JsString.trim v in
      if negb (JsString.truthy raw) then None
      else
        let parts :=
          filter JsString.truthy (map JsString.trim (JsString.split "," raw)) in
        let normalized :=
          flat_map
            (fun s => match normalizeProductCategory (Some s) with
                      | Some c => if JsString.truthy c then [c] else []
                      | None => []
                      end)
            parts in
        match normalized with
        | [] => None
        | _ :: _ => Some (JsString.fromSet normalized)
        end
  end.

End ProductCategories.

(** ** Environment loading

    [optional] of [config/env.js] on the values of [process.env], which are
    texts or absent, and the exported fields the customer authentication
    has a counterpart for. *)

Module Env.

(** [String(value).trim() === ""], or the value is absent. *)
Definition is_blank (value : option string) : bool :=
  match value with
  | None => true
  | Some v => JsString.trim v =? ""
  end.

Definition optional (value : option string) (fallback : option string)
    : option string :=
  match value with
  | Some v => if is_blank value then fallback else Some v
  | None => fallback
  end.

(** [required(value, name)] of [config/env.js]: a variable that is absent
    or blank is refused, any other is taken as it is. *)
Definition required (value : option string) (name : string)
    : completion string :=
  match value with
  | Some v => if is_blank value then Throw (name ++ " is not defined")
              else Return v
  | None => Throw (name ++ " is not defined")
  end.

(** The fields of the exported [env] that the customer authentication
    reads from the same variables, and [isProd]. *)
Definition NODE_ENV (e : ProcessEnv) : option string :=
  optional (NODE_ENV e) (Some "development").

Definition CUSTOMER_JWT_SECRET (e : ProcessEnv) : option string :=
  optional (CUSTOMER_JWT_SECRET e) (Some "dev-customer-jwt-secret").

Definition isProd (e : ProcessEnv) : bool :=
  match NODE_ENV e with
  | Some v => v =? "production"
  | None => false
  end.

End Env.

(** ** The admin seeding script

    The script that creates or updates an admin and grants it a role.  Its
    schema file is not among the sources: an admin row carries the columns
    the script reads and writes (id, name, email, password hash), a role
    row the admin id and the role; ids come from the sequence of the
    store.  [bcrypt.hash] salts at random, so the hash it returns is an
    input. *)

Module SeedAdmin.

Definition ADMIN_ROLES : list string :=
  ["ADMIN"; "INVENTORY_VIEWER"; "SUPERADMIN"].

(** [readArg(flag)] on [process.argv]. *)
Definition readArg (argv : list string) (flag : string) : option string :=
  let prefix := "--" ++ flag ++ "=" in
  match find (fun a => JsString.startsWith prefix a) argv with
  | None => None
  | Some hit =>
      let value :=
        JsString.trim (JsString.sliceFrom (String.length prefix) hit) in
      if (String.length value =? 0)%nat then None else Some value
  end.

(** [required(value, name)]: a value that is absent or empty is refused. *)
Definition required (value : option string) (name : string)
    : completion string :=
  match value with
  | Some v => if JsString.truthy v then Return v
              else Throw (name ++ " is required")
  | None => Throw (name ++ " is required")
  end.

(** [a || b] on values that are texts or absent. *)
Definition or_else (a b : option string) : option string :=
  match a with
  | Some s => if JsString.truthy s then Some s else b
  | None => b
  end.

Module Admin.
Record t := {
  id : Z;
  name : string;
  email : string;
  passwordHash : string
}.
End Admin.

Module AdminRole.
Record t := {
  adminId : Z;
  role : string
}.
End AdminRole.

Record Db := {
  admins : list Admin.t;
  admins_next_id : Z;
  adminRoles : list AdminRole.t
}.

(** The fields of the imported [env] the script reads; [env] has no
    [ADMIN_EMAIL], [ADMIN_PASSWORD] or [ADMIN_NAME] field, so those reads
    are [undefined]. *)
Record Config := {
  DATABASE_URL : string;
  SUPERADMIN_EMAIL : option string;
  SUPERADMIN_PASSWORD : option string;
  SUPERADMIN_NAME : option string
}.

(** The variables of [process.env], as they are once [dotenv/config] has
    read the .env file, from which [config/env.js] builds those fields. *)
Module Process.
Record env := {
  DATABASE_URL : option string;
  SUPERADMIN_EMAIL : option string;
  ADMIN_EMAIL : option string;
  SUPERADMIN_PASSWORD : option string;
  ADMIN_PASSWORD : option string;
  SUPERADMIN_NAME : option string;
  ADMIN_NAME : option string
}.
End Process.

(** The import of [config/env.js]: [env] is built from [process.env]
    when the module is evaluated, and the import throws when
    [DATABASE_URL] is absent or blank.  Each SUPERADMIN variable falls
    back to its ADMIN namesake. *)
Definition importEnv (p : Process.env) : completion Config :=
  match Env.required (Process.DATABASE_URL p) "DATABASE_URL" with
  | Throw e => Throw e
  | Return url =>
      Return
        {| DATABASE_URL := url;
           SUPERADMIN_EMAIL :=
             Env.optional (Process.SUPERADMIN_EMAIL p)
               (Env.optional (Process.ADMIN_EMAIL p) None);
           SUPERADMIN_PASSWORD :=
             Env.optional (Process.SUPERADMIN_PASSWORD p)
               (Env.optional (Process.ADMIN_PASSWORD p) None);
           SUPERADMIN_NAME :=
             Env.optional (Process.SUPERADMIN_NAME p)
               (Env.optional (Process.ADMIN_NAME p) None) |}
  end.

Record Result := {
  created : bool;
  adminId : Z;
  role : string
}.

(** [db.transaction(callback)] on the store of the script: the callback
    ends, by returning or by throwing, in the store it reached; what it
    did is committed when it returns, and when it throws the tables are
    restored while an id drawn from the admins sequence is not given
    back. *)
Definition transaction {A : Type} (callback : Db -> completion A * Db)
    (db : Db) : completion A * Db :=
  match callback db with
  | (Return a, db') => (Return a, db')
  | (Throw e, db') =>
      (Throw e,
       {| admins := admins db;
          admins_next_id := admins_next_id db';
          adminRoles := adminRoles db |})
  end.

(** The callback handed to [db.transaction] by [main]. *)
Definition seedTx (name email passwordHash role : string) (tx : Db)
    : completion Result * Db :=
  let existing :=
    firstn 1 (filter (fun a => Admin.email a =? email) (admins tx)) in
  let grant (adminId : Z) (created : bool) (tx1 : Db) :=
    let already :=
      firstn 1
        (filter (fun r => (AdminRole.adminId r =? adminId)%Z
                          && (AdminRole.role r =? role))
           (adminRoles tx1)) in
    let tx2 :=
      match nth_error already 0 with
      | None =>
          {| admins := admins tx1;
             admins_next_id := admins_next_id tx1;
             adminRoles :=
               adminRoles tx1
                 ++ [ {| AdminRole.adminId := adminId;
                         AdminRole.role := role |} ] |}
      | Some _ => tx1
      end in
    (Return {| created := created; adminId := adminId; role := role |},
     tx2) in
  match nth_error existing 0 with
  | None =>
      let row := {| Admin.id := admins_next_id tx; Admin.name := name;
                    Admin.email := email;
                    Admin.passwordHash := passwordHash |} in
      let inserted := [row] in
      let tx1 := {| admins := admins tx ++ [row];
                    admins_next_id := admins_next_id tx + 1;
                    adminRoles := adminRoles tx |} in
      match nth_error inserted 0 with
      | None => (Throw "FAILED_TO_CREATE_ADMIN", tx1)
      | Some admin => grant (Admin.id admin) true tx1
      end
  | Some found =>
      let adminId := Admin.id found in
      let tx1 :=
        {| admins :=
             map (fun a =>
                    if (Admin.id a =? adminId)%Z
                    then {| Admin.id := Admin.id a; Admin.name := name;
                            Admin.email := Admin.email a;
                            Admin.passwordHash := passwordHash |}
                    else a)
               (admins tx);
           admins_next_id := admins_next_id tx;
           adminRoles := adminRoles tx |} in
      grant adminId false tx1
  end.

(** [main()]: the command line, the imported [env], the hash returned by
    [hashPassword(password)] and the store. *)
Definition main (argv : list string) (env : Config) (passwordHash : string)
    (db : Db) : completion Result * Db :=
  let email :=
    or_else (readArg argv "email") (or_else None (SUPERADMIN_EMAIL env)) in
  let password :=
    or_else (readArg argv "password")
      (or_else None (SUPERADMIN_PASSWORD env)) in
  let name :=
    or_default
      (or_else (readArg argv "name") (or_else None (SUPERADMIN_NAME env)))
      "Admin" in
  let roleRaw := or_default (readArg argv "role") "ADMIN" in
  let role :=
    find (fun r => JsString.toLowerCase r =? JsString.toLowerCase roleRaw)
      ADMIN_ROLES in
  match required (Some (DATABASE_URL env)) "DATABASE_URL" with
  | Throw e => (Throw e, db)
  | Return _ =>
    match required email "email" with
    | Throw e => (Throw e, db)
    | Return email =>
      match required password "password" with
      | Throw e => (Throw e, db)
      | Return _ =>
        match role with
        | None =>
            (Throw ("role must be one of: "
                    ++ String.concat ", " ADMIN_ROLES), db)
        | Some role =>
            if negb (JsString.truthy role)
            then (Throw ("role must be one of: "
                         ++ String.concat ", " ADMIN_ROLES), db)
            else transaction (seedTx name email passwordHash role) db
        end
      end
    end
  end.

(** A run of the script: the imports are evaluated, then [main()]; an
    error of the import ends the run before anything is done. *)
Definition script (argv : list string) (p : Process.env)
    (passwordHash : string) (db : Db) : completion Result * Db :=
  match importEnv p with
  | Throw e => (Throw e, db)
  | Return env => main argv env passwordHash db
  end.

End SeedAdmin.

(** A run of the seeding script on an empty store. *)
Module SeedMock.

Definition config : SeedAdmin.Config :=
  {| SeedAdmin.DATABASE_URL := "postgres://localhost/justoo";
     SeedAdmin.SUPERADMIN_EMAIL := Some "root@justoo.test";
     SeedAdmin.SUPERADMIN_PASSWORD := Some "s3cret";
     SeedAdmin.SUPERADMIN_NAME := None |}.

(** The variables of the process from which that configuration is
    built: the password is given by its ADMIN namesake. *)
Definition process : SeedAdmin.Process.env :=
  {| SeedAdmin.Process.DATABASE_URL := Some "postgres://localhost/justoo";
     SeedAdmin.Process.SUPERADMIN_EMAIL := Some "root@justoo.test";
     SeedAdmin.Process.ADMIN_EMAIL := Some "ops@justoo.test";
     SeedAdmin.Process.SUPERADMIN_PASSWORD := Some "  ";
     SeedAdmin.Process.ADMIN_PASSWORD := Some "s3cret";
     SeedAdmin.Process.SUPERADMIN_NAME := None;
     SeedAdmin.Process.ADMIN_NAME := None |}.

Definition argv : list string :=
  ["node"; "seed-admin.js"; "--role=superadmin"].

Definition empty : SeedAdmin.Db :=
  {| SeedAdmin.admins := [];
     SeedAdmin.admins_next_id := 1;
     SeedAdmin.adminRoles := [] |}.

Definition seeded : SeedAdmin.Db :=
  {| SeedAdmin.admins :=
       [ {| SeedAdmin.Admin.id := 1;
            SeedAdmin.Admin.name := "Admin";
            SeedAdmin.Admin.email := "root@justoo.test";
            SeedAdmin.Admin.passwordHash := "$2a$10$first" |} ];
     SeedAdmin.admins_next_id := 2;
     SeedAdmin.adminRoles :=
       [ {| SeedAdmin.AdminRole.adminId := 1;
            SeedAdmin.AdminRole.role := "SUPERADMIN" |} ] |}.

Definition result : SeedAdmin.Result :=
  {| SeedAdmin.created := true;
     SeedAdmin.adminId := 1;
     SeedAdmin.role := "SUPERADMIN" |}.

End SeedMock.

(** ** The controller *)

Section Controller.

(** [crypto.createHash("sha256").update(s).digest("hex")] *)
Variable sha256_hex : string -> string.
(** The [jsonwebtoken] module. *)
Variable jwt : JwtLib.
(** Module constants, fixed when the module is loaded:
    [Number(process.env.CUSTOMER_OTP_TTL_MS || 1000 * 60 * 5)] and
    [process.env.CUSTOMER_JWT_TTL || "7d"]. *)
Variable OTP_TTL_MS : Z.
Variable JWT_TTL : string.

Definition tokenToHash (token : string) : string := sha256_hex token.

Definition otpToHash (phone otp : string) : string :=
  sha256_hex (phone ++ ":" ++ otp).

Definition normalizePhone (phone : option string) : string :=
  JsString.trim (or_default phone "").

Definition requireJwtSecret (env : ProcessEnv) : completion string :=
  let secret :=
    or_default (CUSTOMER_JWT_SECRET env) "dev-customer-jwt-secret" in
  let isProd :=
    match NODE_ENV env with
    | Some v => v =? "production"
    | None => false
    end in
  if isProd && (secret =? "dev-customer-jwt-secret")
  then Throw "CUSTOMER_JWT_SECRET is required in production"
  else Return secret.

Definition extractBearerToken (req : Request) : option string :=
  let header := or_default (authorization req) "" in
  let parts := JsString.split " " header in
  match nth_error parts 0, nth_error parts 1 with
  | Some scheme, Some token =>
      if negb (scheme =? "Bearer") || negb (JsString.truthy token)
      then None
      else Some token
  | _, _ => None
  end.

(** [row] is the first whitelist row found, if any; its only column is
    the phone. *)
Definition isPhoneWhitelistedRow (row : option string) : bool :=
  match row with
  | Some p => JsString.truthy p
  | None => false
  end.

(** [otp] is the code drawn by
    [String(Math.floor(100000 + Math.random() * 900000))] and [now] is
    [Date.now()]. *)
Definition sendOtp (req : Request) (now : Z) (otp : string) (w : World)
    : Outcome * World :=
  let phone := normalizePhone (body_phone req) in
  if negb (JsString.truthy phone)
  then (Responded 400 (JsonError "PHONE_REQUIRED"), w)
  else
    let wlRows := Query.whitelist_by_phone phone w in
    if negb (isPhoneWhitelistedRow (nth_error wlRows 0))
    then (Responded 403 (JsonError "PHONE_NOT_WHITELISTED"), w)
    else
      let expiresAt := (now + OTP_TTL_MS)%Z in
      let otpHash := otpToHash phone otp in
      let w1 :=
        Query.upsert_otp
          {| OtpRow.phone := phone; OtpRow.otpHash := otpHash;
             OtpRow.expiresAt := Some expiresAt; OtpRow.used := false |} w in
      let w2 := with_dispatched (dispatched w1 ++ [(phone, otp)]) w1 in
      (Responded 200 JsonOk, w2).

(** The callback handed to [db.transaction] by [verifyOtp]. [uuid] is the
    value drawn by [crypto.randomUUID()]. *)
Definition verifyOtpTx (env : ProcessEnv) (phone expectedHash : string)
    (now : Z) (uuid : string) (tx : World) : completion TxResult * World :=
  match nth_error (Query.otps_by_phone phone tx) 0 with
  | None => (Return otp_invalid, tx)
  | Some otpRow =>
    if OtpRow.used otpRow then (Return otp_invalid, tx)
    else if match OtpRow.expiresAt otpRow with
            | Some e => (now >? e)%Z
            | None => false
            end
    then (Return otp_expired, Query.delete_otps phone tx)
    else if negb (OtpRow.otpHash otpRow =? expectedHash)
    then (Return otp_invalid, tx)
    else
      let (usedRows, tx1) := Query.mark_used phone tx in
      match nth_error usedRows 0 with
      | None => (Return otp_invalid, tx1)
      | Some _ =>
        let (found, tx2) :=
          match nth_error (Query.customers_by_phone phone tx1) 0 with
          | Some c => (Some c, tx1)
          | None =>
              let last4 := JsString.sliceLast 4 phone in
              let (inserted, tx2) :=
                Query.insert_customer
                  (if JsString.truthy last4
                   then "Customer " ++ last4
                   else "Customer")
                  phone None now tx1 in
              (nth_error inserted 0, tx2)
          end in
        match found with
        | None => (Return failed, tx2)
        | Some customer =>
          match requireJwtSecret env with
          | Throw e => (Throw e, tx2)
          | Return secret =>
            match jwt_sign jwt
                    {| sub := Customer.id customer;
                       jwt_phone := Customer.phone customer;
                       jti := uuid; typ := "customer" |}
                    secret JWT_TTL now with
            | Throw e => (Throw e, tx2)
            | Return token =>
              let exp :=
                match jwt_decode jwt token with
                | Some decoded => claim_exp decoded
                | None => None
                end in
              match exp with
              | None => (Return token_failed, tx2)
              | Some e =>
                if (e =? 0)%Z then (Return token_failed, tx2)
                else
                  let tx3 :=
                    Query.insert_session
                      {| Session.customerId := Customer.id customer;
                         Session.tokenHash := tokenToHash token;
                         Session.expiresAt := (e * 1000)%Z |} tx2 in
                  (Return (ok token customer), tx3)
              end
            end
          end
        end
      end
  end.

Definition verifyOtp (env : ProcessEnv) (req : Request) (now : Z)
    (uuid : string) (w : World) : Outcome * World :=
  let phone := normalizePhone (body_phone req) in
  let otp := JsString.trim (or_default (body_otp req) "") in
  if negb (JsString.truthy phone) || negb (JsString.truthy otp)
  then (Responded 400 (JsonError "PHONE_AND_OTP_REQUIRED"), w)
  else
    let expectedHash := otpToHash phone otp in
    match Query.transaction (verifyOtpTx env phone expectedHash now uuid) w with
    | (Throw err, w') => (Next err, w')
    | (Return otp_expired, w') => (Responded 401 (JsonError "OTP_EXPIRED"), w')
    | (Return otp_invalid, w') => (Responded 401 (JsonError "OTP_INVALID"), w')
    | (Return token_failed, w') =>
        (Responded 500 (JsonError "TOKEN_CREATE_FAILED"), w')
    | (Return failed, w') => (Responded 500 (JsonError "LOGIN_FAILED"), w')
    | (Return (ok token customer), w') =>
        (Responded 200 (JsonLogin token customer), w')
    end.

Definition logout (env : ProcessEnv) (req : Request) (now : Z) (w : World)
    : Outcome * World :=
  match extractBearerToken req with
  | None => (Responded 401 (JsonError "TOKEN_REQUIRED"), w)
  | Some token =>
    match requireJwtSecret env with
    | Throw err => (Next err, w)
    | Return secret =>
      match jwt_verify jwt token secret now with
      | Throw _ => (Responded 401 (JsonError "TOKEN_INVALID"), w)
      | Return payload =>
        if negb (match claim_typ payload with
                 | Some t => t =? "customer"
                 | None => false
                 end)
        then (Responded 401 (JsonError "TOKEN_INVALID"), w)
        else
          let tokenHash := tokenToHash token in
          (Responded 204 NoBody, Query.delete_sessions tokenHash w)
      end
    end
  end.

Definition revokeToken := logout.

(** One handled request. *)
Inductive step (w : World) : World -> Prop :=
| step_sendOtp req now otp :
    step w (snd (sendOtp req now otp w))
| step_verifyOtp env req now uuid :
    step w (snd (verifyOtp env req now uuid w))
| step_logout env req now :
    step w (snd (logout env req now w)).

Inductive reachable (w0 : World) : World -> Prop :=
| reach_here : reachable w0 w0
| reach_step w w' : reachable w0 w -> step w w' -> reachable w0 w'.

(** At most one OTP row per phone. *)
Definition one_otp_per_phone (w : World) : Prop :=
  forall p : string,
    List.length (filter (fun r => OtpRow.phone r =? p) (customerOtps w)) <= 1.

(** ** Vocabulary of the properties *)

(** The OTP record the verification reads for a phone. *)
Definition otp_record (p : string) (w : World) : option OtpRow.t :=
  nth_error (Query.otps_by_phone p w) 0.

(** The customer the verification finds for a phone. *)
Definition customer_record (p : string) (w : World) : option Customer.t :=
  nth_error (Query.customers_by_phone p w) 0.

(** The row the conditional update writes. *)
Definition consumed (r : OtpRow.t) : OtpRow.t :=
  {| OtpRow.phone := OtpRow.phone r;
     OtpRow.otpHash := OtpRow.otpHash r;
     OtpRow.expiresAt := OtpRow.expiresAt r;
     OtpRow.used := true |}.

(** The OTP row is still within its time to live at [now]. *)
Definition unexpired (r : OtpRow.t) (now : Z) : Prop :=
  forall e, OtpRow.expiresAt r = Some e -> (now <= e)%Z.

(** A call took the record of [p] from unused to used. *)
Definition marks_used (p : string) (w w' : World) : Prop :=
  exists r r',
    otp_record p w = Some r /\ OtpRow.used r = false /\
    otp_record p w' = Some r' /\ OtpRow.used r' = true.

(** The four failure responses of [verifyOtp]. *)
Definition verify_failure (o : Outcome) : Prop :=
  o = Responded 401 (JsonError "OTP_INVALID") \/
  o = Responded 401 (JsonError "OTP_EXPIRED") \/
  o = Responded 500 (JsonError "TOKEN_CREATE_FAILED") \/
  o = Responded 500 (JsonError "LOGIN_FAILED").

(** Signing always produces a token and the token decodes with a
    non-zero expiry, as [jsonwebtoken] does when [expiresIn] is given. *)
Definition sign_yields_exp : Prop :=
  forall payload secret now,
  exists token decoded e,
    jwt_sign jwt payload secret JWT_TTL now = Return token /\
    jwt_decode jwt token = Some decoded /\
    claim_exp decoded = Some e /\ e <> 0%Z.

(** The same verification request submitted again and again, each time
    with its own clock reading and random draw. *)
Fixpoint verifyOtp_replay (env : ProcessEnv) (req : Request)
    (calls : list (Z * string)) (w : World) : list Outcome * World :=
  match calls with
  | [] => ([], w)
  | (now, uuid) :: rest =>
      let (o, w1) := verifyOtp env req now uuid w in
      let (os, w2) := verifyOtp_replay env req rest w1 in
      (o :: os, w2)
  end.

(** The header text [extractBearerToken] splits. *)
Definition header_text (req : Request) : string :=
  match authorization req with
  | Some h => h
  | None => ""
  end.

(** The submitted code after trimming. *)
Definition submitted_otp (req : Request) : string :=
  JsString.trim (or_default (body_otp req) "").

(** ** Further vocabulary *)

(** A request field that is absent or made of white space only. *)
Definition blank (v : option string) : Prop :=
  match v with
  | None => True
  | Some s =>
      forall c, In c (list_ascii_of_string s) -> JsString.is_space c = true
  end.

(** At most one session row per token hash. *)
Definition one_session_per_hash (w : World) : Prop :=
  forall h : string,
    List.length
      (filter (fun s => Session.tokenHash s =? h) (customerSessions w)) <= 1.

(** At most one customer row per phone. *)
Definition one_customer_per_phone (w : World) : Prop :=
  forall p : string,
    List.length (filter (fun c => Customer.phone c =? p) (customers w)) <= 1.

(** The session row [verifyOtp] writes for a token whose decoded expiry is
    [e] seconds. *)
Definition session_row (customer : Customer.t) (token : string) (e : Z)
    : Session.t :=
  {| Session.customerId := Customer.id customer;
     Session.tokenHash := tokenToHash token;
     Session.expiresAt := (e * 1000)%Z |}.

(** The OTP rows of a phone. *)
Definition otp_rows_of (p : string) (w : World) : list OtpRow.t :=
  filter (fun r => OtpRow.phone r =? p) (customerOtps w).

(** The customer rows of a phone. *)
Definition customer_rows_of (p : string) (w : World) : list Customer.t :=
  filter (fun c => Customer.phone c =? p) (customers w).

(** Every OTP record and every code handed over for delivery belongs to a
    phone of the white list. *)
Definition only_whitelisted (w : World) : Prop :=
  (forall r, In r (customerOtps w) ->
             In (OtpRow.phone r) (phoneWhitelist w)) /\
  (forall e, In e (dispatched w) -> In (fst e) (phoneWhitelist w)).

(** The queries and handlers are unfolded by name in the proofs below. *)
#[local] Arguments Query.whitelist_by_phone : simpl never.
#[local] Arguments Query.otps_by_phone : simpl never.
#[local] Arguments Query.upsert_otp : simpl never.
#[local] Arguments Query.delete_otps : simpl never.
#[local] Arguments Query.mark_used : simpl never.
#[local] Arguments Query.customers_by_phone : simpl never.
#[local] Arguments Query.insert_customer : simpl never.
#[local] Arguments Query.insert_session : simpl never.
#[local] Arguments Query.delete_sessions : simpl never.
#[local] Arguments JsString.trim : simpl never.
#[local] Arguments JsString.sliceLast : simpl never.
#[local] Arguments JsString.truthy : simpl never.

(** ** Facts about the string primitives *)

Lemma truthy_true (s : string) : JsString.truthy s = true <-> s <> "".
Proof.
  unfold JsString.truthy. destruct (String.eqb_spec s ""); simpl; split;
    congruence.
Qed.

Lemma truthy_false (s : string) : JsString.truthy s = false <-> s = "".
Proof.
  unfold JsString.truthy. destruct (String.eqb_spec s ""); simpl; split;
    congruence.
Qed.

Lemma or_default_empty (v : option string) :
  or_default v "" = match v with Some s => s | None => "" end.
Proof.
  destruct v as [s|]; simpl; [|reflexivity].
  destruct (JsString.truthy s) eqn:E; [reflexivity|].
  apply truthy_false in E. congruence.
Qed.

Lemma split_not_nil (sep : ascii) (s : string) : JsString.split sep s <> [].
Proof.
  destruct s as [|c r]; simpl; [discriminate|].
  destruct (Ascii.eqb c sep); [discriminate|].
  destruct (JsString.split sep r); discriminate.
Qed.

(** Joining the pieces with the separator gives the text back. *)
Lemma join_split (sep : ascii) (s : string) :
  JsString.join sep (JsString.split sep s) = s.
Proof.
  induction s as [|c r IH]; simpl; [reflexivity|].
  destruct (Ascii.eqb_spec c sep) as [->|Hne].
  - pose proof (split_not_nil sep r) as Hnil.
    destruct (JsString.split sep r) as [|p rest] eqn:E; [congruence|].
    simpl. simpl in IH. rewrite IH. reflexivity.
  - pose proof (split_not_nil sep r) as Hnil.
    destruct (JsString.split sep r) as [|p rest] eqn:E; [congruence|].
    destruct rest as [|q rest']; simpl in *; rewrite IH; reflexivity.
Qed.

(** No piece contains the separator. *)
Lemma split_pieces_clean (sep : ascii) (s piece : string) :
  In piece (JsString.split sep s) -> JsString.contains sep piece = false.
Proof.
  revert piece. induction s as [|c r IH]; simpl; intros piece Hin.
  - destruct Hin as [<-|[]]. reflexivity.
  - destruct (Ascii.eqb_spec c sep) as [->|Hne].
    + destruct Hin as [<-|Hin]; [reflexivity|]. apply IH, Hin.
    + destruct (JsString.split sep r) as [|p rest] eqn:E.
      * destruct Hin as [<-|[]]. simpl.
        destruct (Ascii.eqb_spec c sep); [congruence|reflexivity].
      * destruct Hin as [<-|Hin].
        -- simpl. destruct (Ascii.eqb_spec c sep); [congruence|].
           simpl. apply IH. left. reflexivity.
        -- apply IH. right. exact Hin.
Qed.

Lemma substring_all (s : string) (n : nat) :
  String.length s <= n -> substring 0 n s = s.
Proof.
  revert n. induction s as [|c r IH]; intros n Hn.
  - destruct n; reflexivity.
  - destruct n as [|n]; simpl in *; [lia|]. rewrite IH; [reflexivity|lia].
Qed.

Lemma substring_suffix (s : string) (k : nat) :
  k <= String.length s ->
  exists pre, s = pre ++ substring k (String.length s - k) s /\
              String.length pre = k.
Proof.
  revert k. induction s as [|c r IH]; intros k Hk.
  - simpl in Hk. assert (k = 0) by lia. subst. exists "". split; reflexivity.
  - destruct k as [|k].
    + exists "". split; [|reflexivity].
      rewrite Nat.sub_0_r, substring_all; [reflexivity|lia].
    + simpl in Hk. destruct (IH k) as [pre [Heq Hlen]]; [lia|].
      exists (String c pre). simpl. split; [congruence|lia].
Qed.

Lemma substring_length_exact (s : string) (k n : nat) :
  k + n <= String.length s -> String.length (substring k n s) = n.
Proof.
  revert k n. induction s as [|c r IH]; intros k n H; simpl in H.
  - assert (k = 0) by lia. assert (n = 0) by lia. subst. reflexivity.
  - destruct k as [|k]; simpl.
    + destruct n as [|n]; [reflexivity|]. simpl. rewrite IH; [reflexivity|lia].
    + apply IH. lia.
Qed.

(** [sliceLast n s] is the suffix of [s] of length [n], or all of [s]
    when [s] has fewer than [n] characters. *)
Lemma sliceLast_suffix (n : nat) (s : string) :
  exists pre,
    s = pre ++ JsString.sliceLast n s /\
    String.length (JsString.sliceLast n s) = Nat.min n (String.length s).
Proof.
  unfold JsString.sliceLast.
  destruct (Nat.le_gt_cases n (String.length s)) as [Hle|Hgt].
  - destruct (substring_suffix s (String.length s - n)) as [pre [Heq _]];
      [lia|].
    replace (String.length s - (String.length s - n)) with n in Heq by lia.
    exists pre. split; [exact Heq|].
    rewrite substring_length_exact; lia.
  - replace (String.length s - n) with 0 by lia.
    rewrite substring_all by lia. exists "". split; [reflexivity|lia].
Qed.

Lemma sliceLast_truthy (n : nat) (s : string) :
  0 < n -> s <> "" -> JsString.truthy (JsString.sliceLast n s) = true.
Proof.
  intros Hn Hs. apply truthy_true. intros E.
  destruct (sliceLast_suffix n s) as [pre [_ Hlen]].
  rewrite E in Hlen. simpl in Hlen.
  destruct s; [congruence|]. simpl in Hlen. lia.
Qed.

(** [trim] returns the empty string exactly on strings made of white space
    only. *)
Lemma trimStart_spaces (s : string) :
  forallb JsString.is_space (list_ascii_of_string (JsString.trimStart s)) =
  forallb JsString.is_space (list_ascii_of_string s).
Proof.
  induction s as [|c r IH]; [reflexivity|].
  cbn [JsString.trimStart].
  destruct (JsString.is_space c) eqn:E.
  - rewrite IH. cbn [list_ascii_of_string forallb]. rewrite E. reflexivity.
  - reflexivity.
Qed.

Lemma trimEnd_empty_iff (s : string) :
  JsString.trimEnd s = "" <->
  forallb JsString.is_space (list_ascii_of_string s) = true.
Proof.
  induction s as [|c r IH]; [split; reflexivity|].
  cbn [JsString.trimEnd list_ascii_of_string forallb].
  destruct (JsString.trimEnd r) as [|d r'] eqn:E.
  - destruct (JsString.is_space c); cbn [andb].
    + split; [intros _; apply IH; reflexivity|reflexivity].
    + split; discriminate.
  - split; [discriminate|]. intros H.
    apply andb_true_iff in H. destruct H as [_ H].
    apply IH in H. discriminate.
Qed.

Lemma trim_empty_iff (s : string) :
  JsString.trim s = "" <->
  (forall c, In c (list_ascii_of_string s) -> JsString.is_space c = true).
Proof.
  unfold JsString.trim.
  rewrite trimEnd_empty_iff, trimStart_spaces, forallb_forall. reflexivity.
Qed.

(** ** Facts about the queries *)

Lemma limit_one_first {A : Type} (l : list A) :
  nth_error (firstn 1 l) 0 = nth_error l 0.
Proof. destruct l; reflexivity. Qed.

Lemma filter_first_find {A : Type} (f : A -> bool) (l : list A) :
  nth_error (filter f l) 0 = find f l.
Proof.
  induction l as [|x l IH]; simpl; [reflexivity|].
  destruct (f x); [reflexivity|exact IH].
Qed.

Lemma otp_record_find (p : string) (w : World) :
  otp_record p w = find (fun r => OtpRow.phone r =? p) (customerOtps w).
Proof.
  unfold otp_record, Query.otps_by_phone.
  rewrite limit_one_first. apply filter_first_find.
Qed.

Lemma customer_record_find (p : string) (w : World) :
  customer_record p w = find (fun c => Customer.phone c =? p) (customers w).
Proof.
  unfold customer_record, Query.customers_by_phone.
  rewrite limit_one_first. apply filter_first_find.
Qed.

Lemma find_map_same {A : Type} (f : A -> bool) (g : A -> A) (l : list A) :
  (forall x, f (g x) = f x) ->
  find f (map g l) = option_map g (find f l).
Proof.
  intros Hfg. induction l as [|x l IH]; simpl; [reflexivity|].
  rewrite Hfg. destruct (f x); [reflexivity|exact IH].
Qed.

Lemma find_app_found {A : Type} (f : A -> bool) (l l' : list A) (x : A) :
  find f l = Some x -> find f (l ++ l') = Some x.
Proof.
  induction l as [|y l IH]; simpl; [discriminate|].
  destruct (f y); [trivial|exact IH].
Qed.

Lemma find_app_missing {A : Type} (f : A -> bool) (l l' : list A) :
  find f l = None -> find f (l ++ l') = find f l'.
Proof.
  induction l as [|y l IH]; simpl; [reflexivity|].
  destruct (f y); [discriminate|exact IH].
Qed.

Lemma find_filter_out {A : Type} (f : A -> bool) (l : list A) :
  find f (filter (fun x => negb (f x)) l) = None.
Proof.
  induction l as [|x l IH]; simpl; [reflexivity|].
  destruct (f x) eqn:E; simpl; [exact IH|]. rewrite E. exact IH.
Qed.


Lemma filter_filter_length {A : Type} (f h : A -> bool) (l : list A) :
  List.length (filter f (filter h l)) <= List.length (filter f l).
Proof.
  induction l as [|x l IH]; simpl; [lia|].
  destruct (h x); simpl; destruct (f x); simpl; lia.
Qed.

Lemma existsb_false_filter {A : Type} (f : A -> bool) (l : list A) :
  existsb f l = false -> filter f l = [].
Proof.
  induction l as [|x l IH]; simpl; [reflexivity|].
  destruct (f x); simpl; [discriminate|exact IH].
Qed.

Lemma existsb_false_find {A : Type} (f : A -> bool) (l : list A) :
  existsb f l = false -> find f l = None.
Proof.
  induction l as [|x l IH]; simpl; [reflexivity|].
  destruct (f x); simpl; [discriminate|exact IH].
Qed.

Lemma existsb_true_find {A : Type} (f : A -> bool) (l : list A) :
  existsb f l = true -> exists x, find f l = Some x.
Proof.
  induction l as [|x l IH]; simpl; [discriminate|].
  destruct (f x); simpl; [eauto|exact IH].
Qed.

Lemma mark_used_returns (p : string) (w : World) (r : OtpRow.t) :
  otp_record p w = Some r -> OtpRow.used r = false ->
  exists ph rest, fst (Query.mark_used p w) = ph :: rest.
Proof.
  rewrite otp_record_find. intros Hfind Hused.
  apply find_some in Hfind. destruct Hfind as [Hin Hp].
  unfold Query.mark_used; simpl.
  assert (In r (filter
                  (fun r0 => (OtpRow.phone r0 =? p)
                             && Bool.eqb (OtpRow.used r0) false)
                  (customerOtps w))) as Hhit.
  { apply filter_In. split; [exact Hin|]. rewrite Hp, Hused. reflexivity. }
  destruct (filter _ (customerOtps w)) as [|x xs]; [destruct Hhit|].
  simpl. eauto.
Qed.

Lemma otp_record_mark_used (p : string) (w : World) (r : OtpRow.t) :
  otp_record p w = Some r -> OtpRow.used r = false ->
  otp_record p (snd (Query.mark_used p w)) = Some (consumed r).
Proof.
  rewrite !otp_record_find. intros Hfind Hused.
  unfold Query.mark_used; simpl.
  rewrite find_map_same.
  - rewrite Hfind. simpl.
    apply find_some in Hfind. destruct Hfind as [_ Hp].
    rewrite Hp, Hused. reflexivity.
  - intros x. destruct ((OtpRow.phone x =? p) && _); reflexivity.
Qed.

(** Once the update ran, running it again touches no row. *)
Lemma mark_used_again (p : string) (w : World) :
  fst (Query.mark_used p (snd (Query.mark_used p w))) = [].
Proof.
  unfold Query.mark_used; simpl.
  induction (customerOtps w) as [|x l IH]; simpl; [reflexivity|].
  destruct (OtpRow.phone x =? p) eqn:Hp; simpl.
  - destruct (OtpRow.used x) eqn:Hu; simpl.
    + rewrite Hp, Hu. simpl. exact IH.
    + rewrite Hp. simpl. exact IH.
  - rewrite Hp. simpl. exact IH.
Qed.

Lemma mark_used_noop (p : string) (w : World) (r : OtpRow.t) :
  otp_record p w = Some r -> fst (Query.mark_used p w) = [] ->
  OtpRow.used r = true.
Proof.
  intros Hrec Hnil. destruct (OtpRow.used r) eqn:Hu; [reflexivity|].
  destruct (mark_used_returns p w r Hrec Hu) as [ph [rest E]]. congruence.
Qed.

Lemma otp_record_deleted (p : string) (w : World) :
  otp_record p (Query.delete_otps p w) = None.
Proof.
  rewrite otp_record_find. unfold Query.delete_otps; simpl.
  apply find_filter_out.
Qed.

(** ** The verification transaction, branch by branch *)

Lemma expiry_test_false (r : OtpRow.t) (now : Z) :
  match OtpRow.expiresAt r with
  | Some e => (now >? e)%Z
  | None => false
  end = false <-> unexpired r now.
Proof.
  unfold unexpired. destruct (OtpRow.expiresAt r) as [e|].
  - split.
    + intros H e' [= <-]. lia.
    + intros H. specialize (H e eq_refl). lia.
  - split; [intros _ e; discriminate|reflexivity].
Qed.

Lemma expiry_test_true (r : OtpRow.t) (now : Z) :
  match OtpRow.expiresAt r with
  | Some e => (now >? e)%Z
  | None => false
  end = true <-> exists e, OtpRow.expiresAt r = Some e /\ (e < now)%Z.
Proof.
  destruct (OtpRow.expiresAt r) as [e|].
  - split.
    + intros H. exists e. split; [reflexivity|lia].
    + intros [e' [[= <-] H]]. lia.
  - split; [discriminate|]. intros [e [H _]]. discriminate.
Qed.

(** What each result of the transaction callback says about the store it
    started from and the store it leaves. *)
Lemma verifyOtpTx_cases (env : ProcessEnv) (p h : string) (now : Z)
    (uuid : string) (w : World) :
  match verifyOtpTx env p h now uuid w with
  | (Throw _, w') =>
      dispatched w' = dispatched w /\
      (exists r, otp_record p w = Some r /\ OtpRow.used r = false /\
                 unexpired r now /\ OtpRow.otpHash r = h) /\
      ((exists c, customer_record p w = Some c) /\
       customers_next_id w' = customers_next_id w \/
       customer_record p w = None /\
       customers_next_id w' = (customers_next_id w + 1)%Z)
  | (Return otp_invalid, w') =>
      w' = w /\
      (otp_record p w = None \/
       exists r, otp_record p w = Some r /\
                 (OtpRow.used r = true \/
                  (unexpired r now /\ OtpRow.otpHash r <> h)))
  | (Return otp_expired, w') =>
      w' = Query.delete_otps p w /\
      exists r e, otp_record p w = Some r /\ OtpRow.used r = false /\
                  OtpRow.expiresAt r = Some e /\ (e < now)%Z
  | (Return failed, _) => False
  | (Return token_failed, w') =>
      customerOtps w' = customerOtps (snd (Query.mark_used p w)) /\
      exists r, otp_record p w = Some r /\ OtpRow.used r = false
  | (Return (ok token customer), w') =>
      customerOtps w' = customerOtps (snd (Query.mark_used p w)) /\
      (exists r, otp_record p w = Some r /\ OtpRow.used r = false /\
                 unexpired r now /\ OtpRow.otpHash r = h) /\
      ((customer_record p w = Some customer /\ customers w' = customers w) \/
       (customer_record p w = None /\
        customers w' = (customers w ++ [customer])%list /\
        customer =
          {| Customer.id := customers_next_id w;
             Customer.name :=
               if JsString.truthy (JsString.sliceLast 4 p)
               then "Customer " ++ JsString.sliceLast 4 p
               else "Customer";
             Customer.phone := p;
             Customer.email := None;
             Customer.createdAt := now |}))
  end.
Proof.
  unfold verifyOtpTx. fold (otp_record p w).
  destruct (otp_record p w) as [r|] eqn:Hrec; [|split; auto].
  destruct (OtpRow.used r) eqn:Hused.
  { split; [reflexivity|]. right. exists r. auto. }
  destruct (match OtpRow.expiresAt r with
            | Some e => (now >? e)%Z
            | None => false
            end) eqn:Hexp.
  { split; [reflexivity|]. apply expiry_test_true in Hexp.
    destruct Hexp as [e [He Hlt]]. exists r, e. auto. }
  apply expiry_test_false in Hexp.
  destruct (String.eqb_spec (OtpRow.otpHash r) h) as [Hh|Hh]; cbn [negb].
  2:{ split; [reflexivity|]. right. exists r. auto. }
  destruct (mark_used_returns p w r Hrec Hused) as [ph [rest Hret]].
  destruct (Query.mark_used p w) as [usedRows tx1] eqn:Hmark.
  simpl in Hret. subst usedRows.
  fold (customer_record p tx1). cbn [nth_error].
  assert (customer_record p tx1 = customer_record p w) as Hcust.
  { rewrite !customer_record_find.
    replace tx1 with (snd (Query.mark_used p w))
    by (rewrite Hmark; reflexivity).
    reflexivity. }
  assert (customers tx1 = customers w /\
          customers_next_id tx1 = customers_next_id w /\
          dispatched tx1 = dispatched w) as [Hcs [Hnext Hdis]].
  { replace tx1 with (snd (Query.mark_used p w))
    by (rewrite Hmark; reflexivity).
    split; [|split]; reflexivity. }
  assert (exists r0, otp_record p w = Some r0 /\ OtpRow.used r0 = false /\
                     unexpired r0 now /\ OtpRow.otpHash r0 = h) as Hlive.
  { exists r. rewrite <- Hrec. auto. }
  rewrite Hcust.
  destruct (customer_record p w) as [c|] eqn:Hc.
  - destruct (requireJwtSecret env) as [secret|];
      [|split; [exact Hdis|]; split; [exists r; auto|];
        left; split; [exists c; reflexivity|exact Hnext]].
    destruct (jwt_sign jwt _ secret JWT_TTL now) as [token|];
      [|split; [exact Hdis|]; split; [exists r; auto|];
        left; split; [exists c; reflexivity|exact Hnext]].
    destruct (match jwt_decode jwt token with
              | Some decoded => claim_exp decoded
              | None => None
              end) as [e|].
    + destruct (e =? 0)%Z.
      * split; [reflexivity|]. exists r. auto.
      * split; [|split].
        -- unfold Query.insert_session.
           destruct (existsb _ (customerSessions tx1)); reflexivity.
        -- exists r. auto.
        -- left. split; [reflexivity|].
           unfold Query.insert_session.
           destruct (existsb _ (customerSessions tx1)); simpl; exact Hcs.
    + split; [reflexivity|]. exists r. auto.
  - unfold Query.insert_customer. simpl.
    destruct (requireJwtSecret env) as [secret|];
      [|split; [exact Hdis|]; split; [exists r; auto|];
        right; split; [reflexivity|]; cbn [customers_next_id];
        rewrite Hnext; reflexivity].
    destruct (jwt_sign jwt _ secret JWT_TTL now) as [token|];
      [|split; [exact Hdis|]; split; [exists r; auto|];
        right; split; [reflexivity|]; cbn [customers_next_id];
        rewrite Hnext; reflexivity].
    destruct (match jwt_decode jwt token with
              | Some decoded => claim_exp decoded
              | None => None
              end) as [e|].
    + destruct (e =? 0)%Z.
      * split; [reflexivity|]. exists r. auto.
      * split; [|split].
        -- unfold Query.insert_session.
           destruct (existsb _ _); reflexivity.
        -- exists r. auto.
        -- right. split; [reflexivity|]. rewrite <- Hcs, <- Hnext. split.
           ++ unfold Query.insert_session.
              destruct (existsb _ _); reflexivity.
           ++ reflexivity.
    + split; [reflexivity|]. exists r. auto.
Qed.

Lemma verifyOtpTx_absent (env : ProcessEnv) (p h : string) (now : Z)
    (uuid : string) (w : World) :
  otp_record p w = None ->
  verifyOtpTx env p h now uuid w = (Return otp_invalid, w).
Proof.
  intros Hrec. unfold verifyOtpTx. fold (otp_record p w).
  rewrite Hrec. reflexivity.
Qed.

Lemma verifyOtpTx_used (env : ProcessEnv) (p h : string) (now : Z)
    (uuid : string) (w : World) (r : OtpRow.t) :
  otp_record p w = Some r -> OtpRow.used r = true ->
  verifyOtpTx env p h now uuid w = (Return otp_invalid, w).
Proof.
  intros Hrec Hused. unfold verifyOtpTx. fold (otp_record p w).
  rewrite Hrec, Hused. reflexivity.
Qed.

Lemma verifyOtpTx_expired (env : ProcessEnv) (p h : string) (now : Z)
    (uuid : string) (w : World) (r : OtpRow.t) (e : Z) :
  otp_record p w = Some r -> OtpRow.used r = false ->
  OtpRow.expiresAt r = Some e -> (e < now)%Z ->
  verifyOtpTx env p h now uuid w =
    (Return otp_expired, Query.delete_otps p w).
Proof.
  intros Hrec Hused He Hlt. unfold verifyOtpTx. fold (otp_record p w).
  rewrite Hrec, Hused, He.
  replace (now >? e)%Z with true by lia. reflexivity.
Qed.

Lemma verifyOtpTx_mismatch (env : ProcessEnv) (p h : string) (now : Z)
    (uuid : string) (w : World) (r : OtpRow.t) :
  otp_record p w = Some r -> OtpRow.used r = false ->
  unexpired r now -> OtpRow.otpHash r <> h ->
  verifyOtpTx env p h now uuid w = (Return otp_invalid, w).
Proof.
  intros Hrec Hused Hexp Hh. unfold verifyOtpTx. fold (otp_record p w).
  rewrite Hrec, Hused. apply expiry_test_false in Hexp. rewrite Hexp.
  destruct (String.eqb_spec (OtpRow.otpHash r) h); [contradiction|].
  reflexivity.
Qed.

(** A live record, a configured secret and a working token library make
    the transaction end in [ok]. *)
Lemma verifyOtpTx_live (env : ProcessEnv) (p h : string) (now : Z)
    (uuid : string) (w : World) (r : OtpRow.t) (secret : string) :
  otp_record p w = Some r -> OtpRow.used r = false ->
  unexpired r now -> OtpRow.otpHash r = h ->
  requireJwtSecret env = Return secret ->
  sign_yields_exp ->
  exists token customer w',
    verifyOtpTx env p h now uuid w = (Return (ok token customer), w').
Proof.
  intros Hrec Hused Hexp Hh Hsecret Hjwt.
  unfold verifyOtpTx. fold (otp_record p w).
  rewrite Hrec, Hused. apply expiry_test_false in Hexp. rewrite Hexp.
  destruct (String.eqb_spec (OtpRow.otpHash r) h); [|contradiction].
  cbn [negb].
  destruct (mark_used_returns p w r Hrec Hused) as [ph [rest Hret]].
  destruct (Query.mark_used p w) as [usedRows tx1] eqn:Hmark.
  simpl in Hret. subst usedRows.
  fold (customer_record p tx1). cbn [nth_error].
  assert (forall (c : Customer.t) (tx2 : World),
            exists token customer w',
              match requireJwtSecret env with
              | Throw e0 => (Throw e0, tx2)
              | Return secret0 =>
                  match jwt_sign jwt
                          {| sub := Customer.id c;
                             jwt_phone := Customer.phone c;
                             jti := uuid; typ := "customer" |}
                          secret0 JWT_TTL now with
                  | Throw e0 => (Throw e0, tx2)
                  | Return token0 =>
                      match match jwt_decode jwt token0 with
                            | Some decoded => claim_exp decoded
                            | None => None
                            end with
                      | None => (Return token_failed, tx2)
                      | Some e0 =>
                          if (e0 =? 0)%Z then (Return token_failed, tx2)
                          else (Return (ok token0 c),
                                Query.insert_session
                                  {| Session.customerId := Customer.id c;
                                     Session.tokenHash := tokenToHash token0;
                                     Session.expiresAt := (e0 * 1000)%Z |}
                                  tx2)
                      end
                  end
              end = (Return (ok token customer), w')) as Hissue.
  { intros c tx2. rewrite Hsecret.
    destruct (Hjwt {| sub := Customer.id c; jwt_phone := Customer.phone c;
                      jti := uuid; typ := "customer" |} secret now)
      as [token [decoded [e0 [Hsign [Hdec [Hexp0 Hnz]]]]]].
    rewrite Hsign, Hdec, Hexp0.
    destruct (Z.eqb_spec e0 0); [contradiction|]. eauto. }
  destruct (customer_record p tx1) as [c|].
  - apply Hissue.
  - unfold Query.insert_customer. cbn [nth_error]. apply Hissue.
Qed.

(** Past input validation, [verifyOtp] is the transaction followed by the
    translation of its result. *)
Lemma verifyOtp_validated (env : ProcessEnv) (req : Request) (now : Z)
    (uuid : string) (w : World) :
  normalizePhone (body_phone req) <> "" -> submitted_otp req <> "" ->
  verifyOtp env req now uuid w =
    match verifyOtpTx env (normalizePhone (body_phone req))
            (otpToHash (normalizePhone (body_phone req)) (submitted_otp req))
            now uuid w with
    | (Throw err, w') => (Next err, Query.rolled_back w w')
    | (Return otp_expired, w') =>
        (Responded 401 (JsonError "OTP_EXPIRED"), w')
    | (Return otp_invalid, w') =>
        (Responded 401 (JsonError "OTP_INVALID"), w')
    | (Return token_failed, w') =>
        (Responded 500 (JsonError "TOKEN_CREATE_FAILED"), w')
    | (Return failed, w') => (Responded 500 (JsonError "LOGIN_FAILED"), w')
    | (Return (ok token customer), w') =>
        (Responded 200 (JsonLogin token customer), w')
    end.
Proof.
  intros Hp Ho. unfold verifyOtp. fold (submitted_otp req).
  apply truthy_true in Hp. apply truthy_true in Ho. rewrite Hp, Ho.
  cbn [negb orb]. unfold Query.transaction.
  destruct (verifyOtpTx _ _ _ _ _ _) as [[[]|] w']; reflexivity.
Qed.

Lemma otp_record_same_table (p : string) (w w' : World) :
  customerOtps w' = customerOtps w -> otp_record p w' = otp_record p w.
Proof. intros H. rewrite !otp_record_find, H. reflexivity. Qed.

Lemma mark_used_same_table (p : string) (w w' : World) :
  customerOtps w' = customerOtps w ->
  fst (Query.mark_used p w') = fst (Query.mark_used p w).
Proof. intros H. unfold Query.mark_used. simpl. rewrite H. reflexivity. Qed.

Lemma verifyOtp_blank (env : ProcessEnv) (req : Request) (now : Z)
    (uuid : string) (w : World) :
  normalizePhone (body_phone req) = "" \/ submitted_otp req = "" ->
  verifyOtp env req now uuid w =
    (Responded 400 (JsonError "PHONE_AND_OTP_REQUIRED"), w).
Proof.
  intros H. unfold verifyOtp. fold (submitted_otp req).
  destruct H as [H|H]; apply truthy_false in H; rewrite H;
    [|rewrite orb_true_r]; reflexivity.
Qed.

Lemma verifyOtp_after_use (env : ProcessEnv) (req : Request) (now : Z)
    (uuid : string) (w : World) (r : OtpRow.t) :
  normalizePhone (body_phone req) <> "" -> submitted_otp req <> "" ->
  otp_record (normalizePhone (body_phone req)) w = Some r ->
  OtpRow.used r = true ->
  verifyOtp env req now uuid w =
    (Responded 401 (JsonError "OTP_INVALID"), w).
Proof.
  intros Hp Ho Hrec Hused.
  rewrite verifyOtp_validated by assumption.
  rewrite (verifyOtpTx_used _ _ _ _ _ _ r) by assumption. reflexivity.
Qed.

(** ** One-time use *)

(** C1. When the OTP record of the phone is live (unused, unexpired, its
    hash matching the submitted code), the signing secret is configured
    and the token library issues tokens with an expiry, the first
    [verifyOtp] answers 200 with a token, the record is then marked used,
    the conditional update predicated on [used = false] would touch no
    row, and every later [verifyOtp] with the same phone and code, at any
    time, answers 401 OTP_INVALID and leaves the store as it is. *)
Theorem otp_consumed_at_most_once (env : ProcessEnv) (req : Request)
    (now : Z) (uuid : string) (w : World) (phone otp : string)
    (r : OtpRow.t) (secret : string) :
  normalizePhone (body_phone req) = phone -> submitted_otp req = otp ->
  phone <> "" -> otp <> "" ->
  otp_record phone w = Some r ->
  OtpRow.used r = false -> unexpired r now ->
  OtpRow.otpHash r = otpToHash phone otp ->
  requireJwtSecret env = Return secret ->
  sign_yields_exp ->
  exists token customer w1,
    verifyOtp env req now uuid w =
      (Responded 200 (JsonLogin token customer), w1) /\
    otp_record phone w1 = Some (consumed r) /\
    fst (Query.mark_used phone w1) = [] /\
    (forall env' now' uuid',
        verifyOtp env' req now' uuid' w1 =
          (Responded 401 (JsonError "OTP_INVALID"), w1)) /\
    (forall env' calls,
        verifyOtp_replay env' req calls w1 =
          (map (fun _ => Responded 401 (JsonError "OTP_INVALID")) calls, w1)).
Proof.
  intros Hphone Hotp Hp Ho Hrec Hused Hexp Hhash Hsecret Hjwt.
  destruct (verifyOtpTx_live env phone (otpToHash phone otp) now uuid w r
              secret Hrec Hused Hexp Hhash Hsecret Hjwt)
    as [token [customer [w1 Htx]]].
  pose proof (verifyOtpTx_cases env phone (otpToHash phone otp) now uuid w)
    as Hcases.
  rewrite Htx in Hcases. destruct Hcases as [Htable _].
  assert (otp_record phone w1 = Some (consumed r)) as Hrec1.
  { rewrite (otp_record_same_table phone _ w1 Htable).
    apply otp_record_mark_used; assumption. }
  assert (forall env' now' uuid',
             verifyOtp env' req now' uuid' w1 =
               (Responded 401 (JsonError "OTP_INVALID"), w1)) as Hagain.
  { intros env' now' uuid'.
    apply (verifyOtp_after_use env' req now' uuid' w1 (consumed r));
      rewrite ?Hphone, ?Hotp; auto. }
  exists token, customer, w1. repeat split.
  - rewrite verifyOtp_validated by (rewrite ?Hphone, ?Hotp; assumption).
    rewrite Hphone, Hotp, Htx. reflexivity.
  - exact Hrec1.
  - rewrite (mark_used_same_table phone _ w1 Htable).
    apply mark_used_again.
  - exact Hagain.
  - intros env' calls. induction calls as [|[now' uuid'] rest IH].
    + reflexivity.
    + simpl. rewrite Hagain, IH. reflexivity.
Qed.

(** ** Failure branches and the used flag *)

Lemma unchanged_marks_nothing (p : string) (w : World) : ~ marks_used p w w.
Proof.
  intros [r [r' [Hr [Hu [Hr' Hu']]]]]. congruence.
Qed.

(** C2, amended. A [verifyOtp] that answers OTP_INVALID or OTP_EXPIRED
    does not take the record of the phone from unused to used: the first
    leaves the store unchanged and the second deletes the record.  A
    [verifyOtp] that answers TOKEN_CREATE_FAILED returns from the
    transaction after the conditional update, the transaction commits,
    and the record is left marked used.  LOGIN_FAILED is not answered,
    since the store returns the row it inserts. *)
Theorem failed_verification_and_used_flag (env : ProcessEnv) (req : Request)
    (now : Z) (uuid : string) (w : World) :
  (fst (verifyOtp env req now uuid w)
     = Responded 401 (JsonError "OTP_INVALID") ->
   snd (verifyOtp env req now uuid w) = w /\
   ~ marks_used (normalizePhone (body_phone req)) w
       (snd (verifyOtp env req now uuid w))) /\
  (fst (verifyOtp env req now uuid w)
     = Responded 401 (JsonError "OTP_EXPIRED") ->
   otp_record (normalizePhone (body_phone req))
     (snd (verifyOtp env req now uuid w)) = None /\
   ~ marks_used (normalizePhone (body_phone req)) w
       (snd (verifyOtp env req now uuid w))) /\
  (fst (verifyOtp env req now uuid w)
     = Responded 500 (JsonError "TOKEN_CREATE_FAILED") ->
   marks_used (normalizePhone (body_phone req)) w
     (snd (verifyOtp env req now uuid w))) /\
  fst (verifyOtp env req now uuid w)
    <> Responded 500 (JsonError "LOGIN_FAILED").
Proof.
  destruct (string_dec (normalizePhone (body_phone req)) "") as [Hp|Hp].
  { rewrite verifyOtp_blank by auto. simpl.
    repeat split; intros; discriminate. }
  destruct (string_dec (submitted_otp req) "") as [Ho|Ho].
  { rewrite verifyOtp_blank by auto. simpl.
    repeat split; intros; discriminate. }
  rewrite verifyOtp_validated by assumption.
  pose proof (verifyOtpTx_cases env (normalizePhone (body_phone req))
                (otpToHash (normalizePhone (body_phone req))
                   (submitted_otp req)) now uuid w) as Hcases.
  destruct (verifyOtpTx _ _ _ _ _ _) as [[[| | | |token customer]|] w'];
    simpl.
  - destruct Hcases as [-> _].
    split; [intros _; split; [reflexivity|apply unchanged_marks_nothing]|].
    split; [discriminate|]. split; discriminate.
  - destruct Hcases as [-> _].
    split; [discriminate|].
    split; [|split; discriminate].
    intros _. split; [apply otp_record_deleted|].
    intros [r [r' [_ [_ [Hr' _]]]]].
    rewrite otp_record_deleted in Hr'. discriminate.
  - destruct Hcases.
  - destruct Hcases as [Htable [r [Hr Hu]]].
    split; [discriminate|]. split; [discriminate|].
    split; [|discriminate]. intros _.
    exists r, (consumed r).
    split; [exact Hr|]. split; [exact Hu|]. split; [|reflexivity].
    rewrite (otp_record_same_table _ _ w' Htable).
    apply otp_record_mark_used; assumption.
  - split; [discriminate|]. split; [discriminate|]. split; discriminate.
  - split; [discriminate|]. split; [discriminate|]. split; discriminate.
Qed.

(** ** Expired codes *)

(** C4. When the record of the phone exists, is unused and expired before
    [now], a [verifyOtp] with any non-blank code answers 401 OTP_EXPIRED
    and deletes the record, whatever the stored hash is; no record is
    left for the phone, and any further verification for it answers 401
    OTP_INVALID. *)
Theorem expired_otp_is_deleted (env : ProcessEnv) (req : Request)
    (now : Z) (uuid : string) (w : World) (phone : string)
    (r : OtpRow.t) (e : Z) :
  normalizePhone (body_phone req) = phone ->
  phone <> "" -> submitted_otp req <> "" ->
  otp_record phone w = Some r ->
  OtpRow.used r = false ->
  OtpRow.expiresAt r = Some e -> (e < now)%Z ->
  verifyOtp env req now uuid w =
    (Responded 401 (JsonError "OTP_EXPIRED"), Query.delete_otps phone w) /\
  (forall row, In row (customerOtps (Query.delete_otps phone w)) ->
               OtpRow.phone row <> phone) /\
  (forall env' req' now' uuid',
      normalizePhone (body_phone req') = phone ->
      submitted_otp req' <> "" ->
      verifyOtp env' req' now' uuid' (Query.delete_otps phone w) =
        (Responded 401 (JsonError "OTP_INVALID"),
         Query.delete_otps phone w)).
Proof.
  intros Hphone Hp Ho Hrec Hused He Hlt. repeat split.
  - rewrite verifyOtp_validated by (rewrite ?Hphone; assumption).
    rewrite Hphone.
    rewrite (verifyOtpTx_expired _ _ _ _ _ _ r e) by assumption.
    reflexivity.
  - intros row Hin Heq. unfold Query.delete_otps in Hin. simpl in Hin.
    apply filter_In in Hin. destruct Hin as [_ Hne].
    rewrite Heq, String.eqb_refl in Hne. discriminate.
  - intros env' req' now' uuid' Hphone' Ho'.
    rewrite verifyOtp_validated by (rewrite ?Hphone'; assumption).
    rewrite Hphone'.
    rewrite verifyOtpTx_absent by apply otp_record_deleted.
    reflexivity.
Qed.

(** ** Issuance *)

Lemma whitelisted_iff (p : string) (w : World) :
  p <> "" ->
  (isPhoneWhitelistedRow (nth_error (Query.whitelist_by_phone p w) 0) = true
   <-> In p (phoneWhitelist w)).
Proof.
  intros Hp. unfold Query.whitelist_by_phone.
  rewrite limit_one_first, filter_first_find.
  destruct (find (fun row => row =? p) (phoneWhitelist w)) as [x|] eqn:E.
  - apply find_some in E. destruct E as [Hin Heq].
    apply String.eqb_eq in Heq. subst x. simpl.
    split; [intros _; exact Hin|intros _; apply truthy_true; exact Hp].
  - simpl. split; [discriminate|]. intros Hin.
    pose proof (find_none _ _ E p Hin) as Hne. cbv beta in Hne.
    rewrite String.eqb_refl in Hne. discriminate.
Qed.

Lemma sendOtp_blank (req : Request) (now : Z) (otp : string) (w : World) :
  normalizePhone (body_phone req) = "" ->
  sendOtp req now otp w = (Responded 400 (JsonError "PHONE_REQUIRED"), w).
Proof.
  intros H. unfold sendOtp. apply truthy_false in H. rewrite H. reflexivity.
Qed.

Lemma sendOtp_not_whitelisted (req : Request) (now : Z) (otp : string)
    (w : World) :
  normalizePhone (body_phone req) <> "" ->
  ~ In (normalizePhone (body_phone req)) (phoneWhitelist w) ->
  sendOtp req now otp w =
    (Responded 403 (JsonError "PHONE_NOT_WHITELISTED"), w).
Proof.
  intros Hp Hwl. unfold sendOtp.
  pose proof (whitelisted_iff _ w Hp) as Hiff.
  apply truthy_true in Hp. rewrite Hp. cbn [negb].
  destruct (isPhoneWhitelistedRow _); [|reflexivity].
  exfalso. apply Hwl, Hiff. reflexivity.
Qed.

Lemma sendOtp_whitelisted (req : Request) (now : Z) (otp : string)
    (w : World) :
  normalizePhone (body_phone req) <> "" ->
  In (normalizePhone (body_phone req)) (phoneWhitelist w) ->
  sendOtp req now otp w =
    (Responded 200 JsonOk,
     with_dispatched
       (dispatched w ++ [(normalizePhone (body_phone req), otp)])
       (Query.upsert_otp
          {| OtpRow.phone := normalizePhone (body_phone req);
             OtpRow.otpHash := otpToHash (normalizePhone (body_phone req)) otp;
             OtpRow.expiresAt := Some (now + OTP_TTL_MS)%Z;
             OtpRow.used := false |} w)).
Proof.
  intros Hp Hwl. unfold sendOtp.
  apply (whitelisted_iff _ w Hp) in Hwl.
  apply truthy_true in Hp. rewrite Hp, Hwl. cbn [negb].
  f_equal. unfold with_dispatched, Query.upsert_otp.
  destruct (existsb _ (customerOtps w)); reflexivity.
Qed.






(** The OTP table after a verification is the table before, the table
    with the record of the phone deleted, or the table with it consumed. *)
Lemma verifyOtp_table (env : ProcessEnv) (req : Request) (now : Z)
    (uuid : string) (w : World) :
  customerOtps (snd (verifyOtp env req now uuid w)) = customerOtps w \/
  customerOtps (snd (verifyOtp env req now uuid w)) =
    customerOtps (Query.delete_otps (normalizePhone (body_phone req)) w) \/
  customerOtps (snd (verifyOtp env req now uuid w)) =
    customerOtps (snd (Query.mark_used (normalizePhone (body_phone req)) w)).
Proof.
  destruct (string_dec (normalizePhone (body_phone req)) "") as [Hp|Hp].
  { rewrite verifyOtp_blank by auto. auto. }
  destruct (string_dec (submitted_otp req) "") as [Ho|Ho].
  { rewrite verifyOtp_blank by auto. auto. }
  rewrite verifyOtp_validated by assumption.
  pose proof (verifyOtpTx_cases env (normalizePhone (body_phone req))
                (otpToHash (normalizePhone (body_phone req))
                   (submitted_otp req)) now uuid w) as Hcases.
  destruct (verifyOtpTx _ _ _ _ _ _) as [[[| | | |token customer]|] w'];
    simpl.
  - destruct Hcases as [-> _]. auto.
  - destruct Hcases as [-> _]. auto.
  - destruct Hcases.
  - destruct Hcases as [-> _]. auto.
  - destruct Hcases as [-> _]. auto.
  - auto.
Qed.

Lemma logout_table (env : ProcessEnv) (req : Request) (now : Z) (w : World) :
  customerOtps (snd (logout env req now w)) = customerOtps w /\
  customers (snd (logout env req now w)) = customers w.
Proof.
  unfold logout.
  destruct (extractBearerToken req); [|auto].
  destruct (requireJwtSecret env); [|auto].
  destruct (jwt_verify jwt _ _ _) as [payload|]; [|auto].
  destruct (negb _); auto.
Qed.




(** C5. A phone is blank when it is absent or made of white space only.
    A [sendOtp] whose phone is blank answers 400 PHONE_REQUIRED, and one
    whose non-blank phone has no whitelist row answers 403
    PHONE_NOT_WHITELISTED; in both cases the store and the log of
    dispatched codes are what they were. *)
Theorem sendOtp_rejects_without_effect (req : Request) (now : Z)
    (otp : string) (w : World) :
  (normalizePhone (body_phone req) = "" <->
   match body_phone req with
   | None => True
   | Some s =>
       forall c, In c (list_ascii_of_string s) -> JsString.is_space c = true
   end) /\
  (normalizePhone (body_phone req) = "" ->
   sendOtp req now otp w = (Responded 400 (JsonError "PHONE_REQUIRED"), w)) /\
  (normalizePhone (body_phone req) <> "" ->
   ~ In (normalizePhone (body_phone req)) (phoneWhitelist w) ->
   sendOtp req now otp w =
     (Responded 403 (JsonError "PHONE_NOT_WHITELISTED"), w)).
Proof.
  split; [|split].
  - unfold normalizePhone. rewrite or_default_empty.
    destruct (body_phone req) as [s|].
    + apply trim_empty_iff.
    + split; [trivial|reflexivity].
  - apply sendOtp_blank.
  - apply sendOtp_not_whitelisted.
Qed.

(** ** Customer provisioning *)

Lemma customer_record_none (p : string) (w : World) :
  customer_record p w = None <->
  (forall c, In c (customers w) -> Customer.phone c <> p).
Proof.
  rewrite customer_record_find. split.
  - intros Hnone c Hin Heq.
    pose proof (find_none _ _ Hnone c Hin) as Hne. cbv beta in Hne.
    rewrite Heq, String.eqb_refl in Hne. discriminate.
  - intros Hall.
    destruct (find _ (customers w)) as [c|] eqn:E; [|reflexivity].
    apply find_some in E. destruct E as [Hin Heq].
    apply String.eqb_eq in Heq. exfalso. exact (Hall c Hin Heq).
Qed.

Lemma customer_record_some (p : string) (w : World) (c : Customer.t) :
  customer_record p w = Some c ->
  In c (customers w) /\ Customer.phone c = p.
Proof.
  rewrite customer_record_find. intros E.
  apply find_some in E. destruct E as [Hin Heq].
  apply String.eqb_eq in Heq. auto.
Qed.

(** Customers are only ever appended, whatever the transaction returns. *)
Lemma verifyOtpTx_customers_grow (env : ProcessEnv) (p h : string)
    (now : Z) (uuid : string) (w : World) :
  match verifyOtpTx env p h now uuid w with
  | (Return _, w') =>
      customers w' = customers w \/
      (customer_record p w = None /\
       exists c, customers w' = (customers w ++ [c])%list /\
                 Customer.phone c = p)
  | (Throw _, _) => True
  end.
Proof.
  unfold verifyOtpTx.
  destruct (nth_error (Query.otps_by_phone p w) 0) as [r|]; [|auto].
  destruct (OtpRow.used r); [auto|].
  destruct (match OtpRow.expiresAt r with
            | Some e => (now >? e)%Z
            | None => false
            end); [auto|].
  destruct (negb _); [auto|].
  destruct (Query.mark_used p w) as [usedRows tx1] eqn:Hmark.
  assert (customers tx1 = customers w) as Hcs.
  { replace tx1 with (snd (Query.mark_used p w))
    by (rewrite Hmark; reflexivity).
    reflexivity. }
  assert (customer_record p tx1 = customer_record p w) as Hcust.
  { rewrite !customer_record_find, Hcs. reflexivity. }
  destruct (nth_error usedRows 0); [|auto].
  fold (customer_record p tx1). rewrite Hcust.
  destruct (customer_record p w) as [c|] eqn:Hc.
  - destruct (requireJwtSecret env) as [secret|]; [|exact I].
    destruct (jwt_sign jwt _ secret JWT_TTL now) as [token|]; [|exact I].
    destruct (match jwt_decode jwt token with
              | Some decoded => claim_exp decoded
              | None => None
              end) as [e|]; [|auto].
    destruct (e =? 0)%Z; [auto|]. left.
    unfold Query.insert_session.
    destruct (existsb _ (customerSessions tx1)); simpl; exact Hcs.
  - unfold Query.insert_customer. cbn [nth_error].
    destruct (requireJwtSecret env) as [secret|]; [|exact I].
    destruct (jwt_sign jwt _ secret JWT_TTL now) as [token|]; [|exact I].
    destruct (match jwt_decode jwt token with
              | Some decoded => claim_exp decoded
              | None => None
              end) as [e|].
    + destruct (e =? 0)%Z.
      * right. split; [reflexivity|]. eexists. simpl. rewrite Hcs.
        split; reflexivity.
      * right. split; [reflexivity|]. eexists.
        unfold Query.insert_session.
        destruct (existsb _ _); simpl; rewrite Hcs; split; reflexivity.
    + right. split; [reflexivity|]. eexists. simpl. rewrite Hcs.
      split; reflexivity.
Qed.

Lemma step_keeps_customer (w w' : World) (p : string) (c : Customer.t) :
  step w w' -> customer_record p w = Some c -> customer_record p w' = Some c.
Proof.
  intros Hstep Hc. rewrite customer_record_find in *.
  destruct Hstep as [req now otp|env req now uuid|env req now].
  - destruct (string_dec (normalizePhone (body_phone req)) "") as [Hp|Hp].
    { rewrite sendOtp_blank by assumption. exact Hc. }
    destruct (in_dec string_dec (normalizePhone (body_phone req))
                (phoneWhitelist w)) as [Hwl|Hwl].
    + rewrite sendOtp_whitelisted by assumption. simpl.
      unfold Query.upsert_otp.
      destruct (existsb _ (customerOtps w)); exact Hc.
    + rewrite sendOtp_not_whitelisted by assumption. exact Hc.
  - destruct (string_dec (normalizePhone (body_phone req)) "") as [Hp|Hp].
    { rewrite verifyOtp_blank by auto. exact Hc. }
    destruct (string_dec (submitted_otp req) "") as [Ho|Ho].
    { rewrite verifyOtp_blank by auto. exact Hc. }
    rewrite verifyOtp_validated by assumption.
    pose proof (verifyOtpTx_customers_grow env
                  (normalizePhone (body_phone req))
                  (otpToHash (normalizePhone (body_phone req))
                     (submitted_otp req)) now uuid w) as Hgrow.
    destruct (verifyOtpTx _ _ _ _ _ _) as [[res|] w']; [|exact Hc].
    assert (find (fun c0 => Customer.phone c0 =? p) (customers w') = Some c)
      as Hkeep.
    { destruct Hgrow as [->|[_ [c' [-> _]]]];
        [exact Hc|apply find_app_found, Hc]. }
    destruct res; exact Hkeep.
  - destruct (logout_table env req now w) as [_ ->]. exact Hc.
Qed.

Lemma reachable_keeps_customer (w w' : World) (p : string) (c : Customer.t) :
  reachable w w' -> customer_record p w = Some c ->
  customer_record p w' = Some c.
Proof.
  intros Hreach Hc. induction Hreach as [|w1 w2 _ IH Hstep];
    [exact Hc|]. apply (step_keeps_customer w1 w2 p c Hstep IH).
Qed.

(** What a 200 answer of [verifyOtp] says about the transaction. *)
Lemma verifyOtp_ok_inv (env : ProcessEnv) (req : Request) (now : Z)
    (uuid : string) (w w' : World) (token : string) (customer : Customer.t) :
  verifyOtp env req now uuid w =
    (Responded 200 (JsonLogin token customer), w') ->
  normalizePhone (body_phone req) <> "" /\
  verifyOtpTx env (normalizePhone (body_phone req))
    (otpToHash (normalizePhone (body_phone req)) (submitted_otp req))
    now uuid w = (Return (ok token customer), w').
Proof.
  intros H.
  destruct (string_dec (normalizePhone (body_phone req)) "") as [Hp|Hp].
  { rewrite verifyOtp_blank in H by auto. discriminate. }
  destruct (string_dec (submitted_otp req) "") as [Ho|Ho].
  { rewrite verifyOtp_blank in H by auto. discriminate. }
  rewrite verifyOtp_validated in H by assumption.
  split; [exact Hp|].
  destruct (verifyOtpTx _ _ _ _ _ _) as [[[| | | |token' customer']|] w1];
    try discriminate.
  injection H as -> -> ->. reflexivity.
Qed.

(** What a 200 answer of [verifyOtp] says about the customers: without a
    row for the phone one row was appended and it is the returned
    customer; with a row nothing was added and the returned customer is
    that row; later 200 answers for the phone carry the same id. *)
Lemma verifyOtp_ok_customer (env : ProcessEnv) (req : Request)
    (now : Z) (uuid : string) (w w' : World) (phone token : string)
    (customer : Customer.t) :
  normalizePhone (body_phone req) = phone ->
  verifyOtp env req now uuid w =
    (Responded 200 (JsonLogin token customer), w') ->
  ((forall c, In c (customers w) -> Customer.phone c <> phone) ->
   customers w' = (customers w ++ [customer])%list /\
   Customer.phone customer = phone /\
   Customer.email customer = None /\
   Customer.name customer = "Customer " ++ JsString.sliceLast 4 phone /\
   exists pre,
     phone = pre ++ JsString.sliceLast 4 phone /\
     String.length (JsString.sliceLast 4 phone)
       = Nat.min 4 (String.length phone)) /\
  ((exists c, In c (customers w) /\ Customer.phone c = phone) ->
   customers w' = customers w /\
   In customer (customers w) /\ Customer.phone customer = phone) /\
  (forall w'' env2 req2 now2 uuid2 token2 customer2 w3,
      reachable w' w'' ->
      normalizePhone (body_phone req2) = phone ->
      verifyOtp env2 req2 now2 uuid2 w'' =
        (Responded 200 (JsonLogin token2 customer2), w3) ->
      Customer.id customer2 = Customer.id customer /\
      customers w3 = customers w'').
Proof.
  intros Hphone Hok.
  destruct (verifyOtp_ok_inv _ _ _ _ _ _ _ _ Hok) as [Hp Htx].
  rewrite Hphone in Hp, Htx.
  pose proof (verifyOtpTx_cases env phone
                (otpToHash phone (submitted_otp req)) now uuid w) as Hcases.
  rewrite Htx in Hcases. destruct Hcases as [_ [_ Hcust]].
  assert (customer_record phone w' = Some customer) as Hafter.
  { rewrite customer_record_find.
    destruct Hcust as [[Hc ->]|[Hc [-> Hnew]]].
    - rewrite <- customer_record_find. exact Hc.
    - rewrite customer_record_find in Hc.
      rewrite (find_app_missing _ _ _ Hc). simpl.
      rewrite Hnew. simpl. rewrite String.eqb_refl. reflexivity. }
  split; [|split].
  - intros Hnone. apply (proj2 (customer_record_none _ _)) in Hnone.
    destruct Hcust as [[Hc _]|[_ [Hcs Hnew]]]; [congruence|].
    split; [exact Hcs|]. rewrite Hnew. simpl.
    rewrite sliceLast_truthy by (auto; lia).
    repeat split. apply sliceLast_suffix.
  - intros [c [Hin Heq]].
    destruct Hcust as [[Hc Hcs]|[Hc _]].
    + split; [exact Hcs|]. apply customer_record_some, Hc.
    + exfalso. exact (proj1 (customer_record_none _ _) Hc c Hin Heq).
  - intros w'' env2 req2 now2 uuid2 token2 customer2 w3 Hreach Hphone2 Hok2.
    pose proof (reachable_keeps_customer w' w'' phone customer Hreach Hafter)
      as Hlater.
    destruct (verifyOtp_ok_inv _ _ _ _ _ _ _ _ Hok2) as [_ Htx2].
    rewrite Hphone2 in Htx2.
    pose proof (verifyOtpTx_cases env2 phone
                  (otpToHash phone (submitted_otp req2)) now2 uuid2 w'')
      as Hcases2.
    rewrite Htx2 in Hcases2. destruct Hcases2 as [_ [_ Hcust2]].
    destruct Hcust2 as [[Hc2 Hcs2]|[Hc2 _]]; [|congruence].
    split; [congruence|exact Hcs2].
Qed.

(** C6. Let the record of a phone be live (unused, unexpired, its hash
    matching the submitted code), the signing secret configured and the
    token library issue tokens with an expiry.  Then [verifyOtp] answers
    200 with a customer of that phone.  If no Customer row had the phone,
    exactly one row is appended, it is the returned customer, it takes
    the next id of the store, its name is "Customer " followed by the
    last four characters of the phone (all of them when the phone is
    shorter) and its email is null.  If a Customer row had the phone, no
    row is added and the returned customer is that existing row.  In
    every store reached afterwards, a verification of a live code for the
    phone answers 200 with the same customer and adds no row, and every
    200 answer for the phone carries that customer, hence the same id. *)
Theorem verifyOtp_provisions_customer (env : ProcessEnv) (req : Request)
    (now : Z) (uuid : string) (w : World) (phone : string)
    (r : OtpRow.t) (secret : string) :
  normalizePhone (body_phone req) = phone ->
  phone <> "" -> submitted_otp req <> "" ->
  otp_record phone w = Some r ->
  OtpRow.used r = false -> unexpired r now ->
  OtpRow.otpHash r = otpToHash phone (submitted_otp req) ->
  requireJwtSecret env = Return secret ->
  sign_yields_exp ->
  exists token customer w',
    verifyOtp env req now uuid w =
      (Responded 200 (JsonLogin token customer), w') /\
    Customer.phone customer = phone /\
    ((forall c, In c (customers w) -> Customer.phone c <> phone) ->
     customers w' = (customers w ++ [customer])%list /\
     customer =
       {| Customer.id := customers_next_id w;
          Customer.name := "Customer " ++ JsString.sliceLast 4 phone;
          Customer.phone := phone;
          Customer.email := None;
          Customer.createdAt := now |} /\
     exists pre,
       phone = pre ++ JsString.sliceLast 4 phone /\
       String.length (JsString.sliceLast 4 phone)
         = Nat.min 4 (String.length phone)) /\
    ((exists c, In c (customers w) /\ Customer.phone c = phone) ->
     customers w' = customers w /\
     customer_record phone w = Some customer /\
     In customer (customers w)) /\
    (forall w'' env2 req2 now2 uuid2 r2 secret2,
        reachable w' w'' ->
        normalizePhone (body_phone req2) = phone ->
        submitted_otp req2 <> "" ->
        otp_record phone w'' = Some r2 ->
        OtpRow.used r2 = false -> unexpired r2 now2 ->
        OtpRow.otpHash r2 = otpToHash phone (submitted_otp req2) ->
        requireJwtSecret env2 = Return secret2 ->
        exists token2 w3,
          verifyOtp env2 req2 now2 uuid2 w'' =
            (Responded 200 (JsonLogin token2 customer), w3) /\
          customers w3 = customers w'') /\
    (forall w'' env2 req2 now2 uuid2 token2 customer2 w3,
        reachable w' w'' ->
        normalizePhone (body_phone req2) = phone ->
        verifyOtp env2 req2 now2 uuid2 w'' =
          (Responded 200 (JsonLogin token2 customer2), w3) ->
        customer2 = customer /\
        Customer.id customer2 = Customer.id customer /\
        customers w3 = customers w'').
Proof.
  intros Hphone Hp Ho Hrec Hused Hexp Hhash Hsecret Hjwt.
  destruct (verifyOtpTx_live env phone (otpToHash phone (submitted_otp req))
              now uuid w r secret Hrec Hused Hexp Hhash Hsecret Hjwt)
    as [token [customer [w' Htx]]].
  pose proof (verifyOtpTx_cases env phone
                (otpToHash phone (submitted_otp req)) now uuid w) as Hcases.
  rewrite Htx in Hcases. destruct Hcases as [_ [_ Hcust]].
  assert (customer_record phone w' = Some customer) as Hafter.
  { rewrite customer_record_find.
    destruct Hcust as [[Hc ->]|[Hc [-> Hnew]]].
    - rewrite <- customer_record_find. exact Hc.
    - rewrite customer_record_find in Hc.
      rewrite (find_app_missing _ _ _ Hc). simpl.
      rewrite Hnew. simpl. rewrite String.eqb_refl. reflexivity. }
  exists token, customer, w'.
  split.
  { rewrite verifyOtp_validated by (rewrite ?Hphone; assumption).
    rewrite Hphone, Htx. reflexivity. }
  split.
  { apply (customer_record_some phone w' customer Hafter). }
  split; [|split; [|split]].
  - intros Hnone. apply (proj2 (customer_record_none _ _)) in Hnone.
    destruct Hcust as [[Hc _]|[_ [Hcs Hnew]]]; [congruence|].
    split; [exact Hcs|].
    rewrite sliceLast_truthy in Hnew by (auto; lia).
    split; [exact Hnew|]. apply sliceLast_suffix.
  - intros [c [Hin Heq]].
    destruct Hcust as [[Hc Hcs]|[Hc _]].
    + split; [exact Hcs|]. split; [exact Hc|].
      apply (customer_record_some phone w customer Hc).
    + exfalso. exact (proj1 (customer_record_none _ _) Hc c Hin Heq).
  - intros w'' env2 req2 now2 uuid2 r2 secret2 Hreach Hphone2 Ho2 Hrec2
           Hused2 Hexp2 Hhash2 Hsecret2.
    pose proof (reachable_keeps_customer w' w'' phone customer Hreach Hafter)
      as Hlater.
    destruct (verifyOtpTx_live env2 phone
                (otpToHash phone (submitted_otp req2)) now2 uuid2 w'' r2
                secret2 Hrec2 Hused2 Hexp2 Hhash2 Hsecret2 Hjwt)
      as [token2 [customer2 [w3 Htx2]]].
    pose proof (verifyOtpTx_cases env2 phone
                  (otpToHash phone (submitted_otp req2)) now2 uuid2 w'')
      as Hcases2.
    rewrite Htx2 in Hcases2. destruct Hcases2 as [_ [_ Hcust2]].
    destruct Hcust2 as [[Hc2 Hcs2]|[Hc2 _]]; [|congruence].
    assert (customer2 = customer) as -> by congruence.
    exists token2, w3. split; [|exact Hcs2].
    rewrite verifyOtp_validated by (rewrite ?Hphone2; assumption).
    rewrite Hphone2, Htx2. reflexivity.
  - intros w'' env2 req2 now2 uuid2 token2 customer2 w3 Hreach Hphone2 Hok2.
    pose proof (reachable_keeps_customer w' w'' phone customer Hreach Hafter)
      as Hlater.
    destruct (verifyOtp_ok_inv _ _ _ _ _ _ _ _ Hok2) as [_ Htx2].
    rewrite Hphone2 in Htx2.
    pose proof (verifyOtpTx_cases env2 phone
                  (otpToHash phone (submitted_otp req2)) now2 uuid2 w'')
      as Hcases2.
    rewrite Htx2 in Hcases2. destruct Hcases2 as [_ [_ Hcust2]].
    destruct Hcust2 as [[Hc2 Hcs2]|[Hc2 _]]; [|congruence].
    assert (customer2 = customer) as -> by congruence.
    split; [reflexivity|]. split; [reflexivity|exact Hcs2].
Qed.

(** ** Logout *)

Lemma extractBearerToken_parts (req : Request) :
  extractBearerToken req =
    match JsString.split " " (header_text req) with
    | scheme :: token :: _ =>
        if (scheme =? "Bearer") && JsString.truthy token
        then Some token else None
    | _ => None
    end.
Proof.
  unfold extractBearerToken, header_text. rewrite or_default_empty.
  destruct (JsString.split " " _) as [|scheme [|token rest]];
    try reflexivity.
  cbn [nth_error]. destruct (scheme =? "Bearer"), (JsString.truthy token);
    reflexivity.
Qed.

Lemma logout_without_token (env : ProcessEnv) (req : Request) (now : Z)
    (w : World) :
  extractBearerToken req = None ->
  logout env req now w = (Responded 401 (JsonError "TOKEN_REQUIRED"), w).
Proof. intros H. unfold logout. rewrite H. reflexivity. Qed.

Lemma logout_customer_token (env : ProcessEnv) (req : Request) (now : Z)
    (w : World) (token secret : string) (payload : JwtClaims) :
  extractBearerToken req = Some token ->
  requireJwtSecret env = Return secret ->
  jwt_verify jwt token secret now = Return payload ->
  claim_typ payload = Some "customer" ->
  logout env req now w =
    (Responded 204 NoBody, Query.delete_sessions (tokenToHash token) w).
Proof.
  intros Htok Hsec Hver Htyp. unfold logout.
  rewrite Htok, Hsec, Hver, Htyp. reflexivity.
Qed.

Lemma filter_idempotent {A : Type} (f : A -> bool) (l : list A) :
  filter f (filter f l) = filter f l.
Proof.
  induction l as [|x l IH]; simpl; [reflexivity|].
  destruct (f x) eqn:E; simpl; [rewrite E, IH|]; auto.
Qed.

Lemma filter_all {A : Type} (f : A -> bool) (l : list A) :
  (forall x, In x l -> f x = true) -> filter f l = l.
Proof.
  induction l as [|x l IH]; simpl; intros H; [reflexivity|].
  rewrite (H x) by auto. rewrite IH; auto.
Qed.

Lemma delete_sessions_again (h : string) (w : World) :
  Query.delete_sessions h (Query.delete_sessions h w) =
    Query.delete_sessions h w.
Proof.
  unfold Query.delete_sessions, with_customerSessions. simpl.
  rewrite filter_idempotent. reflexivity.
Qed.

Lemma delete_sessions_absent (h : string) (w : World) :
  (forall s, In s (customerSessions w) -> Session.tokenHash s <> h) ->
  Query.delete_sessions h w = w.
Proof.
  intros H. unfold Query.delete_sessions, with_customerSessions.
  rewrite filter_all.
  - destruct w; reflexivity.
  - intros s Hin. destruct (String.eqb_spec (Session.tokenHash s) h);
      [exfalso; exact (H s Hin e)|reflexivity].
Qed.

(** C7. When the bearer token verifies against the configured secret and
    the type discriminator of its payload is not "customer", [logout]
    answers 401 TOKEN_INVALID and the store, its session records
    included, is what it was. *)
Theorem logout_rejects_foreign_typ (env : ProcessEnv) (req : Request)
    (now : Z) (w : World) (token secret : string) (payload : JwtClaims) :
  extractBearerToken req = Some token ->
  requireJwtSecret env = Return secret ->
  jwt_verify jwt token secret now = Return payload ->
  claim_typ payload <> Some "customer" ->
  logout env req now w = (Responded 401 (JsonError "TOKEN_INVALID"), w).
Proof.
  intros Htok Hsec Hver Htyp. unfold logout. rewrite Htok, Hsec, Hver.
  destruct (claim_typ payload) as [t|]; [|reflexivity].
  destruct (String.eqb_spec t "customer"); [congruence|reflexivity].
Qed.

(** C8. For a bearer token that verifies as a customer token, [logout]
    answers 204 with no body and the session table keeps exactly the rows
    whose hash is not the token's; when no row has that hash the store is
    unchanged; a second [logout] with the same token, while it still
    verifies, answers 204 again and changes nothing. *)
Theorem logout_is_idempotent (env : ProcessEnv) (req : Request)
    (now now' : Z) (w : World) (token secret : string)
    (payload payload' : JwtClaims) :
  extractBearerToken req = Some token ->
  requireJwtSecret env = Return secret ->
  jwt_verify jwt token secret now = Return payload ->
  claim_typ payload = Some "customer" ->
  jwt_verify jwt token secret now' = Return payload' ->
  claim_typ payload' = Some "customer" ->
  fst (logout env req now w) = Responded 204 NoBody /\
  (forall s, In s (customerSessions (snd (logout env req now w))) <->
             In s (customerSessions w) /\
             Session.tokenHash s <> tokenToHash token) /\
  ((forall s, In s (customerSessions w) ->
              Session.tokenHash s <> tokenToHash token) ->
   snd (logout env req now w) = w) /\
  logout env req now' (snd (logout env req now w)) =
    (Responded 204 NoBody, snd (logout env req now w)).
Proof.
  intros Htok Hsec Hver Htyp Hver' Htyp'.
  rewrite (logout_customer_token env req now w token secret payload)
    by assumption.
  cbn [fst snd]. split; [reflexivity|]. split; [|split].
  - intros s. unfold Query.delete_sessions. simpl.
    rewrite filter_In.
    destruct (String.eqb_spec (Session.tokenHash s) (tokenToHash token));
      simpl; split; intros [Hin H]; split; auto; congruence.
  - apply delete_sessions_absent.
  - rewrite (logout_customer_token env req now' _ token secret payload')
      by assumption.
    rewrite delete_sessions_again. reflexivity.
Qed.

(** ** Configuration *)

(** C9, amended. [requireJwtSecret] throws exactly when NODE_ENV is
    "production" and CUSTOMER_JWT_SECRET is unset, empty, or equal to the
    placeholder "dev-customer-jwt-secret"; otherwise it returns the
    configured secret, or the placeholder when the secret is unset or
    empty. *)
Theorem requireJwtSecret_throws_iff (env : ProcessEnv) :
  ((exists msg, requireJwtSecret env = Throw msg) <->
   NODE_ENV env = Some "production" /\
   (CUSTOMER_JWT_SECRET env = None \/
    CUSTOMER_JWT_SECRET env = Some "" \/
    CUSTOMER_JWT_SECRET env = Some "dev-customer-jwt-secret")) /\
  ((forall msg, requireJwtSecret env <> Throw msg) ->
   requireJwtSecret env =
     Return match CUSTOMER_JWT_SECRET env with
            | None | Some EmptyString => "dev-customer-jwt-secret"
            | Some s => s
            end).
Proof.
  unfold requireJwtSecret.
  destruct env as [secret node]. cbn [CUSTOMER_JWT_SECRET NODE_ENV].
  assert (or_default secret "dev-customer-jwt-secret" =
            match secret with
            | None | Some EmptyString => "dev-customer-jwt-secret"
            | Some s => s
            end) as Hdef.
  { destruct secret as [[|c s]|]; reflexivity. }
  rewrite Hdef. clear Hdef.
  set (chosen := match secret with
                 | None | Some EmptyString => "dev-customer-jwt-secret"
                 | Some s => s
                 end).
  assert (chosen = "dev-customer-jwt-secret" <->
          (secret = None \/ secret = Some "" \/
           secret = Some "dev-customer-jwt-secret")) as Hchosen.
  { subst chosen. destruct secret as [[|c s]|].
    - split; auto.
    - split; [intros ->; auto|].
      intros [H|[H|H]]; [discriminate|discriminate|congruence].
    - split; auto. }
  assert (forall v : string,
             (exists msg : string, @Return string v = Throw msg) -> False)
    as Hret.
  { intros v [msg H]. discriminate. }
  destruct node as [v|].
  - destruct (String.eqb_spec v "production") as [->|Hv];
      destruct (String.eqb_spec chosen "dev-customer-jwt-secret") as [E|E];
      cbn [andb].
    + split; [|intros H; exfalso; eapply H; reflexivity].
      split; [intros _; split; [reflexivity|apply Hchosen, E]|eauto].
    + split; [|reflexivity].
      split; [intros H; destruct (Hret _ H)|].
      intros [_ H]. apply Hchosen in H. contradiction.
    + split; [|reflexivity].
      split; [intros H; destruct (Hret _ H)|]. intros [H _]. congruence.
    + split; [|reflexivity].
      split; [intros H; destruct (Hret _ H)|]. intros [H _]. congruence.
  - cbn [andb]. split; [|reflexivity].
    split; [intros H; destruct (Hret _ H)|]. intros [H _]. discriminate.
Qed.

(** ** Bearer extraction *)

(** C10. A token is extracted exactly when splitting the Authorization
    header on single spaces gives "Bearer" as first piece and a non-empty
    second piece, which is the token; whenever none is extracted,
    [logout] answers 401 TOKEN_REQUIRED and leaves the store as it is,
    whatever the environment and the token library are.  A missing
    header, a lowercase scheme, the scheme alone and a double space after
    the scheme all yield no token. *)
Theorem extractBearerToken_is_strict :
  (forall req token,
      extractBearerToken req = Some token <->
      exists rest,
        JsString.split " " (header_text req) = "Bearer" :: token :: rest /\
        token <> "") /\
  (forall env req now w,
      extractBearerToken req = None ->
      logout env req now w =
        (Responded 401 (JsonError "TOKEN_REQUIRED"), w)) /\
  extractBearerToken
    {| body_phone := None; body_otp := None; authorization := None |}
    = None /\
  extractBearerToken (Mock.bearer "bearer abc") = None /\
  extractBearerToken (Mock.bearer "Bearer") = None /\
  extractBearerToken (Mock.bearer "Bearer  abc") = None /\
  extractBearerToken (Mock.bearer "Bearer abc") = Some "abc".
Proof.
  split; [|split; [|repeat split]].
  - intros req token. rewrite extractBearerToken_parts. split.
    + destruct (JsString.split " " (header_text req))
        as [|scheme [|tok rest]]; try discriminate.
      destruct (String.eqb_spec scheme "Bearer") as [->|]; [|discriminate].
      destruct (JsString.truthy tok) eqn:Ht; [|discriminate].
      simpl. intros [= <-]. exists rest. split; [reflexivity|].
      apply truthy_true, Ht.
    + intros [rest [-> Hne]]. apply truthy_true in Hne. rewrite Hne.
      reflexivity.
  - intros env req now w. apply logout_without_token.
Qed.

(** ** What the handlers leave alone *)

Lemma mark_used_frame (p : string) (w : World) :
  phoneWhitelist (snd (Query.mark_used p w)) = phoneWhitelist w /\
  dispatched (snd (Query.mark_used p w)) = dispatched w /\
  customerSessions (snd (Query.mark_used p w)) = customerSessions w /\
  customers (snd (Query.mark_used p w)) = customers w.
Proof. repeat split; reflexivity. Qed.

(** The white list, the dispatch log and the session table across the
    verification transaction. *)
Lemma verifyOtpTx_frame (env : ProcessEnv) (p h : string) (now : Z)
    (uuid : string) (w : World) :
  match verifyOtpTx env p h now uuid w with
  | (Return res, w') =>
      phoneWhitelist w' = phoneWhitelist w /\
      dispatched w' = dispatched w /\
      match res with
      | ok token customer =>
          exists decoded e,
            jwt_decode jwt token = Some decoded /\
            claim_exp decoded = Some e /\ e <> 0%Z /\
            customerSessions w' =
              if existsb (fun s => Session.tokenHash s =? tokenToHash token)
                   (customerSessions w)
              then customerSessions w
              else (customerSessions w ++ [session_row customer token e])%list
      | _ => customerSessions w' = customerSessions w
      end
  | (Throw _, _) => True
  end.
Proof.
  unfold verifyOtpTx.
  destruct (nth_error (Query.otps_by_phone p w) 0) as [r|]; [|auto].
  destruct (OtpRow.used r); [auto|].
  destruct (match OtpRow.expiresAt r with
            | Some e => (now >? e)%Z
            | None => false
            end); [auto|].
  destruct (negb _); [auto|].
  destruct (mark_used_frame p w) as [Hwl [Hdi [Hse Hcs]]].
  destruct (Query.mark_used p w) as [usedRows tx1]. cbn [snd] in *.
  destruct (nth_error usedRows 0); [|auto].
  assert (forall (c : Customer.t) (tx2 : World),
             phoneWhitelist tx2 = phoneWhitelist w ->
             dispatched tx2 = dispatched w ->
             customerSessions tx2 = customerSessions w ->
             match
               match requireJwtSecret env with
               | Throw e0 => (Throw e0, tx2)
               | Return secret0 =>
                   match jwt_sign jwt
                           {| sub := Customer.id c;
                              jwt_phone := Customer.phone c;
                              jti := uuid; typ := "customer" |}
                           secret0 JWT_TTL now with
                   | Throw e0 => (Throw e0, tx2)
                   | Return token0 =>
                       match match jwt_decode jwt token0 with
                             | Some decoded => claim_exp decoded
                             | None => None
                             end with
                       | None => (Return token_failed, tx2)
                       | Some e0 =>
                           if (e0 =? 0)%Z then (Return token_failed, tx2)
                           else (Return (ok token0 c),
                                 Query.insert_session
                                   {| Session.customerId := Customer.id c;
                                      Session.tokenHash := tokenToHash token0;
                                      Session.expiresAt := (e0 * 1000)%Z |}
                                   tx2)
                       end
                   end
               end
             with
             | (Return res, w') =>
                 phoneWhitelist w' = phoneWhitelist w /\
                 dispatched w' = dispatched w /\
                 match res with
                 | ok token customer =>
                     exists decoded e,
                       jwt_decode jwt token = Some decoded /\
                       claim_exp decoded = Some e /\ e <> 0%Z /\
                       customerSessions w' =
                         if existsb
                              (fun s => Session.tokenHash s =? tokenToHash token)
                              (customerSessions w)
                         then customerSessions w
                         else (customerSessions w
                                 ++ [session_row customer token e])%list
                 | _ => customerSessions w' = customerSessions w
                 end
             | (Throw _, _) => True
             end) as Hissue.
  { intros c tx2 H1 H2 H3.
    destruct (requireJwtSecret env) as [secret|]; [|exact I].
    destruct (jwt_sign jwt _ secret JWT_TTL now) as [token|]; [|exact I].
    destruct (jwt_decode jwt token) as [decoded|] eqn:Hdec; [|auto].
    destruct (claim_exp decoded) as [e|] eqn:Hexp; [|auto].
    destruct (Z.eqb_spec e 0) as [|Hnz]; [auto|].
    unfold Query.insert_session. cbn [Session.tokenHash].
    rewrite H3.
    destruct (existsb _ (customerSessions w)) eqn:Hex.
    - split; [exact H1|]. split; [exact H2|].
      exists decoded, e. auto.
    - split; [exact H1|]. split; [exact H2|].
      exists decoded, e. auto. }
  destruct (nth_error (Query.customers_by_phone p tx1) 0) as [c|].
  - apply Hissue; assumption.
  - unfold Query.insert_customer. cbn [nth_error].
    apply Hissue; assumption.
Qed.

(** ** Verification: input validation, wrong codes, thrown errors *)

Lemma blank_iff_trim (v : option string) :
  JsString.trim (or_default v "") = "" <-> blank v.
Proof.
  rewrite or_default_empty. destruct v as [s|]; simpl.
  - apply trim_empty_iff.
  - split; [trivial|reflexivity].
Qed.

(** X1. [verifyOtp] answers 400 PHONE_AND_OTP_REQUIRED exactly when the
    phone or the code is absent or made of white space only, and then the
    store is what it was. *)
Theorem verifyOtp_requires_phone_and_code (env : ProcessEnv) (req : Request)
    (now : Z) (uuid : string) (w : World) :
  (blank (body_phone req) \/ blank (body_otp req) ->
   verifyOtp env req now uuid w =
     (Responded 400 (JsonError "PHONE_AND_OTP_REQUIRED"), w)) /\
  (fst (verifyOtp env req now uuid w) =
     Responded 400 (JsonError "PHONE_AND_OTP_REQUIRED") ->
   blank (body_phone req) \/ blank (body_otp req)).
Proof.
  split.
  - intros H. apply verifyOtp_blank.
    destruct H as [H|H]; [left|right]; apply blank_iff_trim, H.
  - intros H.
    destruct (string_dec (normalizePhone (body_phone req)) "") as [Hp|Hp].
    { left. apply blank_iff_trim, Hp. }
    destruct (string_dec (submitted_otp req) "") as [Ho|Ho].
    { right. apply blank_iff_trim, Ho. }
    exfalso. rewrite verifyOtp_validated in H by assumption.
    destruct (verifyOtpTx _ _ _ _ _ _) as [[[]|] w']; discriminate.
Qed.

(** X2. A wrong code submitted against a live record gets 401 OTP_INVALID
    and changes nothing: the record stays unused, and the right code
    submitted afterwards, while the record is unexpired, still logs in. *)
Theorem wrong_code_keeps_record_live (env : ProcessEnv) (req : Request)
    (now : Z) (uuid : string) (w : World) (phone : string) (r : OtpRow.t) :
  normalizePhone (body_phone req) = phone ->
  phone <> "" -> submitted_otp req <> "" ->
  otp_record phone w = Some r ->
  OtpRow.used r = false -> unexpired r now ->
  OtpRow.otpHash r <> otpToHash phone (submitted_otp req) ->
  verifyOtp env req now uuid w =
    (Responded 401 (JsonError "OTP_INVALID"), w) /\
  (forall env2 req2 now2 uuid2 secret,
      normalizePhone (body_phone req2) = phone ->
      submitted_otp req2 <> "" ->
      OtpRow.otpHash r = otpToHash phone (submitted_otp req2) ->
      unexpired r now2 ->
      requireJwtSecret env2 = Return secret ->
      sign_yields_exp ->
      exists token customer w1,
        verifyOtp env2 req2 now2 uuid2 (snd (verifyOtp env req now uuid w)) =
          (Responded 200 (JsonLogin token customer), w1)).
Proof.
  intros Hphone Hp Ho Hrec Hused Hexp Hhash.
  assert (verifyOtp env req now uuid w =
            (Responded 401 (JsonError "OTP_INVALID"), w)) as Hfirst.
  { rewrite verifyOtp_validated by (rewrite ?Hphone; assumption).
    rewrite Hphone.
    rewrite (verifyOtpTx_mismatch _ _ _ _ _ _ r) by assumption.
    reflexivity. }
  split; [exact Hfirst|].
  intros env2 req2 now2 uuid2 secret Hphone2 Ho2 Hhash2 Hexp2 Hsec Hjwt.
  rewrite Hfirst. cbn [snd].
  destruct (verifyOtpTx_live env2 phone
              (otpToHash phone (submitted_otp req2)) now2 uuid2 w r secret
              Hrec Hused Hexp2 Hhash2 Hsec Hjwt)
    as [token [customer [w1 Htx]]].
  exists token, customer, w1.
  rewrite verifyOtp_validated by (rewrite ?Hphone2; assumption).
  rewrite Hphone2, Htx. reflexivity.
Qed.

Lemma verifyOtpTx_throws (env : ProcessEnv) (p h : string) (now : Z)
    (uuid : string) (w : World) (r : OtpRow.t) (msg : string) :
  otp_record p w = Some r -> OtpRow.used r = false ->
  unexpired r now -> OtpRow.otpHash r = h ->
  (requireJwtSecret env = Throw msg \/
   exists secret,
     requireJwtSecret env = Return secret /\
     forall payload, jwt_sign jwt payload secret JWT_TTL now = Throw msg) ->
  exists w', verifyOtpTx env p h now uuid w = (Throw msg, w').
Proof.
  intros Hrec Hused Hexp Hh Hthrow.
  unfold verifyOtpTx. fold (otp_record p w).
  rewrite Hrec, Hused. apply expiry_test_false in Hexp. rewrite Hexp.
  destruct (String.eqb_spec (OtpRow.otpHash r) h); [|contradiction].
  cbn [negb].
  destruct (mark_used_returns p w r Hrec Hused) as [ph [rest Hret]].
  destruct (Query.mark_used p w) as [usedRows tx1] eqn:Hmark.
  simpl in Hret. subst usedRows.
  fold (customer_record p tx1). cbn [nth_error].
  assert (forall (c : Customer.t) (tx2 : World),
             exists w',
               match requireJwtSecret env with
               | Throw e0 => (Throw e0, tx2)
               | Return secret0 =>
                   match jwt_sign jwt
                           {| sub := Customer.id c;
                              jwt_phone := Customer.phone c;
                              jti := uuid; typ := "customer" |}
                           secret0 JWT_TTL now with
                   | Throw e0 => (Throw e0, tx2)
                   | Return token0 =>
                       match match jwt_decode jwt token0 with
                             | Some decoded => claim_exp decoded
                             | None => None
                             end with
                       | None => (Return token_failed, tx2)
                       | Some e0 =>
                           if (e0 =? 0)%Z then (Return token_failed, tx2)
                           else (Return (ok token0 c),
                                 Query.insert_session
                                   {| Session.customerId := Customer.id c;
                                      Session.tokenHash := tokenToHash token0;
                                      Session.expiresAt := (e0 * 1000)%Z |}
                                   tx2)
                       end
                   end
               end = (@Throw TxResult msg, w')) as Hissue.
  { intros c tx2. exists tx2. destruct Hthrow as [->|[secret [-> Hsign]]];
      [reflexivity|]. rewrite Hsign. reflexivity. }
  destruct (customer_record p tx1) as [c|].
  - apply Hissue.
  - unfold Query.insert_customer. cbn [nth_error]. apply Hissue.
Qed.

(** X3. When the signing secret is refused or signing throws, a
    verification of a live, matching code forwards the error and the
    transaction is rolled back: every table is what it was, the record
    still unused and no customer added.  The store is exactly what it was
    when the phone had a Customer row; when it had none, the id drawn for
    the insert that is rolled back is not given back, so the customers
    sequence has advanced by one. *)
Theorem verifyOtp_rolls_back_on_throw (env : ProcessEnv) (req : Request)
    (now : Z) (uuid : string) (w : World) (phone : string) (r : OtpRow.t)
    (msg : string) :
  normalizePhone (body_phone req) = phone ->
  phone <> "" -> submitted_otp req <> "" ->
  otp_record phone w = Some r ->
  OtpRow.used r = false -> unexpired r now ->
  OtpRow.otpHash r = otpToHash phone (submitted_otp req) ->
  (requireJwtSecret env = Throw msg \/
   exists secret,
     requireJwtSecret env = Return secret /\
     forall payload, jwt_sign jwt payload secret JWT_TTL now = Throw msg) ->
  exists w',
    verifyOtp env req now uuid w = (Next msg, w') /\
    phoneWhitelist w' = phoneWhitelist w /\
    customerOtps w' = customerOtps w /\
    customers w' = customers w /\
    customerSessions w' = customerSessions w /\
    dispatched w' = dispatched w /\
    otp_record phone w' = Some r /\
    ((exists c, customer_record phone w = Some c) -> w' = w) /\
    (customer_record phone w = None ->
     customers_next_id w' = (customers_next_id w + 1)%Z).
Proof.
  intros Hphone Hp Ho Hrec Hused Hexp Hhash Hthrow.
  destruct (verifyOtpTx_throws env phone _ now uuid w r msg
              Hrec Hused Hexp Hhash Hthrow) as [reached Htx].
  pose proof (verifyOtpTx_cases env phone
                (otpToHash phone (submitted_otp req)) now uuid w) as Hcases.
  rewrite Htx in Hcases. destruct Hcases as [Hdis [_ Hnext]].
  exists (Query.rolled_back w reached).
  split.
  { rewrite verifyOtp_validated by (rewrite ?Hphone; assumption).
    rewrite Hphone, Htx. reflexivity. }
  split; [reflexivity|]. split; [reflexivity|]. split; [reflexivity|].
  split; [reflexivity|]. split; [exact Hdis|].
  split.
  { rewrite (otp_record_same_table phone w (Query.rolled_back w reached))
      by reflexivity.
    exact Hrec. }
  split.
  - intros [c Hc].
    destruct Hnext as [[_ Hsame]|[Hnone _]]; [|congruence].
    unfold Query.rolled_back. rewrite Hsame, Hdis.
    destruct w; reflexivity.
  - intros Hnone.
    destruct Hnext as [[[c Hc] _]|[_ Hplus]]; [congruence|exact Hplus].
Qed.

(** X4. A 200 answer of [verifyOtp] is only given against a record of the
    phone that was unused, unexpired at the time of the call and whose hash
    is the hash of the submitted code; the record is then marked used and
    the customer returned carries the phone. *)
Theorem verifyOtp_success_needs_live_record (env : ProcessEnv)
    (req : Request) (now : Z) (uuid : string) (w w' : World)
    (token : string) (customer : Customer.t) :
  verifyOtp env req now uuid w =
    (Responded 200 (JsonLogin token customer), w') ->
  normalizePhone (body_phone req) <> "" /\
  submitted_otp req <> "" /\
  Customer.phone customer = normalizePhone (body_phone req) /\
  exists r,
    otp_record (normalizePhone (body_phone req)) w = Some r /\
    OtpRow.used r = false /\ unexpired r now /\
    OtpRow.otpHash r =
      otpToHash (normalizePhone (body_phone req)) (submitted_otp req) /\
    otp_record (normalizePhone (body_phone req)) w' = Some (consumed r).
Proof.
  intros Hok.
  destruct (verifyOtp_ok_inv _ _ _ _ _ _ _ _ Hok) as [Hp Htx].
  split; [exact Hp|]. split.
  { intros Ho. rewrite verifyOtp_blank in Hok by auto. discriminate. }
  pose proof (verifyOtpTx_cases env (normalizePhone (body_phone req))
                (otpToHash (normalizePhone (body_phone req))
                   (submitted_otp req)) now uuid w) as Hcases.
  rewrite Htx in Hcases.
  destruct Hcases as [Htable [[r [Hr [Hu [He Hh]]]] Hcust]].
  split.
  { destruct Hcust as [[Hc _]|[_ [_ ->]]]; [|reflexivity].
    apply customer_record_some in Hc. apply Hc. }
  exists r. repeat split; try assumption.
  rewrite (otp_record_same_table _ _ w' Htable).
  apply otp_record_mark_used; assumption.
Qed.

Lemma otp_record_upsert (row : OtpRow.t) (w : World) :
  otp_record (OtpRow.phone row) (Query.upsert_otp row w) = Some row.
Proof.
  rewrite otp_record_find. unfold Query.upsert_otp.
  destruct (existsb _ (customerOtps w)) eqn:Hex; simpl.
  - rewrite find_map_same.
    + destruct (existsb_true_find _ _ Hex) as [x Hx]. rewrite Hx. simpl.
      apply find_some in Hx. destruct Hx as [_ Hx]. rewrite Hx.
      apply String.eqb_eq in Hx. rewrite Hx. destruct row; reflexivity.
    + intros x.
      destruct (OtpRow.phone x =? OtpRow.phone row) eqn:E; simpl;
        [exact E|exact E].
  - rewrite (find_app_missing _ _ _ (existsb_false_find _ _ Hex)). simpl.
    rewrite String.eqb_refl. reflexivity.
Qed.

(** X5. The code sent by a successful [sendOtp] logs in when submitted for
    the same phone at any time up to and including [now + TTL], whatever
    record the phone had before; submitted later it gets 401 OTP_EXPIRED. *)
Theorem issued_code_verifies_until_expiry (env : ProcessEnv)
    (req req2 : Request) (now now2 : Z) (otp uuid : string) (w : World)
    (phone secret : string) :
  normalizePhone (body_phone req) = phone -> phone <> "" ->
  In phone (phoneWhitelist w) ->
  normalizePhone (body_phone req2) = phone ->
  submitted_otp req2 = otp -> otp <> "" ->
  requireJwtSecret env = Return secret ->
  sign_yields_exp ->
  ((now2 <= now + OTP_TTL_MS)%Z ->
   exists token customer w2,
     verifyOtp env req2 now2 uuid (snd (sendOtp req now otp w)) =
       (Responded 200 (JsonLogin token customer), w2)) /\
  ((now + OTP_TTL_MS < now2)%Z ->
   fst (verifyOtp env req2 now2 uuid (snd (sendOtp req now otp w))) =
     Responded 401 (JsonError "OTP_EXPIRED")).
Proof.
  intros Hphone Hp Hwl Hphone2 Hotp Ho Hsec Hjwt. subst phone.
  rewrite sendOtp_whitelisted by assumption. cbn [snd].
  set (p := normalizePhone (body_phone req)) in *.
  set (fresh := {| OtpRow.phone := p; OtpRow.otpHash := otpToHash p otp;
                   OtpRow.expiresAt := Some (now + OTP_TTL_MS)%Z;
                   OtpRow.used := false |}).
  set (w1 := with_dispatched (dispatched w ++ [(p, otp)])
               (Query.upsert_otp fresh w)).
  assert (otp_record p w1 = Some fresh) as Hrec.
  { rewrite (otp_record_same_table p (Query.upsert_otp fresh w) w1)
      by reflexivity.
    apply (otp_record_upsert fresh w). }
  split.
  - intros Hnow.
    destruct (verifyOtpTx_live env p (otpToHash p otp) now2 uuid w1 fresh
                secret Hrec eq_refl) as [token [customer [w2 Htx]]];
      try assumption; try reflexivity.
    { intros e [= <-]. exact Hnow. }
    exists token, customer, w2.
    rewrite verifyOtp_validated by (rewrite ?Hphone2, ?Hotp; assumption).
    rewrite Hphone2, Hotp, Htx. reflexivity.
  - intros Hnow.
    rewrite verifyOtp_validated by (rewrite ?Hphone2, ?Hotp; assumption).
    rewrite Hphone2, Hotp.
    rewrite (verifyOtpTx_expired _ _ _ _ _ _ fresh (now + OTP_TTL_MS)%Z);
      try reflexivity; assumption.
Qed.

(** ** Rows of other keys *)

Lemma filter_map_untouched {A : Type} (f : A -> bool) (g : A -> A)
    (l : list A) :
  (forall x, f x = true -> g x = x) -> (forall x, f (g x) = f x) ->
  filter f (map g l) = filter f l.
Proof.
  intros Hfix Hsame. induction l as [|x l IH]; simpl; [reflexivity|].
  rewrite Hsame. destruct (f x) eqn:E; [rewrite (Hfix x E), IH|]; auto.
Qed.

Lemma filter_filter_untouched {A : Type} (f h : A -> bool) (l : list A) :
  (forall x, f x = true -> h x = true) ->
  filter f (filter h l) = filter f l.
Proof.
  intros Himp. induction l as [|x l IH]; simpl; [reflexivity|].
  destruct (h x) eqn:Eh; simpl.
  - destruct (f x); rewrite IH; reflexivity.
  - destruct (f x) eqn:Ef; [|exact IH].
    rewrite (Himp x Ef) in Eh. discriminate.
Qed.

Lemma eqb_other (a p q : string) :
  q <> p -> (a =? q) = true -> (a =? p) = false.
Proof.
  intros Hne Ha. apply String.eqb_eq in Ha. subst a.
  apply String.eqb_neq. exact Hne.
Qed.

Lemma otp_record_rows (p : string) (w : World) :
  otp_record p w = nth_error (otp_rows_of p w) 0.
Proof. unfold otp_record, Query.otps_by_phone. apply limit_one_first. Qed.

Lemma customer_record_rows (p : string) (w : World) :
  customer_record p w = nth_error (customer_rows_of p w) 0.
Proof.
  unfold customer_record, Query.customers_by_phone. apply limit_one_first.
Qed.

Lemma upsert_other_rows (row : OtpRow.t) (q : string) (w : World) :
  q <> OtpRow.phone row ->
  otp_rows_of q (Query.upsert_otp row w) = otp_rows_of q w.
Proof.
  intros Hne. unfold otp_rows_of, Query.upsert_otp.
  destruct (existsb _ (customerOtps w)); simpl.
  - apply filter_map_untouched.
    + intros x Hx. rewrite (eqb_other _ _ _ Hne Hx). reflexivity.
    + intros x. destruct (OtpRow.phone x =? OtpRow.phone row); reflexivity.
  - rewrite filter_app. simpl.
    destruct (String.eqb_spec (OtpRow.phone row) q) as [E|_];
      [congruence|apply app_nil_r].
Qed.

Lemma delete_other_rows (p q : string) (w : World) :
  q <> p -> otp_rows_of q (Query.delete_otps p w) = otp_rows_of q w.
Proof.
  intros Hne. unfold otp_rows_of, Query.delete_otps. simpl.
  apply filter_filter_untouched.
  intros x Hx. rewrite (eqb_other _ _ _ Hne Hx). reflexivity.
Qed.

Lemma mark_used_other_rows (p q : string) (w : World) :
  q <> p -> otp_rows_of q (snd (Query.mark_used p w)) = otp_rows_of q w.
Proof.
  intros Hne. unfold otp_rows_of, Query.mark_used. simpl.
  apply filter_map_untouched.
  - intros x Hx. rewrite (eqb_other _ _ _ Hne Hx). reflexivity.
  - intros x. destruct ((OtpRow.phone x =? p) && _); reflexivity.
Qed.

Lemma rows_same_table (q : string) (w w' : World) :
  customerOtps w' = customerOtps w -> otp_rows_of q w' = otp_rows_of q w.
Proof. intros H. unfold otp_rows_of. rewrite H. reflexivity. Qed.

Lemma verifyOtp_other_rows (env : ProcessEnv) (req : Request) (now : Z)
    (uuid : string) (w : World) (q : string) :
  q <> normalizePhone (body_phone req) ->
  otp_rows_of q (snd (verifyOtp env req now uuid w)) = otp_rows_of q w.
Proof.
  intros Hne.
  destruct (verifyOtp_table env req now uuid w) as [H|[H|H]];
    rewrite (rows_same_table q _ _ H).
  - reflexivity.
  - apply delete_other_rows, Hne.
  - apply mark_used_other_rows, Hne.
Qed.

(** What [sendOtp] does to the store, case by case. *)
Lemma sendOtp_cases (req : Request) (now : Z) (otp : string) (w : World) :
  (fst (sendOtp req now otp w) <> Responded 200 JsonOk /\
   snd (sendOtp req now otp w) = w) \/
  (normalizePhone (body_phone req) <> "" /\
   In (normalizePhone (body_phone req)) (phoneWhitelist w) /\
   sendOtp req now otp w =
     (Responded 200 JsonOk,
      with_dispatched
        (dispatched w ++ [(normalizePhone (body_phone req), otp)])
        (Query.upsert_otp
           {| OtpRow.phone := normalizePhone (body_phone req);
              OtpRow.otpHash :=
                otpToHash (normalizePhone (body_phone req)) otp;
              OtpRow.expiresAt := Some (now + OTP_TTL_MS)%Z;
              OtpRow.used := false |} w))).
Proof.
  destruct (string_dec (normalizePhone (body_phone req)) "") as [Hp|Hp].
  { left. rewrite sendOtp_blank by assumption. split; [discriminate|auto]. }
  destruct (in_dec string_dec (normalizePhone (body_phone req))
              (phoneWhitelist w)) as [Hwl|Hwl].
  - right. split; [exact Hp|]. split; [exact Hwl|].
    apply sendOtp_whitelisted; assumption.
  - left. rewrite sendOtp_not_whitelisted by assumption.
    split; [discriminate|auto].
Qed.

Lemma upsert_frame (row : OtpRow.t) (w : World) :
  phoneWhitelist (Query.upsert_otp row w) = phoneWhitelist w /\
  customers (Query.upsert_otp row w) = customers w /\
  customerSessions (Query.upsert_otp row w) = customerSessions w /\
  dispatched (Query.upsert_otp row w) = dispatched w.
Proof.
  unfold Query.upsert_otp.
  destruct (existsb _ (customerOtps w)); repeat split; reflexivity.
Qed.

(** X6. [sendOtp] never touches the white list, the customers or the
    sessions, nor the OTP rows of any other phone; it hands exactly one
    code over for delivery when it answers 200 and changes nothing at all
    otherwise. *)
Theorem sendOtp_touches_one_phone (req : Request) (now : Z) (otp : string)
    (w : World) :
  phoneWhitelist (snd (sendOtp req now otp w)) = phoneWhitelist w /\
  customers (snd (sendOtp req now otp w)) = customers w /\
  customerSessions (snd (sendOtp req now otp w)) = customerSessions w /\
  (forall q, q <> normalizePhone (body_phone req) ->
             otp_rows_of q (snd (sendOtp req now otp w)) = otp_rows_of q w) /\
  (fst (sendOtp req now otp w) = Responded 200 JsonOk ->
   dispatched (snd (sendOtp req now otp w)) =
     (dispatched w ++ [(normalizePhone (body_phone req), otp)])%list) /\
  (fst (sendOtp req now otp w) <> Responded 200 JsonOk ->
   snd (sendOtp req now otp w) = w).
Proof.
  destruct (sendOtp_cases req now otp w) as [[Hno Hsame]|[Hp [Hwl Heq]]].
  - rewrite Hsame. repeat split; try reflexivity. intros H. contradiction.
  - rewrite Heq. cbn [fst snd].
    destruct (upsert_frame
                {| OtpRow.phone := normalizePhone (body_phone req);
                   OtpRow.otpHash :=
                     otpToHash (normalizePhone (body_phone req)) otp;
                   OtpRow.expiresAt := Some (now + OTP_TTL_MS)%Z;
                   OtpRow.used := false |} w) as [H1 [H2 [H3 H4]]].
    split; [exact H1|]. split; [exact H2|]. split; [exact H3|].
    split; [|split].
    + intros q Hq.
      etransitivity; [apply rows_same_table; reflexivity|].
      apply upsert_other_rows. exact Hq.
    + intros _. cbn [with_dispatched dispatched]. reflexivity.
    + intros H. exfalso. apply H. reflexivity.
Qed.

(** ** Sessions and customers across the handlers *)

Lemma verifyOtp_customers (env : ProcessEnv) (req : Request) (now : Z)
    (uuid : string) (w : World) :
  customers (snd (verifyOtp env req now uuid w)) = customers w \/
  (customer_record (normalizePhone (body_phone req)) w = None /\
   exists c,
     customers (snd (verifyOtp env req now uuid w)) = (customers w ++ [c])%list /\
     Customer.phone c = normalizePhone (body_phone req)).
Proof.
  destruct (string_dec (normalizePhone (body_phone req)) "") as [Hp|Hp].
  { rewrite verifyOtp_blank by auto. auto. }
  destruct (string_dec (submitted_otp req) "") as [Ho|Ho].
  { rewrite verifyOtp_blank by auto. auto. }
  rewrite verifyOtp_validated by assumption.
  pose proof (verifyOtpTx_customers_grow env
                (normalizePhone (body_phone req))
                (otpToHash (normalizePhone (body_phone req))
                   (submitted_otp req)) now uuid w) as Hgrow.
  destruct (verifyOtpTx _ _ _ _ _ _) as [[res|] w']; [|auto].
  destruct res; exact Hgrow.
Qed.

Lemma verifyOtp_sessions (env : ProcessEnv) (req : Request) (now : Z)
    (uuid : string) (w : World) :
  phoneWhitelist (snd (verifyOtp env req now uuid w)) = phoneWhitelist w /\
  dispatched (snd (verifyOtp env req now uuid w)) = dispatched w /\
  (customerSessions (snd (verifyOtp env req now uuid w)) = customerSessions w \/
   exists row,
     customerSessions (snd (verifyOtp env req now uuid w)) =
       (customerSessions w ++ [row])%list /\
     existsb (fun s => Session.tokenHash s =? Session.tokenHash row)
       (customerSessions w) = false).
Proof.
  destruct (string_dec (normalizePhone (body_phone req)) "") as [Hp|Hp].
  { rewrite verifyOtp_blank by auto. auto. }
  destruct (string_dec (submitted_otp req) "") as [Ho|Ho].
  { rewrite verifyOtp_blank by auto. auto. }
  rewrite verifyOtp_validated by assumption.
  pose proof (verifyOtpTx_frame env (normalizePhone (body_phone req))
                (otpToHash (normalizePhone (body_phone req))
                   (submitted_otp req)) now uuid w) as Hframe.
  pose proof (verifyOtpTx_cases env (normalizePhone (body_phone req))
                (otpToHash (normalizePhone (body_phone req))
                   (submitted_otp req)) now uuid w) as Hcases.
  destruct (verifyOtpTx _ _ _ _ _ _) as [[res|] w'];
    [|cbn [snd]; destruct Hcases as [Hdis _];
      split; [reflexivity|]; split; [exact Hdis|]; left; reflexivity].
  clear Hcases. destruct Hframe as [Hwl [Hdi Hse]].
  destruct res as [| | | |token customer]; cbn [snd]; auto.
  split; [exact Hwl|]. split; [exact Hdi|].
  destruct Hse as [decoded [e [_ [_ [_ Hse]]]]].
  destruct (existsb _ (customerSessions w)) eqn:Hex; [auto|].
  right. exists (session_row customer token e). auto.
Qed.

(** X7. Whatever it answers, [verifyOtp] never touches the white list or
    the delivery log, never changes the OTP rows or the customer rows of
    another phone, and never removes a customer or a session. *)
Theorem verifyOtp_touches_one_phone (env : ProcessEnv) (req : Request)
    (now : Z) (uuid : string) (w : World) :
  phoneWhitelist (snd (verifyOtp env req now uuid w)) = phoneWhitelist w /\
  dispatched (snd (verifyOtp env req now uuid w)) = dispatched w /\
  (forall q, q <> normalizePhone (body_phone req) ->
     otp_rows_of q (snd (verifyOtp env req now uuid w)) = otp_rows_of q w /\
     customer_rows_of q (snd (verifyOtp env req now uuid w))
       = customer_rows_of q w) /\
  (forall c, In c (customers w) ->
             In c (customers (snd (verifyOtp env req now uuid w)))) /\
  (forall s, In s (customerSessions w) ->
             In s (customerSessions (snd (verifyOtp env req now uuid w)))).
Proof.
  destruct (verifyOtp_sessions env req now uuid w) as [Hwl [Hdi Hse]].
  pose proof (verifyOtp_customers env req now uuid w) as Hcs.
  split; [exact Hwl|]. split; [exact Hdi|]. split; [|split].
  - intros q Hq. split; [apply verifyOtp_other_rows, Hq|].
    unfold customer_rows_of.
    destruct Hcs as [->|[_ [c [-> Hc]]]]; [reflexivity|].
    rewrite filter_app. simpl.
    destruct (String.eqb_spec (Customer.phone c) q) as [E|_];
      [congruence|apply app_nil_r].
  - intros c Hin. destruct Hcs as [->|[_ [c' [-> _]]]];
      [exact Hin|apply in_or_app; auto].
  - intros s Hin. destruct Hse as [->|[row [-> _]]];
      [exact Hin|apply in_or_app; auto].
Qed.

(** X8. A 200 answer of [verifyOtp] comes with a session row under the
    hash of the returned token: when no row had that hash, exactly the row
    (customer id, hash of the token, decoded expiry in milliseconds) is
    appended; when one had it, the session table is left as it is. *)
Theorem verifyOtp_records_session (env : ProcessEnv) (req : Request)
    (now : Z) (uuid : string) (w w' : World) (token : string)
    (customer : Customer.t) :
  verifyOtp env req now uuid w =
    (Responded 200 (JsonLogin token customer), w') ->
  exists decoded e,
    jwt_decode jwt token = Some decoded /\
    claim_exp decoded = Some e /\ e <> 0%Z /\
    ((forall s, In s (customerSessions w) ->
                Session.tokenHash s <> tokenToHash token) ->
     customerSessions w' =
       (customerSessions w ++ [session_row customer token e])%list) /\
    ((exists s, In s (customerSessions w) /\
                Session.tokenHash s = tokenToHash token) ->
     customerSessions w' = customerSessions w) /\
    (exists s, In s (customerSessions w') /\
               Session.tokenHash s = tokenToHash token).
Proof.
  intros Hok.
  destruct (verifyOtp_ok_inv _ _ _ _ _ _ _ _ Hok) as [_ Htx].
  pose proof (verifyOtpTx_frame env (normalizePhone (body_phone req))
                (otpToHash (normalizePhone (body_phone req))
                   (submitted_otp req)) now uuid w) as Hframe.
  rewrite Htx in Hframe.
  destruct Hframe as [_ [_ [decoded [e [Hdec [Hexp [Hnz Hse]]]]]]].
  exists decoded, e.
  split; [exact Hdec|]. split; [exact Hexp|]. split; [exact Hnz|].
  destruct (existsb _ (customerSessions w)) eqn:Hex.
  - apply existsb_exists in Hex. destruct Hex as [s [Hin Hs]].
    apply String.eqb_eq in Hs.
    split; [|split].
    + intros Hnone. exfalso. exact (Hnone s Hin Hs).
    + intros _. exact Hse.
    + exists s. rewrite Hse. auto.
  - split; [|split].
    + intros _. exact Hse.
    + intros [s [Hin Hs]]. exfalso.
      assert (existsb (fun s0 => Session.tokenHash s0 =? tokenToHash token)
                (customerSessions w) = true) as Htrue.
      { apply existsb_exists. exists s. split; [exact Hin|].
        apply String.eqb_eq, Hs. }
      congruence.
    + exists (session_row customer token e). rewrite Hse.
      split; [apply in_or_app; right; left; reflexivity|reflexivity].
Qed.

Lemma verifyOtp_records_session_aux (env : ProcessEnv) (req : Request)
    (now : Z) (uuid : string) (w w' : World) (token : string)
    (customer : Customer.t) :
  verifyOtp env req now uuid w =
    (Responded 200 (JsonLogin token customer), w') ->
  (forall s, In s (customerSessions w) ->
             Session.tokenHash s <> tokenToHash token) ->
  exists e,
    customerSessions w' =
      (customerSessions w ++ [session_row customer token e])%list.
Proof.
  intros Hok Hnone.
  destruct (verifyOtp_ok_inv _ _ _ _ _ _ _ _ Hok) as [_ Htx].
  pose proof (verifyOtpTx_frame env (normalizePhone (body_phone req))
                (otpToHash (normalizePhone (body_phone req))
                   (submitted_otp req)) now uuid w) as Hframe.
  rewrite Htx in Hframe.
  destruct Hframe as [_ [_ [decoded [e [_ [_ [_ Hse]]]]]]].
  exists e.
  destruct (existsb _ (customerSessions w)) eqn:Hex; [|exact Hse].
  apply existsb_exists in Hex. destruct Hex as [s [Hin Hs]].
  apply String.eqb_eq in Hs. exfalso. exact (Hnone s Hin Hs).
Qed.

(** X9. Logging in and then logging out with the returned token gives the
    session table back as it was before the login, when it held no row
    under the hash of that token; customers and OTP records are those the
    login left. *)
Theorem login_then_logout (env env2 : ProcessEnv) (req req2 : Request)
    (now now2 : Z) (uuid : string) (w w' : World) (token secret : string)
    (customer : Customer.t) (payload : JwtClaims) :
  verifyOtp env req now uuid w =
    (Responded 200 (JsonLogin token customer), w') ->
  (forall s, In s (customerSessions w) ->
             Session.tokenHash s <> tokenToHash token) ->
  extractBearerToken req2 = Some token ->
  requireJwtSecret env2 = Return secret ->
  jwt_verify jwt token secret now2 = Return payload ->
  claim_typ payload = Some "customer" ->
  fst (logout env2 req2 now2 w') = Responded 204 NoBody /\
  customerSessions (snd (logout env2 req2 now2 w')) = customerSessions w /\
  customers (snd (logout env2 req2 now2 w')) = customers w' /\
  customerOtps (snd (logout env2 req2 now2 w')) = customerOtps w'.
Proof.
  intros Hok Hnone Htok Hsec Hver Htyp.
  destruct (verifyOtp_records_session_aux env req now uuid w w' token
              customer Hok Hnone) as [e Hse].
  rewrite (logout_customer_token env2 req2 now2 w' token secret payload)
    by assumption.
  cbn [fst snd]. split; [reflexivity|]. split; [|split; reflexivity].
  unfold Query.delete_sessions. cbn [with_customerSessions customerSessions].
  rewrite Hse, filter_app. simpl. rewrite String.eqb_refl. simpl.
  rewrite app_nil_r. apply filter_all.
  intros s Hin.
  destruct (String.eqb_spec (Session.tokenHash s) (tokenToHash token))
    as [E|_]; [exfalso; exact (Hnone s Hin E)|reflexivity].
Qed.

(** ** Auxiliary forms of the frame facts *)

Lemma sendOtp_touches_one_phone_full (req : Request) (now : Z) (otp : string)
    (w : World) :
  phoneWhitelist (snd (sendOtp req now otp w)) = phoneWhitelist w /\
  (forall q, q <> normalizePhone (body_phone req) ->
             otp_rows_of q (snd (sendOtp req now otp w)) = otp_rows_of q w) /\
  customers (snd (sendOtp req now otp w)) = customers w /\
  customerSessions (snd (sendOtp req now otp w)) = customerSessions w.
Proof.
  destruct (sendOtp_cases req now otp w) as [[Hno Hsame]|[Hp [Hwl Heq]]].
  - rewrite Hsame. repeat split; reflexivity.
  - rewrite Heq. cbn [fst snd].
    destruct (upsert_frame
                {| OtpRow.phone := normalizePhone (body_phone req);
                   OtpRow.otpHash :=
                     otpToHash (normalizePhone (body_phone req)) otp;
                   OtpRow.expiresAt := Some (now + OTP_TTL_MS)%Z;
                   OtpRow.used := false |} w) as [H1 [H2 [H3 H4]]].
    split; [exact H1|]. split; [|split; [exact H2|exact H3]].
    intros q Hq.
    etransitivity; [apply rows_same_table; reflexivity|].
    apply upsert_other_rows. exact Hq.
Qed.

Lemma sendOtp_touches_one_phone_aux (req : Request) (now : Z) (otp : string)
    (w : World) :
  customers (snd (sendOtp req now otp w)) = customers w /\
  customerSessions (snd (sendOtp req now otp w)) = customerSessions w.
Proof.
  destruct (sendOtp_touches_one_phone_full req now otp w) as [_ [_ H]].
  exact H.
Qed.

Lemma logout_only_removes_sessions_aux (env : ProcessEnv) (req : Request)
    (now : Z) (w : World) :
  phoneWhitelist (snd (logout env req now w)) = phoneWhitelist w /\
  customerOtps (snd (logout env req now w)) = customerOtps w.
Proof.
  unfold logout.
  destruct (extractBearerToken req); [|auto].
  destruct (requireJwtSecret env); [|auto].
  destruct (jwt_verify jwt _ _ _) as [payload|]; [|auto].
  destruct (negb _); auto.
Qed.

Lemma verifyOtp_success_needs_live_record_aux (env : ProcessEnv)
    (req : Request) (now : Z) (uuid : string) (w w' : World)
    (token : string) (customer : Customer.t) :
  verifyOtp env req now uuid w =
    (Responded 200 (JsonLogin token customer), w') ->
  exists r, otp_record (normalizePhone (body_phone req)) w = Some r.
Proof.
  intros Hok.
  destruct (verifyOtp_ok_inv _ _ _ _ _ _ _ _ Hok) as [_ Htx].
  pose proof (verifyOtpTx_cases env (normalizePhone (body_phone req))
                (otpToHash (normalizePhone (body_phone req))
                   (submitted_otp req)) now uuid w) as Hcases.
  rewrite Htx in Hcases. destruct Hcases as [_ [[r [Hr _]] _]]. eauto.
Qed.

(** ** Invariants of the reachable stores *)

Lemma logout_cases (env : ProcessEnv) (req : Request) (now : Z) (w : World) :
  snd (logout env req now w) = w \/
  exists token,
    extractBearerToken req = Some token /\
    logout env req now w =
      (Responded 204 NoBody, Query.delete_sessions (tokenToHash token) w).
Proof.
  unfold logout.
  destruct (extractBearerToken req) as [token|]; [|auto].
  destruct (requireJwtSecret env); [|auto].
  destruct (jwt_verify jwt _ _ _) as [payload|]; [|auto].
  destruct (negb _); [auto|]. right. exists token. auto.
Qed.

Lemma step_customers (w w' : World) :
  step w w' ->
  customers w' = customers w \/
  exists c, customers w' = (customers w ++ [c])%list /\
            customer_record (Customer.phone c) w = None.
Proof.
  intros Hstep. destruct Hstep as [req now otp|env req now uuid|env req now].
  - left. apply (sendOtp_touches_one_phone_aux req now otp w).
  - destruct (verifyOtp_customers env req now uuid w) as [H|[Hnone [c [H Hc]]]];
      [auto|]. right. exists c. rewrite Hc. auto.
  - left. apply logout_table.
Qed.

Lemma step_keeps_one_customer (w w' : World) :
  step w w' -> one_customer_per_phone w -> one_customer_per_phone w'.
Proof.
  intros Hstep Hinv q.
  destruct (step_customers w w' Hstep) as [->|[c [-> Hnone]]]; [apply Hinv|].
  rewrite filter_app, length_app. simpl.
  destruct (String.eqb_spec (Customer.phone c) q) as [E|_]; simpl.
  - subst q. rewrite customer_record_find in Hnone.
    assert (filter (fun c0 => Customer.phone c0 =? Customer.phone c)
              (customers w) = []) as Hnil.
    { destruct (filter _ (customers w)) as [|x l] eqn:Ef; [reflexivity|].
      rewrite <- filter_first_find, Ef in Hnone. discriminate. }
    rewrite Hnil. simpl. lia.
  - specialize (Hinv q). lia.
Qed.

(** X10. Customers stay unique by phone: from a store with at most one
    customer row per phone, every store reached by [sendOtp], [verifyOtp]
    and [logout] requests has at most one customer row per phone. *)
Theorem customers_stay_unique_by_phone (w0 w : World) :
  one_customer_per_phone w0 -> reachable w0 w -> one_customer_per_phone w.
Proof.
  intros Hinv Hreach. induction Hreach as [|w w' _ IH Hstep];
    [exact Hinv|]. apply (step_keeps_one_customer w w' Hstep IH).
Qed.

Lemma step_sessions (w w' : World) :
  step w w' ->
  customerSessions w' = customerSessions w \/
  (exists row,
     customerSessions w' = (customerSessions w ++ [row])%list /\
     existsb (fun s => Session.tokenHash s =? Session.tokenHash row)
       (customerSessions w) = false) \/
  (exists h,
     customerSessions w' =
       filter (fun s => negb (Session.tokenHash s =? h)) (customerSessions w)).
Proof.
  intros Hstep. destruct Hstep as [req now otp|env req now uuid|env req now].
  - left. apply (sendOtp_touches_one_phone_aux req now otp w).
  - destruct (verifyOtp_sessions env req now uuid w) as [_ [_ [H|H]]]; auto.
  - destruct (logout_cases env req now w) as [->|[token [_ ->]]]; [auto|].
    right. right. exists (tokenToHash token). reflexivity.
Qed.

Lemma step_keeps_one_session (w w' : World) :
  step w w' -> one_session_per_hash w -> one_session_per_hash w'.
Proof.
  intros Hstep Hinv h.
  destruct (step_sessions w w' Hstep) as [->|[[row [-> Hnone]]|[h' ->]]].
  - apply Hinv.
  - rewrite filter_app, length_app. simpl.
    destruct (String.eqb_spec (Session.tokenHash row) h) as [E|_]; simpl.
    + subst h. rewrite (existsb_false_filter _ _ Hnone). simpl. lia.
    + specialize (Hinv h). lia.
  - specialize (Hinv h).
    pose proof (filter_filter_length (fun s => Session.tokenHash s =? h)
                  (fun s => negb (Session.tokenHash s =? h'))
                  (customerSessions w)).
    lia.
Qed.

(** X11. Sessions stay unique by token hash: from a store with at most one
    session row per hash, every store reached by [sendOtp], [verifyOtp]
    and [logout] requests has at most one session row per hash. *)
Theorem sessions_stay_unique_by_hash (w0 w : World) :
  one_session_per_hash w0 -> reachable w0 w -> one_session_per_hash w.
Proof.
  intros Hinv Hreach. induction Hreach as [|w w' _ IH Hstep];
    [exact Hinv|]. apply (step_keeps_one_session w w' Hstep IH).
Qed.

(** X12. [logout] answers 401 TOKEN_INVALID when [jwt.verify] throws and
    forwards the error when the signing secret is refused, changing
    nothing; and whatever it answers it touches only the session table,
    where it can only remove rows. *)
Theorem logout_only_removes_sessions (env : ProcessEnv) (req : Request)
    (now : Z) (w : World) :
  (forall token secret msg,
      extractBearerToken req = Some token ->
      requireJwtSecret env = Return secret ->
      jwt_verify jwt token secret now = Throw msg ->
      logout env req now w = (Responded 401 (JsonError "TOKEN_INVALID"), w)) /\
  (forall token msg,
      extractBearerToken req = Some token ->
      requireJwtSecret env = Throw msg ->
      logout env req now w = (Next msg, w)) /\
  phoneWhitelist (snd (logout env req now w)) = phoneWhitelist w /\
  customerOtps (snd (logout env req now w)) = customerOtps w /\
  customers (snd (logout env req now w)) = customers w /\
  dispatched (snd (logout env req now w)) = dispatched w /\
  (forall s, In s (customerSessions (snd (logout env req now w))) ->
             In s (customerSessions w)) /\
  (fst (logout env req now w) <> Responded 204 NoBody ->
   snd (logout env req now w) = w).
Proof.
  split; [|split].
  - intros token secret msg Htok Hsec Hver. unfold logout.
    rewrite Htok, Hsec, Hver. reflexivity.
  - intros token msg Htok Hsec. unfold logout. rewrite Htok, Hsec.
    reflexivity.
  - destruct (logout_cases env req now w) as [H|[token [_ H]]]; rewrite H.
    + repeat split; auto.
    + cbn [fst snd]. repeat split; try reflexivity.
      * intros s Hin. unfold Query.delete_sessions in Hin. simpl in Hin.
        apply filter_In in Hin. apply Hin.
      * intros Hne. exfalso. apply Hne. reflexivity.
Qed.

(** ** Phones that are not on the white list *)

Lemma rows_none_record (p : string) (w w' : World) :
  otp_rows_of p w' = otp_rows_of p w ->
  otp_record p w' = otp_record p w.
Proof. intros H. rewrite !otp_record_rows, H. reflexivity. Qed.

Lemma step_keeps_unlisted (w w' : World) (p : string) :
  step w w' ->
  ~ In p (phoneWhitelist w) -> otp_record p w = None ->
  phoneWhitelist w' = phoneWhitelist w /\ otp_record p w' = None.
Proof.
  intros Hstep Hwl Hrec.
  destruct Hstep as [req now otp|env req now uuid|env req now].
  - destruct (sendOtp_touches_one_phone_full req now otp w)
      as [H1 [Hrows Hcases]].
    split; [exact H1|].
    destruct (string_dec p (normalizePhone (body_phone req))) as [E|E].
    + destruct (sendOtp_cases req now otp w) as [[_ ->]|[_ [Hin _]]];
        [exact Hrec|]. subst p. contradiction.
    + rewrite (rows_none_record p w _ (Hrows p E)). exact Hrec.
  - destruct (verifyOtp_sessions env req now uuid w) as [H1 _].
    split; [exact H1|].
    destruct (verifyOtp_table env req now uuid w) as [H|[H|H]];
      rewrite (otp_record_same_table p _ _ H).
    + exact Hrec.
    + rewrite otp_record_find in *. unfold Query.delete_otps. simpl.
      destruct (find _ (filter _ (customerOtps w))) as [x|] eqn:Ex;
        [|reflexivity].
      apply find_some in Ex. destruct Ex as [Hin Hx].
      apply filter_In in Hin. destruct Hin as [Hin _].
      pose proof (find_none _ _ Hrec x Hin) as Hno. cbv beta in Hno.
      congruence.
    + rewrite otp_record_find in *. unfold Query.mark_used. simpl.
      rewrite find_map_same; [rewrite Hrec; reflexivity|].
      intros x. destruct ((OtpRow.phone x =? _) && _); reflexivity.
  - destruct (logout_only_removes_sessions_aux env req now w) as [H1 H2].
    split; [exact H1|].
    rewrite (otp_record_same_table p w _ H2). exact Hrec.
Qed.

(** X13. A phone that is not on the white list and has no OTP record never
    gets one: in every store reached by [sendOtp], [verifyOtp] and
    [logout] requests it is still off the list and without record, a
    [sendOtp] for it changes nothing, and no [verifyOtp] for it answers
    200. *)
Theorem unlisted_phone_never_logs_in (w0 w : World) (p : string) :
  ~ In p (phoneWhitelist w0) -> otp_record p w0 = None ->
  reachable w0 w ->
  ~ In p (phoneWhitelist w) /\
  otp_record p w = None /\
  (forall req now otp,
      normalizePhone (body_phone req) = p ->
      snd (sendOtp req now otp w) = w /\
      fst (sendOtp req now otp w) <> Responded 200 JsonOk) /\
  (forall env req now uuid token customer,
      normalizePhone (body_phone req) = p ->
      fst (verifyOtp env req now uuid w)
        <> Responded 200 (JsonLogin token customer)).
Proof.
  intros Hwl0 Hrec0 Hreach.
  assert (phoneWhitelist w = phoneWhitelist w0 /\ otp_record p w = None)
    as [Hwl Hrec].
  { induction Hreach as [|w w' _ IH Hstep]; [auto|].
    destruct IH as [IHwl IHrec].
    destruct (step_keeps_unlisted w w' p Hstep) as [H1 H2];
      [rewrite IHwl; exact Hwl0|exact IHrec|].
    split; [congruence|exact H2]. }
  split; [rewrite Hwl; exact Hwl0|]. split; [exact Hrec|]. split.
  - intros req now otp Hp.
    destruct (sendOtp_cases req now otp w) as [[Hno Hsame]|[_ [Hin _]]];
      [auto|]. exfalso. rewrite Hp, Hwl in Hin. contradiction.
  - intros env req now uuid token customer Hp Hok.
    remember (verifyOtp env req now uuid w) as out eqn:Hout.
    destruct out as [o w']. cbn [fst] in Hok. subst o.
    symmetry in Hout.
    destruct (verifyOtp_success_needs_live_record_aux env req now uuid w w'
                token customer Hout) as [r Hr].
    rewrite Hp in Hr. congruence.
Qed.

(** ** More on splitting and trimming *)

Lemma split_clean (sep : ascii) (s : string) :
  JsString.contains sep s = false -> JsString.split sep s = [s].
Proof.
  induction s as [|c r IH]; simpl; [reflexivity|].
  intros H. apply orb_false_iff in H. destruct H as [Hc Hr].
  rewrite Hc, (IH Hr). reflexivity.
Qed.

Lemma split_at_sep (sep : ascii) (a b : string) :
  JsString.contains sep a = false ->
  JsString.split sep (a ++ String sep b) = a :: JsString.split sep b.
Proof.
  induction a as [|c r IH]; simpl.
  - intros _. rewrite Ascii.eqb_refl. reflexivity.
  - intros H. apply orb_false_iff in H. destruct H as [Hc Hr].
    rewrite Hc, (IH Hr). reflexivity.
Qed.

Lemma join_cons (sep : ascii) (p : string) (rest : list string) :
  rest <> [] ->
  JsString.join sep (p :: rest) = p ++ String sep (JsString.join sep rest).
Proof. destruct rest; [congruence|reflexivity]. Qed.

(** X14. The header "Bearer " followed by a non-empty token without
    spaces, alone or followed by a space and anything else, yields that
    token; conversely an extracted token contains no space and the header
    is "Bearer ", the token, and then nothing or a space and more text,
    which is ignored. *)
Theorem bearer_header_round_trip :
  (forall req token,
      token <> "" -> JsString.contains " " token = false ->
      (header_text req = "Bearer " ++ token \/
       exists rest, header_text req = "Bearer " ++ token ++ " " ++ rest) ->
      extractBearerToken req = Some token) /\
  (forall req token,
      extractBearerToken req = Some token ->
      token <> "" /\ JsString.contains " " token = false /\
      (header_text req = "Bearer " ++ token \/
       exists rest, header_text req = "Bearer " ++ token ++ " " ++ rest)).
Proof.
  split.
  - intros req token Hne Hclean Hhdr.
    rewrite extractBearerToken_parts.
    apply truthy_true in Hne.
    destruct Hhdr as [->|[rest ->]].
    + change ("Bearer " ++ token) with ("Bearer" ++ String " " token).
      rewrite split_at_sep by reflexivity.
      rewrite (split_clean " " token Hclean). rewrite Hne. reflexivity.
    + change ("Bearer " ++ token ++ " " ++ rest)
        with ("Bearer" ++ String " " (token ++ String " " rest)).
      rewrite split_at_sep by reflexivity.
      rewrite (split_at_sep " " token rest Hclean). rewrite Hne.
      reflexivity.
  - intros req token Hext.
    pose proof (join_split " " (header_text req)) as Hjoin.
    assert (forall piece, In piece (JsString.split " " (header_text req)) ->
                          JsString.contains " " piece = false) as Hclean.
    { intros piece. apply split_pieces_clean. }
    rewrite extractBearerToken_parts in Hext.
    destruct (JsString.split " " (header_text req))
      as [|scheme [|tok rest]]; try discriminate.
    destruct (String.eqb_spec scheme "Bearer") as [->|]; [|discriminate].
    destruct (JsString.truthy tok) eqn:Ht; [|discriminate].
    simpl in Hext. injection Hext as <-.
    split; [apply truthy_true, Ht|].
    split; [apply Hclean; right; left; reflexivity|].
    rewrite <- Hjoin. destruct rest as [|x rest'].
    + left. reflexivity.
    + right. exists (JsString.join " " (x :: rest')).
      rewrite join_cons by discriminate.
      rewrite (join_cons " " tok (x :: rest')) by discriminate.
      reflexivity.
Qed.

Lemma trimStart_head (s : string) (c : ascii) (r : string) :
  JsString.trimStart s = String c r -> JsString.is_space c = false.
Proof.
  induction s as [|d t IH]; simpl; [discriminate|].
  destruct (JsString.is_space d) eqn:E; [exact IH|].
  intros [= <- _]. exact E.
Qed.

Lemma trimEnd_head (c : ascii) (r : string) :
  JsString.is_space c = false ->
  exists r', JsString.trimEnd (String c r) = String c r'.
Proof.
  intros Hc. cbn [JsString.trimEnd].
  destruct (JsString.trimEnd r); rewrite ?Hc; eauto.
Qed.

Lemma trimEnd_step (c : ascii) (r : string) :
  JsString.trimEnd (String c r) =
    match JsString.trimEnd r with
    | EmptyString =>
        if JsString.is_space c then EmptyString else String c EmptyString
    | r' => String c r'
    end.
Proof. reflexivity. Qed.

Lemma trimEnd_idempotent (s : string) :
  JsString.trimEnd (JsString.trimEnd s) = JsString.trimEnd s.
Proof.
  induction s as [|c r IH]; [reflexivity|].
  rewrite (trimEnd_step c r).
  destruct (JsString.trimEnd r) as [|d t] eqn:E.
  - destruct (JsString.is_space c) eqn:Hc; [reflexivity|].
    rewrite trimEnd_step. cbn [JsString.trimEnd]. rewrite Hc. reflexivity.
  - rewrite (trimEnd_step c (String d t)), IH. reflexivity.
Qed.

Lemma trimEnd_last (s t : string) (c : ascii) :
  JsString.trimEnd s = t ++ String c "" -> JsString.is_space c = false.
Proof.
  revert t. induction s as [|a r IH]; intros t.
  - destruct t; discriminate.
  - cbn [JsString.trimEnd].
    destruct (JsString.trimEnd r) as [|d u] eqn:E.
    + destruct (JsString.is_space a) eqn:Ha.
      * destruct t; discriminate.
      * destruct t as [|b t']; simpl.
        -- intros [= <-]. exact Ha.
        -- intros H. inversion H as [[Hb Ht]]. destruct t'; discriminate.
    + destruct t as [|b t']; simpl.
      * intros H. inversion H.
      * intros H. inversion H as [[Hb Ht]]. apply (IH t'). exact Ht.
Qed.

Lemma trim_idempotent (s : string) :
  JsString.trim (JsString.trim s) = JsString.trim s.
Proof.
  unfold JsString.trim.
  destruct (JsString.trimStart s) as [|c r] eqn:E; [reflexivity|].
  pose proof (trimStart_head s c r E) as Hc.
  destruct (trimEnd_head c r Hc) as [r' Hr']. rewrite Hr'.
  cbn [JsString.trimStart]. rewrite Hc. rewrite <- Hr'.
  apply trimEnd_idempotent.
Qed.

(** X15. [normalizePhone] is idempotent and its result neither starts nor
    ends with white space, so a phone is stored and looked up under its
    trimmed text however it was padded in the request. *)
Theorem normalizePhone_is_idempotent (v : option string) :
  normalizePhone (Some (normalizePhone v)) = normalizePhone v /\
  (forall c r, normalizePhone v = String c r -> JsString.is_space c = false) /\
  (forall t c,
      normalizePhone v = t ++ String c "" -> JsString.is_space c = false).
Proof.
  unfold normalizePhone. rewrite !or_default_empty.
  split; [apply trim_idempotent|]. split.
  - intros c r H. unfold JsString.trim in H.
    destruct (JsString.trimStart (match v with Some s => s | None => "" end))
      as [|d u] eqn:E; [discriminate|].
    pose proof (trimStart_head _ d u E) as Hd.
    destruct (trimEnd_head d u Hd) as [r' Hr']. rewrite Hr' in H.
    injection H as <- _. exact Hd.
  - intros t c H. unfold JsString.trim in H. apply (trimEnd_last _ t c H).
Qed.

(** ** Codes only go to whitelisted phones *)

Lemma in_map_phone (g : OtpRow.t -> OtpRow.t) (l : list OtpRow.t)
    (r : OtpRow.t) :
  (forall x, OtpRow.phone (g x) = OtpRow.phone x) ->
  In r (map g l) -> exists x, In x l /\ OtpRow.phone r = OtpRow.phone x.
Proof.
  intros Hg Hin. apply in_map_iff in Hin. destruct Hin as [x [<- Hx]].
  exists x. split; [exact Hx|apply Hg].
Qed.

Lemma step_keeps_only_whitelisted (w w' : World) :
  step w w' -> only_whitelisted w -> only_whitelisted w'.
Proof.
  intros Hstep [Hotp Hdis].
  destruct Hstep as [req now otp|env req now uuid|env req now].
  - destruct (sendOtp_cases req now otp w) as [[_ ->]|[Hp [Hwl ->]]];
      [split; assumption|].
    cbn [snd]. split.
    + intros r Hr.
      change (phoneWhitelist (with_dispatched _ (Query.upsert_otp _ w)))
        with (phoneWhitelist (Query.upsert_otp
                {| OtpRow.phone := normalizePhone (body_phone req);
                   OtpRow.otpHash :=
                     otpToHash (normalizePhone (body_phone req)) otp;
                   OtpRow.expiresAt := Some (now + OTP_TTL_MS)%Z;
                   OtpRow.used := false |} w)).
      change (customerOtps (with_dispatched _ (Query.upsert_otp _ w)))
        with (customerOtps (Query.upsert_otp
                {| OtpRow.phone := normalizePhone (body_phone req);
                   OtpRow.otpHash :=
                     otpToHash (normalizePhone (body_phone req)) otp;
                   OtpRow.expiresAt := Some (now + OTP_TTL_MS)%Z;
                   OtpRow.used := false |} w)) in Hr.
      unfold Query.upsert_otp in *.
      destruct (existsb _ (customerOtps w)); simpl in *.
      * apply in_map_phone in Hr.
        -- destruct Hr as [x [Hx ->]]. apply Hotp, Hx.
        -- intros x. destruct (OtpRow.phone x =? _); reflexivity.
      * apply in_app_or in Hr. destruct Hr as [Hr|[<-|[]]];
          [apply Hotp, Hr|exact Hwl].
    + intros e He.
      destruct (upsert_frame
                  {| OtpRow.phone := normalizePhone (body_phone req);
                     OtpRow.otpHash :=
                       otpToHash (normalizePhone (body_phone req)) otp;
                     OtpRow.expiresAt := Some (now + OTP_TTL_MS)%Z;
                     OtpRow.used := false |} w) as [H1 _].
      cbn [with_dispatched phoneWhitelist dispatched] in *.
      rewrite H1. apply in_app_or in He.
      destruct He as [He|[<-|[]]]; [apply Hdis, He|exact Hwl].
  - destruct (verifyOtp_sessions env req now uuid w) as [Hwl [Hdi _]].
    split.
    + intros r Hr. rewrite Hwl.
      destruct (verifyOtp_table env req now uuid w) as [H|[H|H]];
        rewrite H in Hr.
      * apply Hotp, Hr.
      * unfold Query.delete_otps in Hr. simpl in Hr.
        apply filter_In in Hr. apply Hotp, Hr.
      * unfold Query.mark_used in Hr. simpl in Hr.
        apply in_map_phone in Hr.
        -- destruct Hr as [x [Hx ->]]. apply Hotp, Hx.
        -- intros x. destruct ((OtpRow.phone x =? _) && _); reflexivity.
    + intros e He. rewrite Hwl. rewrite Hdi in He. apply Hdis, He.
  - destruct (logout_cases env req now w) as [->|[token [_ ->]]];
      [split; assumption|].
    cbn [snd]. split; [exact Hotp|exact Hdis].
Qed.

(** X23. Codes only go to whitelisted phones: from a store where every
    OTP record and every code handed over for delivery belongs to a phone
    of the white list, the same holds in every store reached by
    [sendOtp], [verifyOtp] and [logout] requests, and the white list is
    the one of the start. *)
Theorem codes_only_for_whitelisted_phones (w0 w : World) :
  only_whitelisted w0 -> reachable w0 w ->
  only_whitelisted w /\ phoneWhitelist w = phoneWhitelist w0.
Proof.
  intros Hinv Hreach. induction Hreach as [|w w' _ IH Hstep];
    [auto|]. destruct IH as [IH Hwl]. split.
  - apply (step_keeps_only_whitelisted w w' Hstep IH).
  - rewrite <- Hwl.
    destruct Hstep as [req now otp|env req now uuid|env req now].
    + apply sendOtp_touches_one_phone_full.
    + apply verifyOtp_sessions.
    + apply logout_only_removes_sessions_aux.
Qed.

End Controller.

(** ** The properties on concrete requests *)

Lemma mock_sign_yields_exp : sign_yields_exp Mock.jwt "7d".
Proof.
  intros payload secret now.
  exists (typ payload ++ ":" ++ jti payload).
  exists {| claim_typ :=
              nth_error
                (JsString.split ":" (typ payload ++ ":" ++ jti payload)) 0;
            claim_exp := Some 604800%Z |}.
  exists 604800%Z.
  split; [reflexivity|]. split; [reflexivity|]. split; [reflexivity|].
  discriminate.
Defined.

Lemma otp_consumed_at_most_once_witness :
  exists token customer w1,
    verifyOtp Mock.sha256_hex Mock.jwt "7d" Mock.development
      (Mock.post Mock.phone Mock.code) 2000 "uuid-1" Mock.issued =
      (Responded 200 (JsonLogin token customer), w1) /\
    otp_record Mock.phone w1 = Some (consumed Mock.issued_row) /\
    fst (Query.mark_used Mock.phone w1) = [] /\
    (forall env' now' uuid',
        verifyOtp Mock.sha256_hex Mock.jwt "7d" env'
          (Mock.post Mock.phone Mock.code) now' uuid' w1 =
          (Responded 401 (JsonError "OTP_INVALID"), w1)) /\
    (forall env' calls,
        verifyOtp_replay Mock.sha256_hex Mock.jwt "7d" env'
          (Mock.post Mock.phone Mock.code) calls w1 =
          (map (fun _ => Responded 401 (JsonError "OTP_INVALID")) calls, w1)).
Proof.
  apply (otp_consumed_at_most_once Mock.sha256_hex Mock.jwt "7d"
           Mock.development (Mock.post Mock.phone Mock.code) 2000 "uuid-1"
           Mock.issued Mock.phone Mock.code Mock.issued_row
           "dev-customer-jwt-secret").
  - reflexivity.
  - reflexivity.
  - discriminate.
  - discriminate.
  - reflexivity.
  - reflexivity.
  - intros e H. injection H as <-. lia.
  - reflexivity.
  - reflexivity.
  - exact mock_sign_yields_exp.
Defined.

(** C2 as stated fails: with a token library whose decoded payload has no
    expiry, the verification of a live code answers TOKEN_CREATE_FAILED and
    the record of the phone has gone from unused to used. *)
Lemma token_failure_leaves_code_used :
  ~ (verify_failure
       (fst (verifyOtp Mock.sha256_hex Mock.jwt_without_exp "7d"
               Mock.development (Mock.post Mock.phone Mock.code) 2000
               "uuid-1" Mock.issued)) ->
     ~ marks_used Mock.phone Mock.issued
         (snd (verifyOtp Mock.sha256_hex Mock.jwt_without_exp "7d"
                 Mock.development (Mock.post Mock.phone Mock.code) 2000
                 "uuid-1" Mock.issued))).
Proof.
  intros H. apply H.
  - right. right. left. reflexivity.
  - exists Mock.issued_row, (consumed Mock.issued_row).
    split; [reflexivity|]. split; [reflexivity|].
    split; reflexivity.
Qed.


Lemma expired_otp_is_deleted_witness :
  verifyOtp Mock.sha256_hex Mock.jwt "7d" Mock.development
    (Mock.post Mock.phone "000000") 400000 "uuid-1" Mock.issued =
    (Responded 401 (JsonError "OTP_EXPIRED"),
     Query.delete_otps Mock.phone Mock.issued) /\
  (forall row,
      In row (customerOtps (Query.delete_otps Mock.phone Mock.issued)) ->
      OtpRow.phone row <> Mock.phone) /\
  (forall env' req' now' uuid',
      normalizePhone (body_phone req') = Mock.phone ->
      submitted_otp req' <> "" ->
      verifyOtp Mock.sha256_hex Mock.jwt "7d" env' req' now' uuid'
        (Query.delete_otps Mock.phone Mock.issued) =
        (Responded 401 (JsonError "OTP_INVALID"),
         Query.delete_otps Mock.phone Mock.issued)).
Proof.
  apply (expired_otp_is_deleted Mock.sha256_hex Mock.jwt "7d"
           Mock.development (Mock.post Mock.phone "000000") 400000 "uuid-1"
           Mock.issued Mock.phone Mock.issued_row 301000%Z).
  - reflexivity.
  - discriminate.
  - discriminate.
  - reflexivity.
  - reflexivity.
  - reflexivity.
  - lia.
Defined.

Lemma verifyOtp_provisions_customer_witness :
  exists token customer w',
    verifyOtp Mock.sha256_hex Mock.jwt "7d" Mock.development
      (Mock.post Mock.phone Mock.code) 2000 "uuid-1" Mock.issued =
      (Responded 200 (JsonLogin token customer), w') /\
    Customer.phone customer = Mock.phone /\
    ((forall c, In c (customers Mock.issued) ->
                Customer.phone c <> Mock.phone) ->
     customers w' = (customers Mock.issued ++ [customer])%list /\
     customer =
       {| Customer.id := customers_next_id Mock.issued;
          Customer.name := "Customer " ++ JsString.sliceLast 4 Mock.phone;
          Customer.phone := Mock.phone;
          Customer.email := None;
          Customer.createdAt := 2000 |} /\
     exists pre,
       Mock.phone = pre ++ JsString.sliceLast 4 Mock.phone /\
       String.length (JsString.sliceLast 4 Mock.phone)
         = Nat.min 4 (String.length Mock.phone)) /\
    ((exists c, In c (customers Mock.issued) /\
                Customer.phone c = Mock.phone) ->
     customers w' = customers Mock.issued /\
     customer_record Mock.phone Mock.issued = Some customer /\
     In customer (customers Mock.issued)) /\
    (forall w'' env2 req2 now2 uuid2 r2 secret2,
        reachable Mock.sha256_hex Mock.jwt 300000 "7d" w' w'' ->
        normalizePhone (body_phone req2) = Mock.phone ->
        submitted_otp req2 <> "" ->
        otp_record Mock.phone w'' = Some r2 ->
        OtpRow.used r2 = false -> unexpired r2 now2 ->
        OtpRow.otpHash r2 =
          otpToHash Mock.sha256_hex Mock.phone (submitted_otp req2) ->
        requireJwtSecret env2 = Return secret2 ->
        exists token2 w3,
          verifyOtp Mock.sha256_hex Mock.jwt "7d" env2 req2 now2 uuid2 w'' =
            (Responded 200 (JsonLogin token2 customer), w3) /\
          customers w3 = customers w'') /\
    (forall w'' env2 req2 now2 uuid2 token2 customer2 w3,
        reachable Mock.sha256_hex Mock.jwt 300000 "7d" w' w'' ->
        normalizePhone (body_phone req2) = Mock.phone ->
        verifyOtp Mock.sha256_hex Mock.jwt "7d" env2 req2 now2 uuid2 w'' =
          (Responded 200 (JsonLogin token2 customer2), w3) ->
        customer2 = customer /\
        Customer.id customer2 = Customer.id customer /\
        customers w3 = customers w'').
Proof.
  apply (verifyOtp_provisions_customer Mock.sha256_hex Mock.jwt 300000 "7d"
           Mock.development (Mock.post Mock.phone Mock.code) 2000 "uuid-1"
           Mock.issued Mock.phone Mock.issued_row "dev-customer-jwt-secret").
  - reflexivity.
  - discriminate.
  - discriminate.
  - reflexivity.
  - reflexivity.
  - intros e H. injection H as <-. lia.
  - reflexivity.
  - reflexivity.
  - exact mock_sign_yields_exp.
Defined.

Lemma logout_rejects_foreign_typ_witness :
  logout Mock.sha256_hex Mock.jwt Mock.development
    (Mock.bearer "Bearer rider:uuid-7") 3000 Mock.logged_in =
    (Responded 401 (JsonError "TOKEN_INVALID"), Mock.logged_in).
Proof.
  apply (logout_rejects_foreign_typ Mock.sha256_hex Mock.jwt Mock.development
           (Mock.bearer "Bearer rider:uuid-7") 3000 Mock.logged_in
           "rider:uuid-7" "dev-customer-jwt-secret"
           {| claim_typ := Some "rider"; claim_exp := Some 604800%Z |}).
  - reflexivity.
  - reflexivity.
  - reflexivity.
  - discriminate.
Defined.

Lemma logout_is_idempotent_witness :
  fst (logout Mock.sha256_hex Mock.jwt Mock.development
         (Mock.bearer "Bearer customer:uuid-1") 3000 Mock.logged_in)
    = Responded 204 NoBody /\
  (forall s,
      In s (customerSessions
              (snd (logout Mock.sha256_hex Mock.jwt Mock.development
                      (Mock.bearer "Bearer customer:uuid-1") 3000
                      Mock.logged_in))) <->
      In s (customerSessions Mock.logged_in) /\
      Session.tokenHash s <> tokenToHash Mock.sha256_hex "customer:uuid-1") /\
  ((forall s, In s (customerSessions Mock.logged_in) ->
              Session.tokenHash s
                <> tokenToHash Mock.sha256_hex "customer:uuid-1") ->
   snd (logout Mock.sha256_hex Mock.jwt Mock.development
          (Mock.bearer "Bearer customer:uuid-1") 3000 Mock.logged_in)
     = Mock.logged_in) /\
  logout Mock.sha256_hex Mock.jwt Mock.development
    (Mock.bearer "Bearer customer:uuid-1") 3500
    (snd (logout Mock.sha256_hex Mock.jwt Mock.development
            (Mock.bearer "Bearer customer:uuid-1") 3000 Mock.logged_in)) =
    (Responded 204 NoBody,
     snd (logout Mock.sha256_hex Mock.jwt Mock.development
            (Mock.bearer "Bearer customer:uuid-1") 3000 Mock.logged_in)).
Proof.
  apply (logout_is_idempotent Mock.sha256_hex Mock.jwt Mock.development
           (Mock.bearer "Bearer customer:uuid-1") 3000 3500 Mock.logged_in
           "customer:uuid-1" "dev-customer-jwt-secret"
           {| claim_typ := Some "customer"; claim_exp := Some 604800%Z |}
           {| claim_typ := Some "customer"; claim_exp := Some 604800%Z |}).
  - reflexivity.
  - reflexivity.
  - reflexivity.
  - reflexivity.
  - reflexivity.
  - reflexivity.
Defined.

(** C9 as stated fails: in production with CUSTOMER_JWT_SECRET set to the
    empty string, the secret is neither unset nor equal to the placeholder,
    and [requireJwtSecret] throws. *)
Lemma empty_secret_in_production_throws :
  ~ ((exists msg,
         requireJwtSecret Mock.production_with_empty_secret = Throw msg) <->
     NODE_ENV Mock.production_with_empty_secret = Some "production" /\
     (CUSTOMER_JWT_SECRET Mock.production_with_empty_secret = None \/
      CUSTOMER_JWT_SECRET Mock.production_with_empty_secret
        = Some "dev-customer-jwt-secret")).
Proof.
  intros [Hthrows _].
  destruct Hthrows as [_ [H|H]]; [|discriminate H|discriminate H].
  exists "CUSTOMER_JWT_SECRET is required in production". reflexivity.
Qed.

(** ** Product categories *)

Lemma fromSet_fold (items seen : list string) :
  NoDup seen ->
  NoDup (fold_left
           (fun seen x =>
              if existsb (String.eqb x) seen then seen else (seen ++ [x])%list)
           items seen) /\
  (forall x,
      In x (fold_left
              (fun seen x =>
                 if existsb (String.eqb x) seen then seen
                 else (seen ++ [x])%list)
              items seen) <-> In x seen \/ In x items).
Proof.
  revert seen. induction items as [|y items IH]; intros seen Hnd; simpl.
  - split; [exact Hnd|]. intros x. split; [auto|]. intros [H|[]]. exact H.
  - destruct (existsb (String.eqb y) seen) eqn:Hex.
    + destruct (IH seen Hnd) as [H1 H2]. split; [exact H1|].
      intros x. rewrite H2. split.
      * intros [H|H]; auto.
      * intros [H|[H|H]]; auto. subst x. left.
        apply existsb_exists in Hex. destruct Hex as [z [Hz Hyz]].
        apply String.eqb_eq in Hyz. subst z. exact Hz.
    + assert (NoDup (seen ++ [y])) as Hnd'.
      { apply NoDup_app; [exact Hnd|constructor; [auto|constructor]|].
        intros a Ha [E|[]]. subst a.
        assert (existsb (String.eqb y) seen = true) as Htrue.
        { apply existsb_exists. exists y. split; [exact Ha|].
          apply String.eqb_refl. }
        congruence. }
      destruct (IH (seen ++ [y])%list Hnd') as [H1 H2]. split; [exact H1|].
      intros x. rewrite H2, in_app_iff. simpl. tauto.
Qed.

Lemma fromSet_spec (items : list string) :
  NoDup (JsString.fromSet items) /\
  (forall x, In x (JsString.fromSet items) <-> In x items).
Proof.
  unfold JsString.fromSet.
  destruct (fromSet_fold items [] (NoDup_nil _)) as [H1 H2].
  split; [exact H1|]. intros x. rewrite H2. simpl. tauto.
Qed.

Lemma canonical_category_fixed (c : string) :
  In c ProductCategories.PRODUCT_CATEGORIES ->
  JsString.trim c = c /\ JsString.truthy c = true /\
  find (fun c' => JsString.toLowerCase c' =? JsString.toLowerCase c)
    ProductCategories.PRODUCT_CATEGORIES = Some c.
Proof.
  unfold ProductCategories.PRODUCT_CATEGORIES. simpl.
  intros H.
  repeat (destruct H as [<-|H]; [repeat split; reflexivity|]).
  destruct H.
Qed.

Lemma toLowerCase_empty (s : string) :
  JsString.toLowerCase s = "" -> s = "".
Proof. destruct s; [reflexivity|discriminate]. Qed.

Lemma normalizeProductCategory_iff (v : option string) (c : string) :
  ProductCategories.normalizeProductCategory v = Some c <->
  In c ProductCategories.PRODUCT_CATEGORIES /\
  exists s, v = Some s /\
            JsString.toLowerCase (JsString.trim s) = JsString.toLowerCase c.
Proof.
  unfold ProductCategories.normalizeProductCategory. split.
  - destruct v as [s|]; [|discriminate].
    destruct (JsString.truthy (JsString.trim s)); [|discriminate].
    cbn [negb]. intros Hfind. apply find_some in Hfind.
    destruct Hfind as [Hin Heq]. apply String.eqb_eq in Heq.
    split; [exact Hin|]. exists s. auto.
  - intros [Hin [s [-> Heq]]].
    destruct (canonical_category_fixed c Hin) as [_ [Htruthy Hfind]].
    destruct (JsString.truthy (JsString.trim s)) eqn:Ht; cbn [negb].
    + rewrite Heq. exact Hfind.
    + apply truthy_false in Ht. rewrite Ht in Heq. simpl in Heq.
      symmetry in Heq. apply toLowerCase_empty in Heq. subst c.
      discriminate Htruthy.
Qed.

(** X16. [normalizeProductCategory] returns a category exactly when the
    value, trimmed and lowercased, is the lowercased name of one of the
    nine canonical categories, and then it returns that canonical
    spelling; every canonical name is returned unchanged, so normalizing
    twice is normalizing once. *)
Theorem normalizeProductCategory_canonical :
  (forall v c,
      ProductCategories.normalizeProductCategory v = Some c <->
      In c ProductCategories.PRODUCT_CATEGORIES /\
      exists s, v = Some s /\
                JsString.toLowerCase (JsString.trim s)
                  = JsString.toLowerCase c) /\
  (forall c, In c ProductCategories.PRODUCT_CATEGORIES ->
             ProductCategories.normalizeProductCategory (Some c) = Some c) /\
  (forall v,
      ProductCategories.normalizeProductCategory
        (ProductCategories.normalizeProductCategory v)
      = ProductCategories.normalizeProductCategory v).
Proof.
  assert (forall c, In c ProductCategories.PRODUCT_CATEGORIES ->
                    ProductCategories.normalizeProductCategory (Some c)
                      = Some c) as Hfix.
  { intros c Hin. apply normalizeProductCategory_iff.
    split; [exact Hin|]. exists c. split; [reflexivity|].
    destruct (canonical_category_fixed c Hin) as [-> _]. reflexivity. }
  split; [apply normalizeProductCategory_iff|]. split; [exact Hfix|].
  intros v.
  destruct (ProductCategories.normalizeProductCategory v) as [c|] eqn:E;
    [|reflexivity].
  apply Hfix. apply normalizeProductCategory_iff in E. apply E.
Qed.

Lemma normalize_of_trimmed (piece : string) :
  ProductCategories.normalizeProductCategory (Some (JsString.trim piece)) =
  ProductCategories.normalizeProductCategory (Some piece).
Proof.
  unfold ProductCategories.normalizeProductCategory.
  rewrite trim_idempotent. reflexivity.
Qed.

Lemma normalized_pieces (raw c : string) :
  In c
    (flat_map
       (fun s =>
          match ProductCategories.normalizeProductCategory (Some s) with
          | Some c => if JsString.truthy c then [c] else []
          | None => []
          end)
       (filter JsString.truthy
          (map JsString.trim (JsString.split "," raw)))) <->
  exists piece,
    In piece (JsString.split "," raw) /\
    ProductCategories.normalizeProductCategory (Some piece) = Some c.
Proof.
  rewrite in_flat_map. split.
  - intros [t [Ht Hc]]. apply filter_In in Ht. destruct Ht as [Ht _].
    apply in_map_iff in Ht. destruct Ht as [piece [<- Hpiece]].
    exists piece. split; [exact Hpiece|].
    rewrite normalize_of_trimmed in Hc.
    destruct (ProductCategories.normalizeProductCategory (Some piece))
      as [c'|]; [|destruct Hc].
    destruct (JsString.truthy c'); [|destruct Hc].
    destruct Hc as [->|[]]. reflexivity.
  - intros [piece [Hpiece Hc]]. exists (JsString.trim piece). split.
    + apply filter_In. split; [apply in_map, Hpiece|].
      destruct (JsString.truthy (JsString.trim piece)) eqn:Ht;
        [reflexivity|].
      unfold ProductCategories.normalizeProductCategory in Hc.
      rewrite Ht in Hc. discriminate.
    + rewrite normalize_of_trimmed, Hc.
      assert (In c ProductCategories.PRODUCT_CATEGORIES) as Hin.
      { apply normalizeProductCategory_iff in Hc. apply Hc. }
      destruct (canonical_category_fixed c Hin) as [_ [-> _]].
      left. reflexivity.
Qed.

(** X17. [normalizeProductCategories] returns a list exactly when some
    comma-separated piece of the trimmed value normalizes to a category;
    the list is then non-empty, without duplicates, made of canonical
    categories, and holds a category exactly when some piece normalizes to
    it. Pieces that are blank or unknown are dropped. *)
Theorem normalizeProductCategories_spec (s : string) :
  (forall l,
      ProductCategories.normalizeProductCategories (Some s) = Some l ->
      l <> [] /\ NoDup l /\
      (forall c, In c l -> In c ProductCategories.PRODUCT_CATEGORIES) /\
      (forall c,
          In c l <->
          exists piece,
            In piece (JsString.split "," (JsString.trim s)) /\
            ProductCategories.normalizeProductCategory (Some piece)
              = Some c)) /\
  (ProductCategories.normalizeProductCategories (Some s) = None <->
   forall piece,
     In piece (JsString.split "," (JsString.trim s)) ->
     ProductCategories.normalizeProductCategory (Some piece) = None) /\
  ProductCategories.normalizeProductCategories None = None.
Proof.
  unfold ProductCategories.normalizeProductCategories.
  pose proof (normalized_pieces (JsString.trim s)) as Hpieces.
  destruct (JsString.truthy (JsString.trim s)) eqn:Ht; cbn [negb].
  - set (normalized :=
           flat_map
             (fun s0 =>
                match ProductCategories.normalizeProductCategory (Some s0) with
                | Some c => if JsString.truthy c then [c] else []
                | None => []
                end)
             (filter JsString.truthy
                (map JsString.trim
                   (JsString.split "," (JsString.trim s))))) in *.
    destruct (fromSet_spec normalized) as [Hnd Hin].
    split; [|split; [|reflexivity]].
    + intros l Hl. destruct normalized as [|x xs] eqn:En; [discriminate|].
      injection Hl as <-. split; [|split; [exact Hnd|split]].
      * intros Hnil. specialize (Hin x). rewrite Hnil in Hin.
        destruct (proj2 Hin (or_introl eq_refl)).
      * intros c Hc. apply Hin, Hpieces in Hc.
        destruct Hc as [piece [_ Hc]].
        apply normalizeProductCategory_iff in Hc. apply Hc.
      * intros c. rewrite Hin. apply Hpieces.
    + destruct normalized as [|x xs] eqn:En.
      * split; [|reflexivity]. intros _ piece Hpiece.
        destruct (ProductCategories.normalizeProductCategory (Some piece))
          as [c|] eqn:Ec; [|reflexivity].
        exfalso. apply (proj2 (Hpieces c)). exists piece. auto.
      * split; [discriminate|]. intros Hnone. exfalso.
        destruct (proj1 (Hpieces x) (or_introl eq_refl)) as [piece [Hp Hc]].
        rewrite (Hnone piece Hp) in Hc. discriminate.
  - apply truthy_false in Ht. rewrite Ht. simpl.
    split; [intros l H; discriminate|]. split; [|reflexivity].
    split; [|reflexivity]. intros _ piece [<-|[]]. reflexivity.
Qed.

(** ** The command line of the seeding script *)

Lemma prefix_app (p r : string) : String.prefix p (p ++ r) = true.
Proof.
  induction p as [|c p IH]; simpl.
  - destruct r; reflexivity.
  - destruct (ascii_dec c c); [exact IH|congruence].
Qed.

Lemma sliceFrom_app (p r : string) :
  JsString.sliceFrom (String.length p) (p ++ r) = r.
Proof.
  unfold JsString.sliceFrom. induction p as [|c p IH]; simpl.
  - rewrite Nat.sub_0_r. apply substring_all. lia.
  - exact IH.
Qed.

Lemma find_none_of {A : Type} (f : A -> bool) (l : list A) :
  (forall a, In a l -> f a = false) -> find f l = None.
Proof.
  induction l as [|x l IH]; simpl; intros H; [reflexivity|].
  rewrite (H x) by auto. apply IH. auto.
Qed.

Lemma length_zero_iff (s : string) :
  (String.length s =? 0)%nat = (s =? "").
Proof. destruct s; reflexivity. Qed.

(** X18. [readArg] reads the first argument that starts with [--flag=]
    and no other: it returns the text after the prefix, trimmed, or
    nothing when that text is blank, even if a later argument gives the
    flag a value; without such an argument it returns nothing. A value it
    returns is never empty and carries no surrounding white space. *)
Theorem readArg_takes_first_match (argv : list string) (flag : string) :
  ((forall a, In a argv ->
              JsString.startsWith ("--" ++ flag ++ "=") a = false) ->
   SeedAdmin.readArg argv flag = None) /\
  (forall pre raw post,
      (forall a, In a pre ->
                 JsString.startsWith ("--" ++ flag ++ "=") a = false) ->
      argv = (pre ++ (("--" ++ flag ++ "=") ++ raw)%string :: post)%list ->
      SeedAdmin.readArg argv flag =
        if JsString.trim raw =? "" then None else Some (JsString.trim raw)) /\
  (forall v, SeedAdmin.readArg argv flag = Some v ->
             v <> "" /\ JsString.trim v = v).
Proof.
  unfold SeedAdmin.readArg. cbv zeta. split; [|split].
  - intros Hnone.
    rewrite (find_none_of
               (fun a => JsString.startsWith ("--" ++ flag ++ "=") a) argv
               Hnone).
    reflexivity.
  - intros pre raw post Hpre ->.
    rewrite (find_app_missing _ _ _
               (find_none_of
                  (fun a => JsString.startsWith ("--" ++ flag ++ "=") a) pre
                  Hpre)).
    cbn [find]. unfold JsString.startsWith at 1. rewrite prefix_app.
    rewrite sliceFrom_app, length_zero_iff. reflexivity.
  - intros v.
    destruct (find _ argv) as [hit|]; [|discriminate].
    rewrite length_zero_iff.
    destruct (String.eqb_spec (JsString.trim
                (JsString.sliceFrom (String.length ("--" ++ flag ++ "="))
                   hit)) "") as [E|E]; [discriminate|].
    intros [= <-]. split; [exact E|apply trim_idempotent].
Qed.

(** ** The transaction of the seeding script *)

Lemma seedTx_after (name email hash role : string) (db db1 : SeedAdmin.Db)
    (r : SeedAdmin.Result) :
  SeedAdmin.seedTx name email hash role db = (Return r, db1) ->
  SeedAdmin.role r = role /\
  (exists a,
      find (fun a => SeedAdmin.Admin.email a =? email) (SeedAdmin.admins db1)
        = Some a /\
      SeedAdmin.Admin.id a = SeedAdmin.adminId r /\
      SeedAdmin.Admin.name a = name /\
      SeedAdmin.Admin.passwordHash a = hash) /\
  existsb (fun x => (SeedAdmin.AdminRole.adminId x =? SeedAdmin.adminId r)%Z
                    && (SeedAdmin.AdminRole.role x =? role))
    (SeedAdmin.adminRoles db1) = true /\
  (SeedAdmin.created r = true <->
   find (fun a => SeedAdmin.Admin.email a =? email) (SeedAdmin.admins db)
     = None) /\
  (forall x, In x (SeedAdmin.adminRoles db) ->
             In x (SeedAdmin.adminRoles db1)).
Proof.
  unfold SeedAdmin.seedTx. cbv zeta beta.
  rewrite limit_one_first, filter_first_find.
  destruct (find (fun a => SeedAdmin.Admin.email a =? email)
              (SeedAdmin.admins db)) as [found|] eqn:Efind;
    cbn [nth_error SeedAdmin.Admin.id SeedAdmin.adminRoles SeedAdmin.admins
         SeedAdmin.admins_next_id];
    destruct (filter _ (SeedAdmin.adminRoles db)) as [|x l] eqn:Ef;
    cbn [firstn]; intros [= <- <-]; cbn;
    (split; [reflexivity|]); (split; [|split; [|split]]).
  - eexists. rewrite find_map_same.
    + rewrite Efind. cbn. rewrite Z.eqb_refl. auto.
    + intros y. destruct (SeedAdmin.Admin.id y =? _)%Z; reflexivity.
  - rewrite existsb_app. cbn. rewrite Z.eqb_refl, String.eqb_refl.
    apply orb_true_r.
  - split; [discriminate|congruence].
  - intros y Hy. apply in_or_app. auto.
  - eexists. rewrite find_map_same.
    + rewrite Efind. cbn. rewrite Z.eqb_refl. auto.
    + intros y. destruct (SeedAdmin.Admin.id y =? _)%Z; reflexivity.
  - apply existsb_exists. exists x.
    assert (In x (x :: l)) as Hin by (left; reflexivity).
    rewrite <- Ef in Hin. apply filter_In in Hin. exact Hin.
  - split; [discriminate|congruence].
  - auto.
  - eexists. rewrite (find_app_missing _ _ _ Efind). cbn.
    rewrite String.eqb_refl. auto.
  - rewrite existsb_app. cbn. rewrite Z.eqb_refl, String.eqb_refl.
    apply orb_true_r.
  - split; reflexivity.
  - intros y Hy. apply in_or_app. auto.
  - eexists. rewrite (find_app_missing _ _ _ Efind). cbn.
    rewrite String.eqb_refl. auto.
  - apply existsb_exists. exists x.
    assert (In x (x :: l)) as Hin by (left; reflexivity).
    rewrite <- Ef in Hin. apply filter_In in Hin. exact Hin.
  - split; reflexivity.
  - auto.
Qed.

Lemma required_returns (value : option string) (name v : string) :
  SeedAdmin.required value name = Return v <-> value = Some v /\ v <> "".
Proof.
  unfold SeedAdmin.required. destruct value as [s|].
  - destruct (JsString.truthy s) eqn:E.
    + apply truthy_true in E. split.
      * intros [= <-]. auto.
      * intros [[= <-] _]. reflexivity.
    + apply truthy_false in E. split; [discriminate|].
      intros [[= <-] H]. contradiction.
  - split; [discriminate|]. intros [H _]. discriminate.
Qed.

Lemma admin_role_known (roleRaw role : string) :
  find (fun r => JsString.toLowerCase r =? JsString.toLowerCase roleRaw)
    SeedAdmin.ADMIN_ROLES = Some role ->
  In role SeedAdmin.ADMIN_ROLES /\ JsString.truthy role = true /\
  JsString.toLowerCase role = JsString.toLowerCase roleRaw.
Proof.
  intros H. apply find_some in H. destruct H as [Hin Heq].
  apply String.eqb_eq in Heq. split; [exact Hin|]. split; [|exact Heq].
  unfold SeedAdmin.ADMIN_ROLES in Hin. simpl in Hin.
  repeat (destruct Hin as [<-|Hin]; [reflexivity|]). destruct Hin.
Qed.

(** The checks of [main] depend on the command line and the environment
    only: either one of them fails, whatever the store, or [main] is the
    transaction on the resolved name, email and role. *)
Lemma main_cases (argv : list string) (env : SeedAdmin.Config) :
  (forall hash db, exists msg,
      SeedAdmin.main argv env hash db = (Throw msg, db)) \/
  (exists name email password role,
      SeedAdmin.DATABASE_URL env <> "" /\
      SeedAdmin.or_else (SeedAdmin.readArg argv "email")
        (SeedAdmin.SUPERADMIN_EMAIL env) = Some email /\ email <> "" /\
      SeedAdmin.or_else (SeedAdmin.readArg argv "password")
        (SeedAdmin.SUPERADMIN_PASSWORD env) = Some password /\
      password <> "" /\
      In role SeedAdmin.ADMIN_ROLES /\
      JsString.toLowerCase role =
        JsString.toLowerCase
          (or_default (SeedAdmin.readArg argv "role") "ADMIN") /\
      forall hash db,
        SeedAdmin.main argv env hash db =
          SeedAdmin.transaction (SeedAdmin.seedTx name email hash role) db).
Proof.
  unfold SeedAdmin.main. cbv zeta.
  change (SeedAdmin.or_else None (SeedAdmin.SUPERADMIN_EMAIL env))
    with (SeedAdmin.SUPERADMIN_EMAIL env).
  change (SeedAdmin.or_else None (SeedAdmin.SUPERADMIN_PASSWORD env))
    with (SeedAdmin.SUPERADMIN_PASSWORD env).
  change (SeedAdmin.or_else None (SeedAdmin.SUPERADMIN_NAME env))
    with (SeedAdmin.SUPERADMIN_NAME env).
  destruct (SeedAdmin.required (Some (SeedAdmin.DATABASE_URL env))
              "DATABASE_URL") as [url|] eqn:Eurl; [|left; eauto].
  destruct (SeedAdmin.required
              (SeedAdmin.or_else (SeedAdmin.readArg argv "email")
                 (SeedAdmin.SUPERADMIN_EMAIL env)) "email")
    as [email|] eqn:Eemail; [|left; eauto].
  destruct (SeedAdmin.required
              (SeedAdmin.or_else (SeedAdmin.readArg argv "password")
                 (SeedAdmin.SUPERADMIN_PASSWORD env)) "password")
    as [password|] eqn:Epw; [|left; eauto].
  destruct (find _ SeedAdmin.ADMIN_ROLES) as [role|] eqn:Erole;
    [|left; eauto].
  apply admin_role_known in Erole. destruct Erole as [Hin [Htruthy Hlow]].
  rewrite Htruthy. cbn [negb].
  apply required_returns in Eurl, Eemail, Epw.
  destruct Eurl as [[= <-] Hurl]. destruct Eemail as [Hemail Hne].
  destruct Epw as [Hpw Hpne].
  right. eexists _, email, password, role.
  repeat (split; [eassumption|]). intros hash db. reflexivity.
Qed.

Lemma seedTx_existing (name email hash role : string) (db : SeedAdmin.Db)
    (a : SeedAdmin.Admin.t) :
  find (fun a => SeedAdmin.Admin.email a =? email) (SeedAdmin.admins db)
    = Some a ->
  existsb (fun x => (SeedAdmin.AdminRole.adminId x =? SeedAdmin.Admin.id a)%Z
                    && (SeedAdmin.AdminRole.role x =? role))
    (SeedAdmin.adminRoles db) = true ->
  SeedAdmin.seedTx name email hash role db =
    (Return {| SeedAdmin.created := false;
               SeedAdmin.adminId := SeedAdmin.Admin.id a;
               SeedAdmin.role := role |},
       {| SeedAdmin.admins :=
            map (fun x =>
                   if (SeedAdmin.Admin.id x =? SeedAdmin.Admin.id a)%Z
                   then {| SeedAdmin.Admin.id := SeedAdmin.Admin.id x;
                           SeedAdmin.Admin.name := name;
                           SeedAdmin.Admin.email := SeedAdmin.Admin.email x;
                           SeedAdmin.Admin.passwordHash := hash |}
                   else x) (SeedAdmin.admins db);
          SeedAdmin.admins_next_id := SeedAdmin.admins_next_id db;
          SeedAdmin.adminRoles := SeedAdmin.adminRoles db |}).
Proof.
  intros Hfind Hrole. unfold SeedAdmin.seedTx. cbv zeta beta.
  rewrite limit_one_first, filter_first_find, Hfind.
  cbn [nth_error SeedAdmin.Admin.id SeedAdmin.adminRoles SeedAdmin.admins
       SeedAdmin.admins_next_id].
  destruct (filter _ (SeedAdmin.adminRoles db)) as [|x l] eqn:Ef;
    [|reflexivity].
  exfalso. apply existsb_exists in Hrole. destruct Hrole as [x [Hin Hx]].
  assert (In x (filter
                  (fun r0 =>
                     (SeedAdmin.AdminRole.adminId r0
                        =? SeedAdmin.Admin.id a)%Z
                     && (SeedAdmin.AdminRole.role r0 =? role))
                  (SeedAdmin.adminRoles db))) as Hf.
  { apply filter_In. auto. }
  rewrite Ef in Hf. destruct Hf.
Qed.

(** X19. Running the seeding script again on the store it left, with the
    same command line and environment, creates nothing: it reports the
    same admin id and role with [created = false], adds no role row and no
    admin row, and keeps every admin's id and email. *)
Theorem seeding_again_creates_nothing (argv : list string)
    (env : SeedAdmin.Config) (hash1 hash2 : string) (db db1 : SeedAdmin.Db)
    (r1 : SeedAdmin.Result) :
  SeedAdmin.main argv env hash1 db = (Return r1, db1) ->
  exists db2,
    SeedAdmin.main argv env hash2 db1 =
      (Return {| SeedAdmin.created := false;
                 SeedAdmin.adminId := SeedAdmin.adminId r1;
                 SeedAdmin.role := SeedAdmin.role r1 |}, db2) /\
    SeedAdmin.adminRoles db2 = SeedAdmin.adminRoles db1 /\
    SeedAdmin.admins_next_id db2 = SeedAdmin.admins_next_id db1 /\
    map SeedAdmin.Admin.id (SeedAdmin.admins db2)
      = map SeedAdmin.Admin.id (SeedAdmin.admins db1) /\
    map SeedAdmin.Admin.email (SeedAdmin.admins db2)
      = map SeedAdmin.Admin.email (SeedAdmin.admins db1).
Proof.
  intros Hrun.
  destruct (main_cases argv env) as [Hfail|Hok].
  { destruct (Hfail hash1 db) as [msg H]. congruence. }
  destruct Hok as [name [email [password [role [_ [_ [_ [_ [_ [_ [_ Hmain]]]]]]]]]]].
  rewrite Hmain in Hrun. unfold SeedAdmin.transaction in Hrun.
  destruct (SeedAdmin.seedTx name email hash1 role db) as [[r|] d] eqn:Etx;
    [|discriminate].
  injection Hrun as -> ->.
  destruct (seedTx_after _ _ _ _ _ _ _ Etx)
    as [Hrole [[a [Hfind [Hid _]]] [Hgranted _]]].
  rewrite <- Hid in Hgranted.
  rewrite Hmain. unfold SeedAdmin.transaction.
  rewrite (seedTx_existing name email hash2 role db1 a Hfind Hgranted).
  eexists. split; [rewrite Hid, Hrole; reflexivity|].
  cbn [SeedAdmin.adminRoles SeedAdmin.admins SeedAdmin.admins_next_id].
  split; [reflexivity|]. split; [reflexivity|].
  rewrite !map_map. split; apply map_ext; intros x;
    destruct (SeedAdmin.Admin.id x =? _)%Z; reflexivity.
Qed.

(** X20. When the seeding script returns, the role it reports is one of
    the three admin roles in its canonical spelling, the admin row with
    the resolved email carries the reported id, the resolved name and the
    given password hash, the reported admin holds the reported role, no
    role row was removed, and [created] tells whether the email was new. *)
Theorem seeding_installs_admin_and_role (argv : list string)
    (env : SeedAdmin.Config) (hash : string) (db db' : SeedAdmin.Db)
    (r : SeedAdmin.Result) :
  SeedAdmin.main argv env hash db = (Return r, db') ->
  In (SeedAdmin.role r) SeedAdmin.ADMIN_ROLES /\
  JsString.toLowerCase (SeedAdmin.role r) =
    JsString.toLowerCase (or_default (SeedAdmin.readArg argv "role") "ADMIN") /\
  (exists a,
      In a (SeedAdmin.admins db') /\
      SeedAdmin.or_else (SeedAdmin.readArg argv "email")
        (SeedAdmin.SUPERADMIN_EMAIL env) = Some (SeedAdmin.Admin.email a) /\
      SeedAdmin.Admin.id a = SeedAdmin.adminId r /\
      SeedAdmin.Admin.passwordHash a = hash /\
      (SeedAdmin.created r = true <->
       forall x, In x (SeedAdmin.admins db) ->
                 SeedAdmin.Admin.email x <> SeedAdmin.Admin.email a)) /\
  In {| SeedAdmin.AdminRole.adminId := SeedAdmin.adminId r;
        SeedAdmin.AdminRole.role := SeedAdmin.role r |}
    (SeedAdmin.adminRoles db') /\
  (forall x, In x (SeedAdmin.adminRoles db) ->
             In x (SeedAdmin.adminRoles db')).
Proof.
  intros Hrun.
  destruct (main_cases argv env) as [Hfail|Hok].
  { destruct (Hfail hash db) as [msg H]. congruence. }
  destruct Hok
    as [name [email [password [role [_ [He [_ [_ [_ [Hin [Hlow Hmain]]]]]]]]]]].
  rewrite Hmain in Hrun. unfold SeedAdmin.transaction in Hrun.
  destruct (SeedAdmin.seedTx name email hash role db) as [[r0|] d] eqn:Etx;
    [|discriminate].
  injection Hrun as -> ->.
  destruct (seedTx_after _ _ _ _ _ _ _ Etx)
    as [Hrole [[a [Hfind [Hid [_ Hhash]]]] [Hgranted [Hcreated Hkept]]]].
  rewrite Hrole. split; [exact Hin|]. split; [exact Hlow|].
  apply find_some in Hfind. destruct Hfind as [Ha Hemail].
  apply String.eqb_eq in Hemail.
  split; [|split; [|exact Hkept]].
  - exists a. rewrite Hemail. repeat split; try assumption.
    + intros Hc x Hx Heq. apply Hcreated in Hc.
      pose proof (find_none _ _ Hc x Hx) as Hno. cbv beta in Hno.
      rewrite Heq, String.eqb_refl in Hno. discriminate.
    + intros Hnew. apply Hcreated. apply find_none_of.
      intros x Hx. apply String.eqb_neq. apply Hnew, Hx.
  - apply existsb_exists in Hgranted. destruct Hgranted as [x [Hx Hp]].
    apply andb_true_iff in Hp. destruct Hp as [Hi Hr].
    apply Z.eqb_eq in Hi. apply String.eqb_eq in Hr.
    destruct x as [xi xr]. simpl in Hi, Hr. subst xi xr. exact Hx.
Qed.

(** ** The seeding script from the variables of the process *)

Lemma is_blank_iff (v : option string) : Env.is_blank v = true <-> blank v.
Proof.
  destruct v as [s|]; simpl.
  - rewrite String.eqb_eq. apply trim_empty_iff.
  - split; [trivial|reflexivity].
Qed.

Lemma not_blank_iff (v : option string) :
  Env.is_blank v = false <-> ~ blank v.
Proof.
  rewrite <- is_blank_iff. destruct (Env.is_blank v); split; congruence.
Qed.

Lemma not_blank_text (s : string) : ~ blank (Some s) -> s <> "".
Proof. intros H E. apply H. subst s. intros c []. Qed.

Lemma env_required_cases (value : option string) (name : string) :
  (blank value /\
   Env.required value name = Throw (name ++ " is not defined")) \/
  (~ blank value /\
   exists s, value = Some s /\ s <> "" /\ Env.required value name = Return s).
Proof.
  unfold Env.required. destruct value as [s|].
  - destruct (Env.is_blank (Some s)) eqn:E.
    + left. split; [apply is_blank_iff, E|reflexivity].
    + right. apply not_blank_iff in E. split; [exact E|].
      exists s. split; [reflexivity|]. split; [|reflexivity].
      apply not_blank_text, E.
  - left. split; [exact I|reflexivity].
Qed.

(** [optional(a, optional(b, undefined))]: the first of the two that is
    not blank. *)
Lemma env_optional_pair (a b : option string) :
  Env.optional a (Env.optional b None) =
    if Env.is_blank a then (if Env.is_blank b then None else b) else a.
Proof.
  unfold Env.optional.
  destruct a as [x|]; [destruct (Env.is_blank (Some x))|];
    try reflexivity;
    destruct b as [y|]; try reflexivity;
    destruct (Env.is_blank (Some y)); reflexivity.
Qed.

Lemma readArg_text (argv : list string) (flag v : string) :
  SeedAdmin.readArg argv flag = Some v -> JsString.truthy v = true.
Proof.
  unfold SeedAdmin.readArg. cbv zeta.
  destruct (find _ argv) as [hit|]; [|discriminate].
  set (value := JsString.trim _).
  destruct (String.length value =? 0)%nat eqn:E; [discriminate|].
  intros [= <-]. apply truthy_true. intros H. rewrite H in E. discriminate.
Qed.

(** What [a || env.X] is, for [a] read from the command line and [env.X]
    built from a variable and its namesake. *)
Lemma seed_input_cases (argv : list string) (flag : string)
    (a b : option string) :
  SeedAdmin.or_else (SeedAdmin.readArg argv flag)
    (Env.optional a (Env.optional b None)) =
    match SeedAdmin.readArg argv flag with
    | Some v => Some v
    | None => if Env.is_blank a then (if Env.is_blank b then None else b)
              else a
    end.
Proof.
  rewrite env_optional_pair. unfold SeedAdmin.or_else.
  destruct (SeedAdmin.readArg argv flag) as [v|] eqn:E; [|reflexivity].
  rewrite (readArg_text argv flag v E). reflexivity.
Qed.

Lemma seed_input_given (argv : list string) (flag : string)
    (a b : option string) :
  (exists v,
      SeedAdmin.or_else (SeedAdmin.readArg argv flag)
        (Env.optional a (Env.optional b None)) = Some v /\ v <> "") <->
  SeedAdmin.readArg argv flag <> None \/ ~ blank a \/ ~ blank b.
Proof.
  rewrite seed_input_cases.
  destruct (SeedAdmin.readArg argv flag) as [v|] eqn:E.
  - split.
    + intros _. left. discriminate.
    + intros _. exists v. split; [reflexivity|].
      apply truthy_true, (readArg_text argv flag v E).
  - destruct (Env.is_blank a) eqn:Ea.
    + destruct (Env.is_blank b) eqn:Eb.
      * apply is_blank_iff in Ea, Eb. split.
        -- intros [v [H _]]. discriminate.
        -- intros [H|[H|H]]; [congruence|contradiction|contradiction].
      * apply not_blank_iff in Eb. split.
        -- intros _. right. right. exact Eb.
        -- intros _. destruct b as [y|]; [|exfalso; apply Eb; exact I].
           exists y. split; [reflexivity|apply not_blank_text, Eb].
    + apply not_blank_iff in Ea. split.
      * intros _. right. left. exact Ea.
      * intros _. destruct a as [x|]; [|exfalso; apply Ea; exact I].
        exists x. split; [reflexivity|apply not_blank_text, Ea].
Qed.

Lemma seedTx_returns (name email hash role : string) (db : SeedAdmin.Db) :
  exists r d, SeedAdmin.seedTx name email hash role db = (Return r, d).
Proof.
  unfold SeedAdmin.seedTx. cbv zeta beta.
  destruct (nth_error (firstn 1 (filter _ (SeedAdmin.admins db))) 0);
    cbn [nth_error]; eauto.
Qed.

(** A run of [main] that gets to its transaction commits it. *)
Lemma main_returns_or_rejects (argv : list string) (env : SeedAdmin.Config)
    (hash : string) (db : SeedAdmin.Db) :
  (exists msg, SeedAdmin.main argv env hash db = (Throw msg, db)) \/
  (exists r db', SeedAdmin.main argv env hash db = (Return r, db')).
Proof.
  destruct (main_cases argv env) as [Hfail|Hok].
  - left. apply Hfail.
  - destruct Hok
      as [name [email [password [role [_ [_ [_ [_ [_ [_ [_ Hmain]]]]]]]]]]].
    right. rewrite Hmain. unfold SeedAdmin.transaction.
    destruct (seedTx_returns name email hash role db) as [r [d ->]].
    eauto.
Qed.

Lemma main_returns_iff (argv : list string) (env : SeedAdmin.Config)
    (hash : string) (db : SeedAdmin.Db) :
  (exists r, fst (SeedAdmin.main argv env hash db) = Return r) <->
  SeedAdmin.DATABASE_URL env <> "" /\
  (exists email,
      SeedAdmin.or_else (SeedAdmin.readArg argv "email")
        (SeedAdmin.SUPERADMIN_EMAIL env) = Some email /\ email <> "") /\
  (exists password,
      SeedAdmin.or_else (SeedAdmin.readArg argv "password")
        (SeedAdmin.SUPERADMIN_PASSWORD env) = Some password /\
      password <> "") /\
  (exists role,
      In role SeedAdmin.ADMIN_ROLES /\
      JsString.toLowerCase role =
        JsString.toLowerCase
          (or_default (SeedAdmin.readArg argv "role") "ADMIN")).
Proof.
  split.
  - intros [r Hr].
    destruct (main_cases argv env) as [Hfail|Hok].
    { destruct (Hfail hash db) as [msg H]. rewrite H in Hr. discriminate. }
    destruct Hok
      as [name [email [password [role [H1 [H2 [H3 [H4 [H5 [H6 [H7 _]]]]]]]]]]].
    eauto 10.
  - intros [Hurl [[email [He Hne]] [[password [Hp Hpne]] [role [Hin Hlow]]]]].
    unfold SeedAdmin.main. cbv zeta.
    change (SeedAdmin.or_else None (SeedAdmin.SUPERADMIN_EMAIL env))
      with (SeedAdmin.SUPERADMIN_EMAIL env).
    change (SeedAdmin.or_else None (SeedAdmin.SUPERADMIN_PASSWORD env))
      with (SeedAdmin.SUPERADMIN_PASSWORD env).
    rewrite (proj2 (required_returns _ "DATABASE_URL" _)
               (conj eq_refl Hurl)).
    rewrite (proj2 (required_returns _ "email" email) (conj He Hne)).
    rewrite (proj2 (required_returns _ "password" password)
               (conj Hp Hpne)).
    rewrite <- Hlow.
    assert (find (fun r => JsString.toLowerCase r
                             =? JsString.toLowerCase role)
              SeedAdmin.ADMIN_ROLES = Some role) as Hfind.
    { unfold SeedAdmin.ADMIN_ROLES in *. simpl in Hin.
      repeat (destruct Hin as [<-|Hin]; [reflexivity|]). destruct Hin. }
    rewrite Hfind.
    destruct (admin_role_known role role Hfind) as [_ [-> _]].
    cbn [negb]. unfold SeedAdmin.transaction.
    destruct (seedTx_returns
                (or_default
                   (SeedAdmin.or_else (SeedAdmin.readArg argv "name")
                      (SeedAdmin.or_else None (SeedAdmin.SUPERADMIN_NAME env)))
                   "Admin") email hash role db) as [r [d ->]].
    eexists; reflexivity.
Qed.

(** X21. The seeding script, run on the variables of the process,
    commits its transaction exactly when DATABASE_URL is not blank, an
    email is given by [--email=] or by a SUPERADMIN_EMAIL or ADMIN_EMAIL
    that is not blank, a password likewise, and the role, ADMIN when none
    is given, is one of the three admin roles in any letter case.  A
    blank DATABASE_URL ends the run at the import of the configuration.
    The email installed is the one of the command line when there is one,
    else SUPERADMIN_EMAIL when it is not blank, else ADMIN_EMAIL.
    Whenever the script throws, the store is what it was. *)
Theorem seeding_checks_its_input (argv : list string)
    (p : SeedAdmin.Process.env) (hash : string) (db : SeedAdmin.Db) :
  ((exists r, fst (SeedAdmin.script argv p hash db) = Return r) <->
   ~ blank (SeedAdmin.Process.DATABASE_URL p) /\
   (SeedAdmin.readArg argv "email" <> None \/
    ~ blank (SeedAdmin.Process.SUPERADMIN_EMAIL p) \/
    ~ blank (SeedAdmin.Process.ADMIN_EMAIL p)) /\
   (SeedAdmin.readArg argv "password" <> None \/
    ~ blank (SeedAdmin.Process.SUPERADMIN_PASSWORD p) \/
    ~ blank (SeedAdmin.Process.ADMIN_PASSWORD p)) /\
   (exists role,
       In role SeedAdmin.ADMIN_ROLES /\
       JsString.toLowerCase role =
         JsString.toLowerCase
           (or_default (SeedAdmin.readArg argv "role") "ADMIN"))) /\
  (blank (SeedAdmin.Process.DATABASE_URL p) ->
   SeedAdmin.script argv p hash db =
     (Throw "DATABASE_URL is not defined", db)) /\
  (forall r db',
      SeedAdmin.script argv p hash db = (Return r, db') ->
      exists a,
        In a (SeedAdmin.admins db') /\
        SeedAdmin.Admin.id a = SeedAdmin.adminId r /\
        SeedAdmin.Admin.passwordHash a = hash /\
        Some (SeedAdmin.Admin.email a) =
          match SeedAdmin.readArg argv "email" with
          | Some v => Some v
          | None =>
              if Env.is_blank (SeedAdmin.Process.SUPERADMIN_EMAIL p)
              then SeedAdmin.Process.ADMIN_EMAIL p
              else SeedAdmin.Process.SUPERADMIN_EMAIL p
          end) /\
  (forall msg, fst (SeedAdmin.script argv p hash db) = Throw msg ->
               snd (SeedAdmin.script argv p hash db) = db).
Proof.
  unfold SeedAdmin.script, SeedAdmin.importEnv.
  destruct (env_required_cases (SeedAdmin.Process.DATABASE_URL p)
              "DATABASE_URL") as [[Hblank ->]|[Hurl [url [Eurl [Hne ->]]]]].
  { split; [|split; [|split]].
    - split.
      + intros [r Hr]. discriminate.
      + intros [H _]. contradiction.
    - intros _. reflexivity.
    - intros r db' H. discriminate.
    - intros msg _. reflexivity. }
  set (env := {| SeedAdmin.DATABASE_URL := url;
                 SeedAdmin.SUPERADMIN_EMAIL := _;
                 SeedAdmin.SUPERADMIN_PASSWORD := _;
                 SeedAdmin.SUPERADMIN_NAME := _ |}).
  split; [|split; [|split]].
  - rewrite main_returns_iff. subst env.
    cbn [SeedAdmin.DATABASE_URL SeedAdmin.SUPERADMIN_EMAIL
         SeedAdmin.SUPERADMIN_PASSWORD].
    rewrite !seed_input_given. split.
    + intros [_ H]. split; [exact Hurl|exact H].
    + intros [_ H]. split; [exact Hne|exact H].
  - intros Hblank. contradiction.
  - intros r db' Hrun.
    destruct (main_cases argv env) as [Hfail|Hok].
    { destruct (Hfail hash db) as [msg H]. congruence. }
    destruct Hok
      as [name [email [password [role [_ [He [_ [_ [_ [_ [_ Hmain]]]]]]]]]]].
    rewrite Hmain in Hrun. unfold SeedAdmin.transaction in Hrun.
    destruct (SeedAdmin.seedTx name email hash role db) as [[r0|] d] eqn:Etx;
      [|discriminate].
    injection Hrun as -> ->.
    destruct (seedTx_after _ _ _ _ _ _ _ Etx)
      as [_ [[a [Hfind [Hid [_ Hhash]]]] _]].
    apply find_some in Hfind. destruct Hfind as [Ha Hemail].
    apply String.eqb_eq in Hemail.
    exists a. split; [exact Ha|]. split; [exact Hid|]. split; [exact Hhash|].
    rewrite Hemail. subst env. cbn [SeedAdmin.SUPERADMIN_EMAIL] in He.
    rewrite seed_input_cases in He.
    destruct (SeedAdmin.readArg argv "email"); [symmetry; exact He|].
    destruct (Env.is_blank (SeedAdmin.Process.SUPERADMIN_EMAIL p));
      [|symmetry; exact He].
    destruct (Env.is_blank (SeedAdmin.Process.ADMIN_EMAIL p));
      [discriminate|symmetry; exact He].
  - intros msg Hthrow.
    destruct (main_returns_or_rejects argv env hash db)
      as [[msg' H]|[r [db' H]]]; rewrite H in *;
      [reflexivity|discriminate].
Qed.

(** The run of the script on the sample variables: the blank
    SUPERADMIN_PASSWORD gives way to ADMIN_PASSWORD, the SUPERADMIN_EMAIL
    that is set wins over ADMIN_EMAIL. *)
Lemma mock_import_env :
  SeedAdmin.importEnv SeedMock.process = Return SeedMock.config.
Proof. reflexivity. Qed.

Lemma mock_script_run :
  SeedAdmin.script SeedMock.argv SeedMock.process "$2a$10$first"
    SeedMock.empty = (Return SeedMock.result, SeedMock.seeded).
Proof. reflexivity. Qed.

Lemma mock_script_blank_url :
  SeedAdmin.script SeedMock.argv
    {| SeedAdmin.Process.DATABASE_URL := Some " ";
       SeedAdmin.Process.SUPERADMIN_EMAIL := Some "root@justoo.test";
       SeedAdmin.Process.ADMIN_EMAIL := None;
       SeedAdmin.Process.SUPERADMIN_PASSWORD := Some "s3cret";
       SeedAdmin.Process.ADMIN_PASSWORD := None;
       SeedAdmin.Process.SUPERADMIN_NAME := None;
       SeedAdmin.Process.ADMIN_NAME := None |}
    "$2a$10$first" SeedMock.empty =
    (Throw "DATABASE_URL is not defined", SeedMock.empty).
Proof. reflexivity. Qed.

(** ** Environment loading and the controller *)

(** X22. [isProd] of [config/env.js] is the production test of
    [requireJwtSecret]. The secret [requireJwtSecret] returns is the
    [CUSTOMER_JWT_SECRET] field of [env], except when the variable is
    non-empty white space: [env] then falls back to the placeholder while
    [requireJwtSecret] returns the white space as the secret, in
    production too. *)
Theorem env_and_controller_configuration (e : ProcessEnv) :
  (Env.isProd e = true <-> NODE_ENV e = Some "production") /\
  (forall s,
      requireJwtSecret e = Return s ->
      Env.CUSTOMER_JWT_SECRET e = Some s \/
      (CUSTOMER_JWT_SECRET e = Some s /\ s <> "" /\ JsString.trim s = "" /\
       Env.CUSTOMER_JWT_SECRET e = Some "dev-customer-jwt-secret")) /\
  (forall s,
      s <> "" -> JsString.trim s = "" ->
      requireJwtSecret
        {| CUSTOMER_JWT_SECRET := Some s; NODE_ENV := Some "production" |}
        = Return s).
Proof.
  split; [|split].
  - unfold Env.isProd, Env.NODE_ENV, Env.optional, Env.is_blank.
    destruct (NODE_ENV e) as [v|]; [|split; discriminate].
    destruct (String.eqb_spec (JsString.trim v) "") as [E|E].
    + split; [discriminate|]. intros [= ->]. discriminate E.
    + split; [intros H; apply String.eqb_eq in H; congruence|].
      intros [= ->]. reflexivity.
  - intros s Hs. unfold requireJwtSecret in Hs.
    destruct (_ && _) in Hs; [discriminate|]. injection Hs as <-.
    unfold Env.CUSTOMER_JWT_SECRET, Env.optional, Env.is_blank, or_default.
    destruct (CUSTOMER_JWT_SECRET e) as [v|]; [|left; reflexivity].
    destruct (JsString.truthy v) eqn:Ht.
    + destruct (String.eqb_spec (JsString.trim v) "") as [E|E];
        [|left; reflexivity].
      right. apply truthy_true in Ht. auto.
    + apply truthy_false in Ht. subst v. left. reflexivity.
  - intros s Hne Hblank. unfold requireJwtSecret, or_default.
    cbn [CUSTOMER_JWT_SECRET NODE_ENV].
    apply truthy_true in Hne. rewrite Hne.
    destruct (String.eqb_spec s "dev-customer-jwt-secret") as [->|_];
      [discriminate Hblank|reflexivity].
Qed.

(** ** The further properties on concrete requests *)

Lemma mock_empty_unique (wl : list string) :
  one_otp_per_phone (Mock.empty wl) /\
  one_customer_per_phone (Mock.empty wl) /\
  one_session_per_hash (Mock.empty wl).
Proof. repeat split; intros k; simpl; lia. Defined.

Lemma mock_issued_reachable :
  reachable Mock.sha256_hex Mock.jwt 300000 "7d"
    (Mock.empty [Mock.phone]) Mock.issued.
Proof.
  eapply reach_step; [apply reach_here|].
  exact (step_sendOtp Mock.sha256_hex Mock.jwt 300000 "7d"
           (Mock.empty [Mock.phone]) (Mock.post Mock.phone "") 1000
           Mock.code).
Defined.

Lemma mock_logged_in_reachable :
  reachable Mock.sha256_hex Mock.jwt 300000 "7d"
    (Mock.empty [Mock.phone]) Mock.logged_in.
Proof.
  eapply reach_step; [apply mock_issued_reachable|].
  exact (step_verifyOtp Mock.sha256_hex Mock.jwt 300000 "7d" Mock.issued
           Mock.development (Mock.post Mock.phone Mock.code) 2000 "uuid-1").
Defined.

Lemma wrong_code_keeps_record_live_witness :
  verifyOtp Mock.sha256_hex Mock.jwt "7d" Mock.development
    (Mock.post Mock.phone "000000") 2000 "uuid-0" Mock.issued =
    (Responded 401 (JsonError "OTP_INVALID"), Mock.issued) /\
  (forall env2 req2 now2 uuid2 secret,
      normalizePhone (body_phone req2) = Mock.phone ->
      submitted_otp req2 <> "" ->
      OtpRow.otpHash Mock.issued_row =
        otpToHash Mock.sha256_hex Mock.phone (submitted_otp req2) ->
      unexpired Mock.issued_row now2 ->
      requireJwtSecret env2 = Return secret ->
      sign_yields_exp Mock.jwt "7d" ->
      exists token customer w1,
        verifyOtp Mock.sha256_hex Mock.jwt "7d" env2 req2 now2 uuid2
          (snd (verifyOtp Mock.sha256_hex Mock.jwt "7d" Mock.development
                  (Mock.post Mock.phone "000000") 2000 "uuid-0" Mock.issued))
          = (Responded 200 (JsonLogin token customer), w1)).
Proof.
  apply (wrong_code_keeps_record_live Mock.sha256_hex Mock.jwt "7d"
           Mock.development (Mock.post Mock.phone "000000") 2000 "uuid-0"
           Mock.issued Mock.phone Mock.issued_row).
  - reflexivity.
  - discriminate.
  - discriminate.
  - reflexivity.
  - reflexivity.
  - intros e H. injection H as <-. lia.
  - discriminate.
Defined.

(** The rolled-back first login on the sample store: no customer row is
    left, and the id the insert drew is spent. *)
Lemma mock_rollback_spends_id :
  verifyOtp Mock.sha256_hex Mock.jwt "7d" Mock.production_without_secret
    (Mock.post Mock.phone Mock.code) 2000 "uuid-1" Mock.issued =
    (Next "CUSTOMER_JWT_SECRET is required in production",
     {| phoneWhitelist := [Mock.phone];
        customerOtps := [Mock.issued_row];
        customers := [];
        customers_next_id := 2;
        customerSessions := [];
        dispatched := [(Mock.phone, Mock.code)] |}).
Proof. reflexivity. Qed.

Lemma verifyOtp_rolls_back_on_throw_witness :
  exists w',
    verifyOtp Mock.sha256_hex Mock.jwt "7d" Mock.production_without_secret
      (Mock.post Mock.phone Mock.code) 2000 "uuid-1" Mock.issued =
      (Next "CUSTOMER_JWT_SECRET is required in production", w') /\
    phoneWhitelist w' = phoneWhitelist Mock.issued /\
    customerOtps w' = customerOtps Mock.issued /\
    customers w' = customers Mock.issued /\
    customerSessions w' = customerSessions Mock.issued /\
    dispatched w' = dispatched Mock.issued /\
    otp_record Mock.phone w' = Some Mock.issued_row /\
    ((exists c, customer_record Mock.phone Mock.issued = Some c) ->
     w' = Mock.issued) /\
    (customer_record Mock.phone Mock.issued = None ->
     customers_next_id w' = (customers_next_id Mock.issued + 1)%Z).
Proof.
  apply (verifyOtp_rolls_back_on_throw Mock.sha256_hex Mock.jwt "7d"
           Mock.production_without_secret (Mock.post Mock.phone Mock.code)
           2000 "uuid-1" Mock.issued Mock.phone Mock.issued_row
           "CUSTOMER_JWT_SECRET is required in production").
  - reflexivity.
  - discriminate.
  - discriminate.
  - reflexivity.
  - reflexivity.
  - intros e H. injection H as <-. lia.
  - reflexivity.
  - left. reflexivity.
Defined.

Lemma verifyOtp_success_needs_live_record_witness :
  normalizePhone (body_phone (Mock.post Mock.phone Mock.code)) <> "" /\
  submitted_otp (Mock.post Mock.phone Mock.code) <> "" /\
  Customer.phone Mock.customer =
    normalizePhone (body_phone (Mock.post Mock.phone Mock.code)) /\
  exists r,
    otp_record (normalizePhone (body_phone (Mock.post Mock.phone Mock.code)))
      Mock.issued = Some r /\
    OtpRow.used r = false /\ unexpired r 2000 /\
    OtpRow.otpHash r =
      otpToHash Mock.sha256_hex
        (normalizePhone (body_phone (Mock.post Mock.phone Mock.code)))
        (submitted_otp (Mock.post Mock.phone Mock.code)) /\
    otp_record (normalizePhone (body_phone (Mock.post Mock.phone Mock.code)))
      Mock.logged_in = Some (consumed r).
Proof.
  apply (verifyOtp_success_needs_live_record Mock.sha256_hex Mock.jwt "7d"
           Mock.development (Mock.post Mock.phone Mock.code) 2000 "uuid-1"
           Mock.issued Mock.logged_in "customer:uuid-1" Mock.customer).
  reflexivity.
Defined.

Lemma issued_code_verifies_until_expiry_witness :
  ((301000 <= 1000 + 300000)%Z ->
   exists token customer w2,
     verifyOtp Mock.sha256_hex Mock.jwt "7d" Mock.development
       (Mock.post Mock.phone Mock.code) 301000 "uuid-1"
       (snd (sendOtp Mock.sha256_hex 300000 (Mock.post Mock.phone "") 1000
               Mock.code (Mock.empty [Mock.phone]))) =
       (Responded 200 (JsonLogin token customer), w2)) /\
  ((1000 + 300000 < 301000)%Z ->
   fst (verifyOtp Mock.sha256_hex Mock.jwt "7d" Mock.development
          (Mock.post Mock.phone Mock.code) 301000 "uuid-1"
          (snd (sendOtp Mock.sha256_hex 300000 (Mock.post Mock.phone "") 1000
                  Mock.code (Mock.empty [Mock.phone])))) =
     Responded 401 (JsonError "OTP_EXPIRED")).
Proof.
  apply (issued_code_verifies_until_expiry Mock.sha256_hex Mock.jwt 300000
           "7d" Mock.development (Mock.post Mock.phone "")
           (Mock.post Mock.phone Mock.code) 1000 301000 Mock.code "uuid-1"
           (Mock.empty [Mock.phone]) Mock.phone "dev-customer-jwt-secret").
  - reflexivity.
  - discriminate.
  - simpl. left. reflexivity.
  - reflexivity.
  - reflexivity.
  - discriminate.
  - reflexivity.
  - exact mock_sign_yields_exp.
Defined.

Lemma verifyOtp_records_session_witness :
  exists decoded e,
    jwt_decode Mock.jwt "customer:uuid-1" = Some decoded /\
    claim_exp decoded = Some e /\ e <> 0%Z /\
    ((forall s, In s (customerSessions Mock.issued) ->
                Session.tokenHash s
                  <> tokenToHash Mock.sha256_hex "customer:uuid-1") ->
     customerSessions Mock.logged_in =
       (customerSessions Mock.issued
          ++ [session_row Mock.sha256_hex Mock.customer "customer:uuid-1" e])%list) /\
    ((exists s, In s (customerSessions Mock.issued) /\
                Session.tokenHash s
                  = tokenToHash Mock.sha256_hex "customer:uuid-1") ->
     customerSessions Mock.logged_in = customerSessions Mock.issued) /\
    (exists s, In s (customerSessions Mock.logged_in) /\
               Session.tokenHash s
                 = tokenToHash Mock.sha256_hex "customer:uuid-1").
Proof.
  apply (verifyOtp_records_session Mock.sha256_hex Mock.jwt "7d"
           Mock.development (Mock.post Mock.phone Mock.code) 2000 "uuid-1"
           Mock.issued Mock.logged_in "customer:uuid-1" Mock.customer).
  reflexivity.
Defined.

Lemma login_then_logout_witness :
  fst (logout Mock.sha256_hex Mock.jwt Mock.development
         (Mock.bearer "Bearer customer:uuid-1") 3000 Mock.logged_in)
    = Responded 204 NoBody /\
  customerSessions
    (snd (logout Mock.sha256_hex Mock.jwt Mock.development
            (Mock.bearer "Bearer customer:uuid-1") 3000 Mock.logged_in))
    = customerSessions Mock.issued /\
  customers
    (snd (logout Mock.sha256_hex Mock.jwt Mock.development
            (Mock.bearer "Bearer customer:uuid-1") 3000 Mock.logged_in))
    = customers Mock.logged_in /\
  customerOtps
    (snd (logout Mock.sha256_hex Mock.jwt Mock.development
            (Mock.bearer "Bearer customer:uuid-1") 3000 Mock.logged_in))
    = customerOtps Mock.logged_in.
Proof.
  apply (login_then_logout Mock.sha256_hex Mock.jwt "7d" Mock.development
           Mock.development (Mock.post Mock.phone Mock.code)
           (Mock.bearer "Bearer customer:uuid-1") 2000 3000 "uuid-1"
           Mock.issued Mock.logged_in "customer:uuid-1"
           "dev-customer-jwt-secret" Mock.customer
           {| claim_typ := Some "customer"; claim_exp := Some 604800%Z |}).
  - reflexivity.
  - intros s H. destruct H.
  - reflexivity.
  - reflexivity.
  - reflexivity.
  - reflexivity.
Defined.

Lemma customers_stay_unique_by_phone_witness :
  one_customer_per_phone Mock.logged_in.
Proof.
  apply (customers_stay_unique_by_phone Mock.sha256_hex Mock.jwt 300000 "7d"
           (Mock.empty [Mock.phone]) Mock.logged_in).
  - apply mock_empty_unique.
  - exact mock_logged_in_reachable.
Defined.

Lemma sessions_stay_unique_by_hash_witness :
  one_session_per_hash Mock.logged_in.
Proof.
  apply (sessions_stay_unique_by_hash Mock.sha256_hex Mock.jwt 300000 "7d"
           (Mock.empty [Mock.phone]) Mock.logged_in).
  - apply mock_empty_unique.
  - exact mock_logged_in_reachable.
Defined.

Lemma unlisted_phone_never_logs_in_witness :
  ~ In "+10000000000" (phoneWhitelist Mock.logged_in) /\
  otp_record "+10000000000" Mock.logged_in = None /\
  (forall req now otp,
      normalizePhone (body_phone req) = "+10000000000" ->
      snd (sendOtp Mock.sha256_hex 300000 req now otp Mock.logged_in)
        = Mock.logged_in /\
      fst (sendOtp Mock.sha256_hex 300000 req now otp Mock.logged_in)
        <> Responded 200 JsonOk) /\
  (forall env req now uuid token customer,
      normalizePhone (body_phone req) = "+10000000000" ->
      fst (verifyOtp Mock.sha256_hex Mock.jwt "7d" env req now uuid
             Mock.logged_in)
        <> Responded 200 (JsonLogin token customer)).
Proof.
  apply (unlisted_phone_never_logs_in Mock.sha256_hex Mock.jwt 300000 "7d"
           (Mock.empty [Mock.phone]) Mock.logged_in "+10000000000").
  - simpl. intros [H|[]]. discriminate H.
  - reflexivity.
  - exact mock_logged_in_reachable.
Defined.

Lemma seeding_again_creates_nothing_witness :
  exists db2,
    SeedAdmin.main SeedMock.argv SeedMock.config "$2a$10$second"
      SeedMock.seeded =
      (Return {| SeedAdmin.created := false;
                 SeedAdmin.adminId := SeedAdmin.adminId SeedMock.result;
                 SeedAdmin.role := SeedAdmin.role SeedMock.result |}, db2) /\
    SeedAdmin.adminRoles db2 = SeedAdmin.adminRoles SeedMock.seeded /\
    SeedAdmin.admins_next_id db2 = SeedAdmin.admins_next_id SeedMock.seeded /\
    map SeedAdmin.Admin.id (SeedAdmin.admins db2)
      = map SeedAdmin.Admin.id (SeedAdmin.admins SeedMock.seeded) /\
    map SeedAdmin.Admin.email (SeedAdmin.admins db2)
      = map SeedAdmin.Admin.email (SeedAdmin.admins SeedMock.seeded).
Proof.
  apply (seeding_again_creates_nothing SeedMock.argv SeedMock.config
           "$2a$10$first" "$2a$10$second" SeedMock.empty SeedMock.seeded
           SeedMock.result).
  reflexivity.
Defined.

Lemma seeding_installs_admin_and_role_witness :
  In (SeedAdmin.role SeedMock.result) SeedAdmin.ADMIN_ROLES /\
  JsString.toLowerCase (SeedAdmin.role SeedMock.result) =
    JsString.toLowerCase
      (or_default (SeedAdmin.readArg SeedMock.argv "role") "ADMIN") /\
  (exists a,
      In a (SeedAdmin.admins SeedMock.seeded) /\
      SeedAdmin.or_else (SeedAdmin.readArg SeedMock.argv "email")
        (SeedAdmin.SUPERADMIN_EMAIL SeedMock.config)
        = Some (SeedAdmin.Admin.email a) /\
      SeedAdmin.Admin.id a = SeedAdmin.adminId SeedMock.result /\
      SeedAdmin.Admin.passwordHash a = "$2a$10$first" /\
      (SeedAdmin.created SeedMock.result = true <->
       forall x, In x (SeedAdmin.admins SeedMock.empty) ->
                 SeedAdmin.Admin.email x <> SeedAdmin.Admin.email a)) /\
  In {| SeedAdmin.AdminRole.adminId := SeedAdmin.adminId SeedMock.result;
        SeedAdmin.AdminRole.role := SeedAdmin.role SeedMock.result |}
    (SeedAdmin.adminRoles SeedMock.seeded) /\
  (forall x, In x (SeedAdmin.adminRoles SeedMock.empty) ->
             In x (SeedAdmin.adminRoles SeedMock.seeded)).
Proof.
  apply (seeding_installs_admin_and_role SeedMock.argv SeedMock.config
           "$2a$10$first" SeedMock.empty SeedMock.seeded SeedMock.result).
  reflexivity.
Defined.

Lemma codes_only_for_whitelisted_phones_witness :
  only_whitelisted Mock.logged_in /\
  phoneWhitelist Mock.logged_in = phoneWhitelist (Mock.empty [Mock.phone]).
Proof.
  apply (codes_only_for_whitelisted_phones Mock.sha256_hex Mock.jwt 300000
           "7d" (Mock.empty [Mock.phone]) Mock.logged_in).
  - split; intros x H; destruct H.
  - exact mock_logged_in_reachable.
Defined.
